(** * logsplit: a shallow embedding of [logsplit.py] and its specification

  The development follows the layout of the program:

  - [Text]      Python [str] values, character classes and case mapping;
  - [Re]        the backtracking regular expressions of the [re] module,
                restricted to the constructs the program's patterns use;
  - [Datetime]  naive [datetime] values, [strptime] and [strftime] for the
                directives the program's format strings use;
  - [Fs]        the file store the program reads and writes;
  - [LogSplitter], [parse_datetime], [main]: the program itself, with
                [glob.glob] as a parameter of [find_log_files] and [main];
  - [Spec]      the notions of the specification, stated in its words, that
                the theorems compare the program with.

  A Python [str] is modelled by [string]; a character of the model is a
  code point in U+0000..U+00FF, so every statement below is about text
  whose code points lie in that range.  Python integers are [Z]. *)

From Stdlib Require Import ZArith Lia Ascii String List Bool.
From stdpp Require Import gmap strings list fin_maps.

Local Open Scope string_scope.

(* ===================================================================== *)
(** ** Text *)
(* ===================================================================== *)

Module Text.

Definition code (c : ascii) : N := N_of_ascii c.

Definition in_range (lo hi : N) (c : ascii) : bool :=
  ((lo <=? code c) && (code c <=? hi))%N.

(** [\d] : the decimal digits (Unicode category Nd below U+0100). *)
Definition is_digit (c : ascii) : bool := in_range 48 57 c.

(** [\s] : Unicode white space below U+0100. *)
Definition is_space (c : ascii) : bool :=
  in_range 9 13 c || in_range 28 32 c
  || (code c =? 133)%N || (code c =? 160)%N.

Definition is_ascii_upper (c : ascii) : bool := in_range 65 90 c.
Definition is_ascii_lower (c : ascii) : bool := in_range 97 122 c.

(** Latin-1 capital letters other than the multiplication sign. *)
Definition is_latin_upper (c : ascii) : bool :=
  in_range 192 214 c || in_range 216 222 c.
Definition is_latin_lower (c : ascii) : bool :=
  in_range 224 246 c || in_range 248 254 c.

(** [\w] : alphanumeric code points ([str.isalnum]) and the underscore. *)
Definition is_word (c : ascii) : bool :=
  is_digit c || is_ascii_upper c || is_ascii_lower c || (code c =? 95)%N
  || (code c =? 170)%N || (code c =? 178)%N || (code c =? 179)%N
  || (code c =? 181)%N || (code c =? 185)%N || (code c =? 186)%N
  || in_range 188 190 c
  || in_range 192 214 c || in_range 216 246 c || in_range 248 255 c.

Definition shift_up (c : ascii) : ascii := ascii_of_N (code c - 32).
Definition shift_down (c : ascii) : ascii := ascii_of_N (code c + 32).

(** Simple lower-case mapping of one character. *)
Definition tolower (c : ascii) : ascii :=
  if is_ascii_upper c || is_latin_upper c then shift_down c else c.

(** [str.lower()] *)
Fixpoint lower (s : string) : string :=
  match s with
  | EmptyString => EmptyString
  | String c s' => String (tolower c) (lower s')
  end.

(** Upper-case form of one character.  U+00DF becomes "SS".  The upper-case
    forms of U+00B5 and U+00FF lie beyond U+00FF; these two characters are
    left as they are, which no comparison against ASCII text can tell
    apart. *)
Definition toupper (c : ascii) : string :=
  if is_ascii_lower c || is_latin_lower c then String (shift_up c) ""
  else if (code c =? 223)%N then "SS"
  else String c "".

(** [str.upper()] *)
Fixpoint upper (s : string) : string :=
  match s with
  | EmptyString => EmptyString
  | String c s' => toupper c +:+ upper s'
  end.

(** [a[:n]] and [a[n:]] *)
Fixpoint take (n : nat) (s : string) : string :=
  match n, s with
  | S n', String c s' => String c (take n' s')
  | _, _ => EmptyString
  end.

Fixpoint drop (n : nat) (s : string) : string :=
  match n, s with
  | S n', String _ s' => drop n' s'
  | _, _ => s
  end.

(** [s.startswith(p)] *)
Fixpoint startswith (p s : string) : bool :=
  match p, s with
  | EmptyString, _ => true
  | String a p', String b s' => Ascii.eqb a b && startswith p' s'
  | String _ _, EmptyString => false
  end.

(** [s.endswith(p)] *)
Definition endswith (p s : string) : bool :=
  (String.length p <=? String.length s)%nat
  && String.eqb (drop (String.length s - String.length p) s) p.

(** Truth value of a [str]: non-empty. *)
Definition truthy (s : string) : bool :=
  match s with EmptyString => false | String _ _ => true end.

End Text.

(* ===================================================================== *)
(** ** Regular expressions *)
(* ===================================================================== *)

Module Re.
Import Text.

(** The fragment of [re] syntax used by the program and by [strptime]:
    literals, character classes, concatenation, alternation [a|b], greedy
    option [a?], greedy [c+] over a character class, the word boundary
    [\b] and capturing groups.  Bounded repetition [a{n}] and [c{m,n}] are
    unfolded into these (see [rep] and [rep_upto]). *)
Inductive regex : Type :=
| Eps
| Lit (c : ascii)
| Cls (p : ascii → bool)
| Seq (r1 r2 : regex)
| Alt (r1 r2 : regex)
| Opt (r : regex)
| Plus (p : ascii → bool)
| WordB
| Group (name : string) (r : regex).

(** [r{n}] *)
Fixpoint rep (n : nat) (r : regex) : regex :=
  match n with
  | O => Eps
  | S n' => Seq r (rep n' r)
  end.

(** [r{0,n}], greedy *)
Fixpoint rep_upto (n : nat) (r : regex) : regex :=
  match n with
  | O => Eps
  | S n' => Opt (Seq r (rep_upto n' r))
  end.

(** A literal string. *)
Fixpoint lit (s : string) : regex :=
  match s with
  | EmptyString => Eps
  | String c s' => Seq (Lit c) (lit s')
  end.

(** The matcher's position: the character just before it (none at the
    start of the text), the text still to read, and the groups captured so
    far (latest first). *)
Record mstate : Type := MState {
  prev : option ascii;
  rest : string;
  groups : list (string * string)
}.

Definition char_eq (ignorecase : bool) (c d : ascii) : bool :=
  if ignorecase then Ascii.eqb (tolower c) (tolower d) else Ascii.eqb c d.

(** One character, when it passes [ok]. *)
Definition step_char (ok : ascii → bool) (st : mstate) : list (string * mstate) :=
  match rest st with
  | String d s' =>
      if ok d then [(String d "", MState (Some d) s' (groups st))] else []
  | EmptyString => []
  end.

Definition cons_text (d : ascii) (m : string * mstate) : string * mstate :=
  (String d m.1, m.2).

(** [c+] from the current position: the longest run first. *)
Fixpoint run_class (p : ascii → bool) (s : string)
    (g : list (string * string)) : list (string * mstate) :=
  match s with
  | String d s' =>
      if p d
      then map (cons_text d) (run_class p s' g)
           ++ [(String d "", MState (Some d) s' g)]
      else []
  | EmptyString => []
  end.

Definition is_word_opt (o : option ascii) : bool :=
  match o with Some c => is_word c | None => false end.

Definition next_char (s : string) : option ascii :=
  match s with String c _ => Some c | EmptyString => None end.

(** [\b] holds where exactly one side is a word character. *)
Definition at_boundary (st : mstate) : bool :=
  xorb (is_word_opt (prev st)) (is_word_opt (next_char (rest st))).

Definition set_group (name : string) (m : string * mstate) : string * mstate :=
  (m.1, MState (prev m.2) (rest m.2) ((name, m.1) :: groups m.2)).

Definition prepend (t : string) (m : string * mstate) : string * mstate :=
  (t +:+ m.1, m.2).

(** All the ways [r] matches at [st], in the order in which a backtracking
    matcher finds them; each with the text it reads and the position it
    reaches. *)
Fixpoint rmatch (ignorecase : bool) (r : regex) (st : mstate)
    : list (string * mstate) :=
  match r with
  | Eps => [(EmptyString, st)]
  | Lit c => step_char (char_eq ignorecase c) st
  | Cls p => step_char p st
  | Seq r1 r2 =>
      flat_map (λ m, map (prepend m.1) (rmatch ignorecase r2 m.2))
               (rmatch ignorecase r1 st)
  | Alt r1 r2 => rmatch ignorecase r1 st ++ rmatch ignorecase r2 st
  | Opt r1 => rmatch ignorecase r1 st ++ [(EmptyString, st)]
  | Plus p => run_class p (rest st) (groups st)
  | WordB => if at_boundary st then [(EmptyString, st)] else []
  | Group name r1 => map (set_group name) (rmatch ignorecase r1 st)
  end.

(** A match object: where the match starts, the matched text, the groups. *)
Record Match : Type := MkMatch {
  m_start : nat;
  m_text : string;
  m_groups : list (string * string)
}.

Fixpoint assoc (name : string) (g : list (string * string)) : option string :=
  match g with
  | [] => None
  | (k, v) :: g' => if String.eqb k name then Some v else assoc name g'
  end.

(** [m.group(name)] *)
Definition group (m : Match) (name : string) : option string :=
  assoc name (m_groups m).

(** The match the matcher finds first at one position. *)
Definition first_match (ignorecase : bool) (r : regex) (before : option ascii)
    (s : string) (pos : nat) : option Match :=
  match rmatch ignorecase r (MState before s []) with
  | m :: _ => Some (MkMatch pos m.1 (groups m.2))
  | [] => None
  end.

(** [pattern.match(s)] *)
Definition re_match (ignorecase : bool) (r : regex) (s : string) : option Match :=
  first_match ignorecase r None s 0.

Fixpoint search_from (ignorecase : bool) (r : regex) (before : option ascii)
    (s : string) (pos : nat) : option Match :=
  match first_match ignorecase r before s pos with
  | Some m => Some m
  | None =>
      match s with
      | EmptyString => None
      | String c s' => search_from ignorecase r (Some c) s' (S pos)
      end
  end.

(** [pattern.search(s)] : the match at the leftmost position that has one. *)
Definition re_search (ignorecase : bool) (r : regex) (s : string) : option Match :=
  search_from ignorecase r None s 0.

End Re.

(* ===================================================================== *)
(** ** Dates and times *)
(* ===================================================================== *)

Module Datetime.
Import Text Re.

(** A naive [datetime.datetime]. *)
Record datetime : Type := MkDatetime {
  year : Z;
  month : Z;
  day : Z;
  hour : Z;
  minute : Z;
  second : Z;
  microsecond : Z
}.

Definition is_leap (y : Z) : bool :=
  ((y mod 4 =? 0) && (negb (y mod 100 =? 0) || (y mod 400 =? 0)))%Z.

Definition days_in_month (y m : Z) : Z :=
  if (m =? 2)%Z then (if is_leap y then 29 else 28)%Z
  else if ((m =? 4) || (m =? 6) || (m =? 9) || (m =? 11))%Z then 30%Z
  else 31%Z.

Definition between (lo x hi : Z) : bool := ((lo <=? x) && (x <=? hi))%Z.

(** The range checks of [datetime.date(y, m, d)]. *)
Definition valid_date (y m d : Z) : bool :=
  between 1 y 9999 && between 1 m 12 && between 1 d (days_in_month y m).

(** The range checks of [datetime.time]'s fields. *)
Definition valid_time (h mi s us : Z) : bool :=
  between 0 h 23 && between 0 mi 59 && between 0 s 59 && between 0 us 999999.

(** [datetime(y, m, d, h, mi, s, us)]; [None] stands for [ValueError]. *)
Definition make (y m d h mi s us : Z) : option datetime :=
  if valid_date y m d && valid_time h mi s us
  then Some (MkDatetime y m d h mi s us)
  else None.

Definition fields (t : datetime) : list Z :=
  [year t; month t; day t; hour t; minute t; second t; microsecond t].

Fixpoint lex_compare (a b : list Z) : comparison :=
  match a, b with
  | x :: a', y :: b' =>
      match (x ?= y)%Z with
      | Eq => lex_compare a' b'
      | c => c
      end
  | [], [] => Eq
  | [], _ :: _ => Lt
  | _ :: _, [] => Gt
  end.

Definition compare (a b : datetime) : comparison :=
  lex_compare (fields a) (fields b).

(** [a <= b] and [a >= b] on naive datetimes. *)
Definition le (a b : datetime) : bool :=
  match compare a b with Gt => false | _ => true end.
Definition ge (a b : datetime) : bool :=
  match compare a b with Lt => false | _ => true end.

(** *** strptime *)

Definition chr_range (a b : ascii) : ascii → bool := in_range (code a) (code b).

(** The regular expression of one format directive, as in the table of
    [_strptime.TimeRE]. *)
Definition directive (c : ascii) : option regex :=
  if Ascii.eqb c "d" then
    Some (Group "d"
      (Alt (Seq (Lit "3") (Cls (chr_range "0" "1")))
      (Alt (Seq (Cls (chr_range "1" "2")) (Cls is_digit))
      (Alt (Seq (Lit "0") (Cls (chr_range "1" "9")))
      (Alt (Cls (chr_range "1" "9"))
           (Seq (Lit " ") (Cls (chr_range "1" "9"))))))))
  else if Ascii.eqb c "f" then
    Some (Group "f" (Seq (Cls (chr_range "0" "9"))
                         (rep_upto 5 (Cls (chr_range "0" "9")))))
  else if Ascii.eqb c "H" then
    Some (Group "H"
      (Alt (Seq (Lit "2") (Cls (chr_range "0" "3")))
      (Alt (Seq (Cls (chr_range "0" "1")) (Cls is_digit))
           (Cls is_digit))))
  else if Ascii.eqb c "m" then
    Some (Group "m"
      (Alt (Seq (Lit "1") (Cls (chr_range "0" "2")))
      (Alt (Seq (Lit "0") (Cls (chr_range "1" "9")))
           (Cls (chr_range "1" "9")))))
  else if Ascii.eqb c "M" then
    Some (Group "M"
      (Alt (Seq (Cls (chr_range "0" "5")) (Cls is_digit))
           (Cls is_digit)))
  else if Ascii.eqb c "S" then
    Some (Group "S"
      (Alt (Seq (Lit "6") (Cls (chr_range "0" "1")))
      (Alt (Seq (Cls (chr_range "0" "5")) (Cls is_digit))
           (Cls is_digit))))
  else if Ascii.eqb c "Y" then
    Some (Group "Y" (rep 4 (Cls is_digit)))
  else None.

(** [TimeRE.pattern]: a run of white space in the format becomes [\s+], a
    directive becomes its regular expression, any other character stands
    for itself.  [in_ws] tells that the previous character was white
    space.  [None] stands for the [ValueError] of a bad directive. *)
Fixpoint pattern_aux (in_ws : bool) (fmt : string) : option regex :=
  match fmt with
  | EmptyString => Some Eps
  | String c fmt' =>
      if Ascii.eqb c "%" then
        match fmt' with
        | EmptyString => None
        | String d fmt'' =>
            match directive d, pattern_aux false fmt'' with
            | Some r, Some rs => Some (Seq r rs)
            | _, _ => None
            end
        end
      else if is_space c then
        if in_ws then pattern_aux true fmt'
        else option_map (Seq (Plus is_space)) (pattern_aux true fmt')
      else option_map (Seq (Lit c)) (pattern_aux false fmt')
  end.

Definition pattern (fmt : string) : option regex := pattern_aux false fmt.

Definition digit_value (c : ascii) : Z := Z.of_N (code c) - 48.

Fixpoint strip_left (s : string) : string :=
  match s with
  | String c s' => if is_space c then strip_left s' else s
  | EmptyString => EmptyString
  end.

Fixpoint digits_value (acc : Z) (s : string) : option Z :=
  match s with
  | EmptyString => Some acc
  | String c s' =>
      if is_digit c then digits_value (10 * acc + digit_value c) s' else None
  end.

(** [int(s)] for an unsigned decimal literal, which may follow white
    space; [None] stands for [ValueError]. *)
Definition int (s : string) : option Z :=
  match strip_left s with
  | EmptyString => None
  | String c s' => digits_value 0 (String c s')
  end.

Fixpoint zeros (n : nat) : string :=
  match n with O => EmptyString | S n' => String "0" (zeros n') end.

(** The value of a field: the integer of its group, or [dflt] when the
    format has no such directive. *)
Definition field (g : list (string * string)) (name : string) (dflt : Z) : option Z :=
  match assoc name g with
  | Some s => int s
  | None => Some dflt
  end.

(** [%f]: the digits are padded with zeros on the right to six. *)
Definition fraction (g : list (string * string)) : option Z :=
  match assoc "f" g with
  | Some s => int (s +:+ zeros (6 - String.length s))
  | None => Some 0%Z
  end.

(** [datetime.strptime(data, fmt)]; [None] stands for [ValueError].  The
    pattern of the format must match at the start of [data] and the first
    match found must reach its end. *)
Definition strptime (data fmt : string) : option datetime :=
  match pattern fmt with
  | None => None
  | Some r =>
      match re_match true r data with
      | None => None
      | Some found =>
          if negb (String.length data =? String.length (m_text found))%nat
          then None
          else
            let g := m_groups found in
            match field g "Y" 1900, field g "m" 1, field g "d" 1,
                  field g "H" 0, field g "M" 0, field g "S" 0, fraction g with
            | Some y, Some m, Some d, Some h, Some mi, Some s, Some us =>
                make y m d h mi s us
            | _, _, _, _, _, _, _ => None
            end
      end
  end.

(** *** strftime *)

Definition digit_char (d : Z) : ascii := ascii_of_N (48 + Z.to_N (d mod 10)).

(** The last [n] decimal digits of [v], most significant first. *)
Fixpoint decimal (n : nat) (v : Z) : string :=
  match n with
  | O => EmptyString
  | S n' => decimal n' (v / 10) +:+ String (digit_char v) ""
  end.

(** The decimal digits of [v], most significant first and without leading
    zeros, for [0 <= v < 10 ^ fuel]. *)
Fixpoint digits (fuel : nat) (v : Z) : string :=
  match fuel with
  | O => EmptyString
  | S fuel' =>
      if (v <? 10)%Z then String (digit_char v) ""
      else digits fuel' (v / 10) +:+ String (digit_char v) ""
  end.

(** [t.strftime(fmt)] for the directives [%Y %m %d %H %M %S]; other
    characters are copied.  The C library writes the fields: [%m %d %H %M
    %S] with two digits, and [%Y] as the number of the year, which has four
    digits from the year 1000 on and fewer before (CPython 3.11 on glibc
    gives ["999"] for the year 999).  The year of a [datetime] is at most
    9999, so four digits are enough. *)
Fixpoint strftime (t : datetime) (fmt : string) : string :=
  match fmt with
  | EmptyString => EmptyString
  | String c fmt' =>
      if Ascii.eqb c "%" then
        match fmt' with
        | EmptyString => "%"
        | String d fmt'' =>
            (if Ascii.eqb d "Y" then digits 4 (year t)
             else if Ascii.eqb d "m" then decimal 2 (month t)
             else if Ascii.eqb d "d" then decimal 2 (day t)
             else if Ascii.eqb d "H" then decimal 2 (hour t)
             else if Ascii.eqb d "M" then decimal 2 (minute t)
             else if Ascii.eqb d "S" then decimal 2 (second t)
             else String c (String d ""))
            +:+ strftime t fmt''
        end
      else String c (strftime t fmt')
  end.

End Datetime.

(* ===================================================================== *)
(** ** The file store *)
(* ===================================================================== *)

(** Exceptions the program can meet. *)
Inductive exn : Type :=
| ValueError
| FileNotFoundError
| OSError.

Inductive result (A : Type) : Type :=
| Ok (a : A)
| Raise (e : exn).
Arguments Ok {A} a.
Arguments Raise {A} e.

Module Fs.
Import Text.

(** What the program reports per file: the counts of a pass that ran, or
    the failure of one that could not. *)
Inductive log_event : Type :=
| Filtered (matched_lines total_lines : nat) (output_file : string)
| ErrorProcessing (log_file : string).

(** Regular files with their decoded text, the directories, and the
    per-file reports so far (latest first).  Paths are compared as
    strings. *)
Record store : Type := MkStore {
  files : gmap string string;
  dirs : gset string;
  log : list log_event
}.

(** [s.rfind(c)]: the index of the last [c], or [-1]. *)
Fixpoint rfind (c : ascii) (s : string) : Z :=
  match s with
  | EmptyString => (-1)%Z
  | String d s' =>
      let i := rfind c s' in
      if (0 <=? i)%Z then (i + 1)%Z
      else if Ascii.eqb d c then 0%Z else (-1)%Z
  end.

(** [posixpath.basename] *)
Definition basename (p : string) : string :=
  drop (Z.to_nat (rfind "/" p + 1)) p.

(** The directory that holds the entry [p]: the text before its last
    separator. *)
Definition parent (p : string) : string :=
  take (Z.to_nat (rfind "/" p)) p.

(** Whether one of the first [n] characters of [s] is not a dot. *)
Fixpoint has_non_dot (n : nat) (s : string) : bool :=
  match n, s with
  | S n', String c s' => negb (Ascii.eqb c ".") || has_non_dot n' s'
  | _, _ => false
  end.

(** [posixpath.splitext]: the extension starts at the last dot of the last
    component, unless only dots precede it there. *)
Definition splitext (p : string) : string * string :=
  let sepIndex := rfind "/" p in
  let dotIndex := rfind "." p in
  if (dotIndex >? sepIndex)%Z
     && has_non_dot (Z.to_nat (dotIndex - (sepIndex + 1)))
                    (drop (Z.to_nat (sepIndex + 1)) p)
  then (take (Z.to_nat dotIndex) p, drop (Z.to_nat dotIndex) p)
  else (p, "").

(** [posixpath.join(a, b)] *)
Definition join (a b : string) : string :=
  if startswith "/" b then b
  else if negb (truthy a) || endswith "/" a then a +:+ b
  else a +:+ "/" +:+ b.

Definition isfile (st : store) (p : string) : bool :=
  bool_decide (is_Some (files st !! p)).

Definition isdir (st : store) (p : string) : bool :=
  bool_decide (p ∈ dirs st).

(** The proper prefixes of [p] that end just before a separator. *)
Fixpoint ancestors_from (seen p : string) : list string :=
  match p with
  | EmptyString => []
  | String c p' =>
      (if Ascii.eqb c "/" && truthy seen then [seen] else [])
      ++ ancestors_from (seen +:+ String c "") p'
  end.

Definition ancestors (p : string) : list string := ancestors_from "" p.

(** How a command on the store ends: normally, or by an exception; either
    way with the store it leaves behind. *)
Inductive run : Type :=
| Done (st : store)
| Failed (e : exn) (st : store).

(** [os.makedirs(p, exist_ok=True)]: fails on the empty path and where a
    regular file is in the way. *)
Definition makedirs (p : string) (st : store) : run :=
  if negb (truthy p) then Failed FileNotFoundError st
  else if existsb (isfile st) (p :: ancestors p) then Failed OSError st
  else Done (MkStore (files st)
                     (dirs st ∪ list_to_set (p :: ancestors p))
                     (log st)).

(** [open(p, 'r')]: the text of the file; [None] stands for [OSError]. *)
Definition open_read (p : string) (st : store) : option string :=
  files st !! p.

(** [open(p, 'w')]: the file is created or truncated.  It needs a last
    component, must not be a directory, and its directory must exist (the
    empty directory name stands for the current or the root directory);
    [None] stands for [OSError]. *)
Definition open_write (p : string) (st : store) : option store :=
  if truthy (basename p) && negb (isdir st p)
     && (negb (truthy (parent p)) || isdir st (parent p))
  then Some (MkStore (<[p := ""]> (files st)) (dirs st) (log st))
  else None.

(** What a file open for writing holds once it is closed. *)
Definition write_close (p text : string) (st : store) : store :=
  MkStore (<[p := text]> (files st)) (dirs st) (log st).

Definition add_log (e : log_event) (st : store) : store :=
  MkStore (files st) (dirs st) (e :: log st).

Definition under (d p : string) : bool := startswith (d +:+ "/") p.

(** [shutil.rmtree(d)] *)
Definition rmtree (d : string) (st : store) : run :=
  if isdir st d then
    Done (MkStore (filter (λ kv, under d kv.1 = false) (files st))
                  (filter (λ p, under d p = false ∧ p ≠ d) (dirs st))
                  (log st))
  else Failed FileNotFoundError st.

(** Reading a text file line by line with universal newlines: ["\r\n"] and
    ["\r"] are read as ["\n"], and every line keeps its ["\n"].  [after_cr]
    tells that the previous character was ["\r"]. *)
Definition LF : ascii := ascii_of_N 10.
Definition CR : ascii := ascii_of_N 13.

Definition cons_char (c : ascii) (ls : list string) : list string :=
  match ls with
  | [] => [String c ""]
  | l :: ls' => String c l :: ls'
  end.

Fixpoint readlines_aux (after_cr : bool) (s : string) : list string :=
  match s with
  | EmptyString => []
  | String c s' =>
      if Ascii.eqb c LF then
        if after_cr then readlines_aux false s'
        else String LF "" :: readlines_aux false s'
      else if Ascii.eqb c CR then String LF "" :: readlines_aux true s'
      else cons_char c (readlines_aux false s')
  end.

Definition readlines (text : string) : list string := readlines_aux false text.

(** The text of a file after the given lines were written to it. *)
Fixpoint text_of (ls : list string) : string :=
  match ls with
  | [] => EmptyString
  | l :: ls' => l +:+ text_of ls'
  end.

End Fs.

(* ===================================================================== *)
(** ** The program *)
(* ===================================================================== *)

Module LogSplitter.
Import Text Re Datetime Fs.

Definition SEVERITY_LEVELS : gmap string Z :=
  list_to_map
    [("TRACE", 0%Z); ("DEBUG", 1%Z); ("INFO", 2%Z); ("WARN", 3%Z);
     ("WARNING", 3%Z); ("ERROR", 4%Z); ("FATAL", 5%Z); ("CRITICAL", 5%Z)].

(** [SEVERITY_LEVELS.get(key, dflt)] *)
Definition get (key : string) (dflt : Z) : Z :=
  default dflt (SEVERITY_LEVELS !! key).

Fixpoint seqs (rs : list regex) : regex :=
  match rs with
  | [] => Eps
  | r :: rs' => Seq r (seqs rs')
  end.

Definition d2 : regex := rep 2 (Cls is_digit).
Definition d4 : regex := rep 4 (Cls is_digit).

(** [\s+\d{2}:\d{2}:\d{2}(?:\.\d{3})?], the tail the three patterns share. *)
Definition clock : regex :=
  seqs [Plus is_space; d2; Lit ":"; d2; Lit ":"; d2;
       Opt (Seq (Lit ".") (rep 3 (Cls is_digit)))].

Definition TIMESTAMP_PATTERNS : list regex :=
  [ Group "1" (seqs [d4; Lit "-"; d2; Lit "-"; d2; clock]);
    Group "1" (seqs [d4; Lit "/"; d2; Lit "/"; d2; clock]);
    Group "1" (seqs [d2; Lit "/"; d2; Lit "/"; d4; clock]) ].

Definition compiled_patterns : list regex := TIMESTAMP_PATTERNS.

Definition formats : list string :=
  [ "%Y-%m-%d %H:%M:%S.%f";
    "%Y-%m-%d %H:%M:%S";
    "%Y/%m/%d %H:%M:%S.%f";
    "%Y/%m/%d %H:%M:%S";
    "%m/%d/%Y %H:%M:%S.%f";
    "%m/%d/%Y %H:%M:%S" ].

(** The inner loop of [extract_timestamp]: the first format under which
    [timestamp_str] parses. *)
Fixpoint try_formats (timestamp_str : string) (fmts : list string)
    : option datetime :=
  match fmts with
  | [] => None
  | fmt :: fmts' =>
      match strptime timestamp_str fmt with
      | Some t => Some t
      | None => try_formats timestamp_str fmts'
      end
  end.

(** The outer loop of [extract_timestamp]. *)
Fixpoint extract_timestamp_from (patterns : list regex) (line : string)
    : option datetime :=
  match patterns with
  | [] => None
  | pattern :: patterns' =>
      match re_search false pattern line with
      | Some m =>
          match try_formats (default "" (group m "1")) formats with
          | Some t => Some t
          | None => extract_timestamp_from patterns' line
          end
      | None => extract_timestamp_from patterns' line
      end
  end.

Definition extract_timestamp (line : string) : option datetime :=
  extract_timestamp_from compiled_patterns line.

Definition severity_pattern : regex :=
  seqs [WordB;
       Group "1"
         (Alt (lit "TRACE") (Alt (lit "DEBUG") (Alt (lit "INFO")
         (Alt (lit "WARN") (Alt (lit "WARNING") (Alt (lit "ERROR")
         (Alt (lit "FATAL") (lit "CRITICAL"))))))));
       WordB].

Definition extract_severity (line : string) : option string :=
  match re_search true severity_pattern line with
  | Some m => Some (upper (default "" (group m "1")))
  | None => None
  end.

(** The local variables of one pass over a file: what was written, and the
    two counters. *)
Record pass : Type := MkPass {
  outfile : list string;
  matched_lines : nat;
  total_lines : nat
}.

Definition start_pass : pass := MkPass [] 0 0.

Definition count_line (p : pass) : pass :=
  MkPass (outfile p) (matched_lines p) (S (total_lines p)).

Definition write_line (line : string) (p : pass) : pass :=
  MkPass (outfile p ++ [line]) (S (matched_lines p)) (total_lines p).

(** Truth value of an optional [str]. *)
Definition truthy_opt (o : option string) : bool :=
  match o with Some s => truthy s | None => false end.

(** The body of the line loop of [split_by_severity]. *)
Definition severity_body (min_level : Z) (p : pass) (line : string) : pass :=
  let p := count_line p in
  let severity := extract_severity line in
  if truthy_opt severity
     && (get (default "" severity) 0 >=? min_level)%Z
  then write_line line p
  else if negb (truthy_opt severity) && (min_level <=? 1)%Z
  then write_line line p
  else p.

(** The body of the line loop of [split_by_timerange]. *)
Definition timerange_body (start_time end_time : datetime) (p : pass)
    (line : string) : pass :=
  let p := count_line p in
  match extract_timestamp line with
  | Some timestamp =>
      if le start_time timestamp && le timestamp end_time
      then write_line line p
      else p
  | None => p
  end.

(** The [try] block both passes share: open the input, then create or
    truncate the output, then run [body] over the lines read from the
    input, then close both and report.  A failure to open is reported and
    leaves the store as it was. *)
Definition filter_file (body : pass → string → pass)
    (log_file output_file : string) (st : store) : store :=
  match open_read log_file st with
  | None => add_log (ErrorProcessing log_file) st
  | Some _ =>
      match open_write output_file st with
      | None => add_log (ErrorProcessing log_file) st
      | Some st1 =>
          let text := default "" (open_read log_file st1) in
          let p := foldl body start_pass (readlines text) in
          add_log (Filtered (matched_lines p) (total_lines p) output_file)
                  (write_close output_file (text_of (outfile p)) st1)
      end
  end.

Definition base_name (log_file : string) : string :=
  (splitext (basename log_file)).1.

Definition severity_output (output_dir min_severity log_file : string) : string :=
  join output_dir
       (base_name log_file +:+ "_severity_" +:+ lower min_severity
        +:+ "_and_above.log").

Definition split_by_severity (log_files : list string) (min_severity : string)
    (output_dir : string) (st : store) : run :=
  let min_level := get (upper min_severity) 2 in
  match makedirs output_dir st with
  | Failed e st => Failed e st
  | Done st =>
      Done (foldl (λ st log_file,
                     filter_file (severity_body min_level) log_file
                       (severity_output output_dir min_severity log_file) st)
                  st log_files)
  end.

Definition timerange_output (output_dir : string) (start_time end_time : datetime)
    (log_file : string) : string :=
  let start_str := strftime start_time "%Y%m%d_%H%M%S" in
  let end_str := strftime end_time "%Y%m%d_%H%M%S" in
  join output_dir
       (base_name log_file +:+ "_timerange_" +:+ start_str +:+ "_to_"
        +:+ end_str +:+ ".log").

Definition split_by_timerange (log_files : list string)
    (start_time end_time : datetime) (output_dir : string) (st : store)
    : run :=
  match makedirs output_dir st with
  | Failed e st => Failed e st
  | Done st =>
      Done (foldl (λ st log_file,
                     filter_file (timerange_body start_time end_time) log_file
                       (timerange_output output_dir start_time end_time log_file)
                       st)
                  st log_files)
  end.

(** [find_log_files], over the result of [glob.glob(pattern,
    recursive=True)] in the store, which is taken as given. *)
Section Discovery.
Variable glob : store → string → list string.

Definition extensions : list string := ["*.log"; "*.txt"; "*.out"; "*.err"].

Definition find_log_files (input_path : string) (st : store)
    : result (list string) :=
  if isfile st input_path then Ok [input_path]
  else if isdir st input_path then
    Ok (flat_map (λ ext, glob st (join (join input_path "**") ext))
                 extensions)
  else Raise FileNotFoundError.
End Discovery.

End LogSplitter.

(** [parse_datetime] *)
Definition boundary_formats : list string :=
[ "%Y-%m-%d %H:%M:%S.%f";
  "%Y-%m-%d %H:%M:%S";
  "%Y-%m-%d %H:%M";
  "%Y-%m-%d" ].

Fixpoint parse_datetime_from (fmts : list string) (datetime_str : string)
  : result Datetime.datetime :=
match fmts with
| [] => Raise ValueError
| fmt :: fmts' =>
    match Datetime.strptime datetime_str fmt with
    | Some t => Ok t
    | None => parse_datetime_from fmts' datetime_str
    end
end.

Definition parse_datetime (datetime_str : string) : result Datetime.datetime :=
parse_datetime_from boundary_formats datetime_str.

(** ** [main] *)

(** The parsed command line. *)
Record Args : Type := MkArgs {
  input : string;
  output : string;
  severity : option string;
  start : option string;
  end_ : option string
}.

(** How a run ends: a usage error of the argument parser, or [main]'s
    return value. *)
Inductive outcome : Type :=
| UsageError
| Return (code : Z).

Definition severity_choices : list string :=
  ["TRACE"; "DEBUG"; "INFO"; "WARN"; "WARNING"; "ERROR"; "FATAL"; "CRITICAL"].

Section Main.
Import Text Datetime Fs LogSplitter.
Variable glob : store → string → list string.

(** The branch of [main] taken when a severity and both boundaries are
    given: the time-range pass into [temp], discovery of what it left there,
    the severity pass over that into [output], removal of [temp]. *)
Definition combined_filtering (log_files : list string) (min_severity : string)
    (start_time end_time : datetime) (output_dir : string) (st : store)
    : run :=
  let temp_dir := join output_dir "temp" in
  match split_by_timerange log_files start_time end_time temp_dir st with
  | Failed e st1 => Failed e st1
  | Done st1 =>
      match find_log_files glob temp_dir st1 with
      | Raise e => Failed e st1
      | Ok temp_files =>
          match split_by_severity temp_files min_severity output_dir st1 with
          | Failed e st2 => Failed e st2
          | Done st2 => rmtree temp_dir st2
          end
      end
  end.

(** The boundaries of the range, when both are given. *)
Definition parse_boundaries (args : Args)
    : result (option (datetime * datetime)) :=
  if truthy_opt (start args) && truthy_opt (end_ args) then
    match parse_datetime (default "" (start args)) with
    | Raise e => Raise e
    | Ok start_time =>
        match parse_datetime (default "" (end_ args)) with
        | Raise e => Raise e
        | Ok end_time => Ok (Some (start_time, end_time))
        end
    end
  else Ok None.

(** The filtering step of [main]. *)
Definition perform_filtering (args : Args) (log_files : list string)
    (range : option (datetime * datetime)) (st : store) : run :=
  match range with
  | Some (start_time, end_time) =>
      if truthy_opt (severity args) then
        combined_filtering log_files (default "" (severity args))
                           start_time end_time (output args) st
      else split_by_timerange log_files start_time end_time (output args) st
  | None =>
      if truthy_opt (severity args) then
        split_by_severity log_files (default "" (severity args)) (output args) st
      else Done st
  end.

Definition valid_choice (args : Args) : bool :=
  match severity args with
  | Some s => bool_decide (s ∈ severity_choices)
  | None => true
  end.

(** [main]: the outcome and the store it leaves.  An exception is caught at
    the top and turns into the return value 1. *)
Definition main (args : Args) (st : store) : outcome * store :=
  if negb (valid_choice args) then (UsageError, st)
  else if negb (truthy_opt (severity args))
          && negb (truthy_opt (start args) && truthy_opt (end_ args))
  then (UsageError, st)
  else if truthy_opt (start args) && negb (truthy_opt (end_ args))
  then (UsageError, st)
  else if truthy_opt (end_ args) && negb (truthy_opt (start args))
  then (UsageError, st)
  else
    match find_log_files glob (input args) st with
    | Raise _ => (Return 1, st)
    | Ok [] => (Return 1, st)
    | Ok log_files =>
        match parse_boundaries args with
        | Raise _ => (Return 1, st)
        | Ok range =>
            if match range with
               | Some (start_time, end_time) => ge start_time end_time
               | None => false
               end
            then (Return 1, st)
            else
              match perform_filtering args log_files range st with
              | Done st' => (Return 0, st')
              | Failed _ st' => (Return 1, st')
              end
        end
    end.

End Main.

(* ===================================================================== *)
(** ** The specification's notions *)
(* ===================================================================== *)

Module Spec.
Import Text Re Datetime Fs LogSplitter.

(** The first element of [l] on which [f] succeeds, with its result. *)
Fixpoint first_some {A B : Type} (f : A → option B) (l : list A) : option B :=
  match l with
  | [] => None
  | x :: l' =>
      match f x with
      | Some y => Some y
      | None => first_some f l'
      end
  end.

(** §4.3: a line passes the range filter when it has an extractable
    timestamp [t] with [start_time <= t <= end_time]. *)
Definition in_timerange (start_time end_time : datetime) (line : string) : Prop :=
  ∃ t, extract_timestamp line = Some t
       ∧ le start_time t = true ∧ le t end_time = true.

Definition in_timerangeb (start_time end_time : datetime) (line : string) : bool :=
  match extract_timestamp line with
  | Some t => le start_time t && le t end_time
  | None => false
  end.

(** The rank of an extracted severity, and DEBUG's rank. *)
Definition rank (sev : string) : Z := get sev 0.
Definition debug_rank : Z := rank "DEBUG".

(** §4.2: a line passes the severity filter when its severity is present
    with a rank at least the minimum, or absent while the minimum is at most
    DEBUG's rank. *)
Definition passes_severity (min_rank : Z) (line : string) : Prop :=
  (∃ sev, extract_severity line = Some sev ∧ (min_rank <= rank sev)%Z)
  ∨ (extract_severity line = None ∧ (min_rank <= debug_rank)%Z).

Definition passes_severityb (min_rank : Z) (line : string) : bool :=
  match extract_severity line with
  | Some sev => (min_rank <=? rank sev)%Z
  | None => (min_rank <=? debug_rank)%Z
  end.

(** What one pattern contributes to [extract_timestamp]: the parse of the
    text of its leftmost match. *)
Definition pattern_parse (line : string) (pattern : regex) : option datetime :=
  match re_search false pattern line with
  | Some m => try_formats (default "" (group m "1")) formats
  | None => None
  end.


(** *** Occurrences of a severity token *)

(** Whether [s] starts with [tok]; up to case when [ignorecase]. *)
Fixpoint prefix_eq (ignorecase : bool) (tok s : string) : bool :=
  match tok, s with
  | EmptyString, _ => true
  | String c tok', String d s' => char_eq ignorecase c d && prefix_eq ignorecase tok' s'
  | String _ _, EmptyString => false
  end.

(** The last character of [t], or [dflt] when [t] is empty. *)
Fixpoint last_char (dflt : option ascii) (t : string) : option ascii :=
  match t with
  | EmptyString => dflt
  | String c t' => last_char (Some c) t'
  end.

(** The matcher's position at index [i] of [s], when the text before [s]
    ends with [before]. *)
Definition state_at (before : option ascii) (s : string) (i : nat) : mstate :=
  MState (last_char before (take i s)) (drop i s) [].

Definition tokens : list string := severity_choices.

(** The character of [line] just before index [i]. *)
Definition char_before (line : string) (i : nat) : option ascii :=
  last_char None (take i line).

(** [tok] stands in [line] at index [i], in any case, as a whole word: the
    text there equals [tok] up to case, and neither the character before it
    nor the one after it is a word character. *)
Definition occurs_at (tok line : string) (i : nat) : bool :=
  (i <=? String.length line)%nat
  && String.eqb (lower (take (String.length tok) (drop i line))) (lower tok)
  && negb (is_word_opt (char_before line i))
  && negb (is_word_opt (next_char (drop (i + String.length tok) line))).

(** [tok] stands at the start of [s], in any case, as a whole word, when
    [before] is the character in front of [s]. *)
Definition word_at (tok : string) (before : option ascii) (s : string) : bool :=
  negb (is_word_opt before)
  && prefix_eq true tok s
  && negb (is_word_opt (next_char (drop (String.length tok) s))).

(** The match of the severity pattern that reads [tok] at [st]. *)
Definition token_match (tok : string) (st : mstate) : string * mstate :=
  let t := take (String.length tok) (rest st) in
  (t, MState (last_char (prev st) t) (drop (String.length tok) (rest st))
             (("1", t) :: groups st)).

(** A non-empty text of capital ASCII letters. *)
Definition capitals (tok : string) : bool :=
  truthy tok && forallb is_ascii_upper (list_ascii_of_string tok).

(** The length of the longest prefix of [s] made of word characters. *)
Fixpoint word_run (s : string) : nat :=
  match s with
  | String c s' => if is_word c then S (word_run s') else 0
  | EmptyString => 0
  end.

(** *** The value written in a timestamp *)

(** The number a text of decimal digits writes. *)
Fixpoint number_from (acc : Z) (s : string) : Z :=
  match s with
  | EmptyString => acc
  | String c s' => number_from (10 * acc + digit_value c) s'
  end.

Definition number (s : string) : Z := number_from 0 s.


Definition two (a b : ascii) : string := String a (String b "").
Definition four (a b c d : ascii) : string :=
  String a (String b (String c (String d ""))).

Definition val2 (a b : ascii) : Z := 10 * digit_value a + digit_value b.
Definition val4 (a b c d : ascii) : Z :=
  1000 * digit_value a + 100 * digit_value b + 10 * digit_value c
  + digit_value d.

(** The regular expression of a directive of the model. *)
Definition re_of (c : ascii) : regex := default Eps (directive c).

(** The separator of the dates of pattern [k]. *)
Definition sep_of (k : nat) : ascii :=
  match k with 0%nat => "-"%char | _ => "/"%char end.

(** The text of a timestamp in the layout of pattern [k]: its date, then
    [tail]. *)
Definition stamp_text (k : nat) (y1 y2 y3 y4 m1 m2 d1 d2 : ascii)
    (tail : string) : string :=
  match k with
  | 2%nat =>
      String m1 (String m2 (String "/" (String d1 (String d2 (String "/"
        (String y1 (String y2 (String y3 (String y4 tail)))))))))
  | _ =>
      String y1 (String y2 (String y3 (String y4 (String (sep_of k)
        (String m1 (String m2 (String (sep_of k)
          (String d1 (String d2 tail)))))))))
  end.

(** The clock of a timestamp after the white space [ws], with the
    fraction [frac] (empty, or a dot and three digits). *)
Definition clock_text (ws : string) (h1 h2 mi1 mi2 s1 s2 : ascii) (frac : string)
    : string :=
  ws +:+ String h1 (String h2 (String ":" (String mi1 (String mi2 (String ":"
           (String s1 (String s2 frac))))))).

(** The groups a date in the layout of pattern [k] leaves (latest first). *)
Definition date_groups (k : nat) (y1 y2 y3 y4 m1 m2 d1 d2 : ascii)
    : list (string * string) :=
  match k with
  | 2%nat => [("Y", four y1 y2 y3 y4); ("d", two d1 d2); ("m", two m1 m2)]
  | _ => [("d", two d1 d2); ("m", two m1 m2); ("Y", four y1 y2 y3 y4)]
  end.

(** The last character of a date in the layout of pattern [k]. *)
Definition date_last (k : nat) (y4 d2 : ascii) : ascii :=
  match k with 2%nat => y4 | _ => d2 end.

Definition all_digits (s : string) : bool :=
  forallb is_digit (list_ascii_of_string s).

Definition all_spaces (s : string) : bool :=
  forallb is_space (list_ascii_of_string s).

(** The two-digit and the one-digit texts a directive accepts. *)
Definition valid2 (d a b : ascii) : bool :=
  if Ascii.eqb d "m" then between 1 (val2 a b) 12
  else if Ascii.eqb d "d" then between 1 (val2 a b) 31
  else if Ascii.eqb d "H" then between 0 (val2 a b) 23
  else if Ascii.eqb d "M" then between 0 (val2 a b) 59
  else between 0 (val2 a b) 61.

Definition valid1 (d a : ascii) : bool :=
  if Ascii.eqb d "m" || Ascii.eqb d "d" then between 1 (digit_value a) 9
  else true.

Definition two_digit_directives : list ascii :=
  ["m"; "d"; "H"; "M"; "S"]%char.

Definition decimal_digits : list ascii :=
  ["0"; "1"; "2"; "3"; "4"; "5"; "6"; "7"; "8"; "9"]%char.

(** A regular expression that matches nowhere before a digit, and one that
    matches nowhere before white space. *)
Definition rejects_digit (r : regex) : Prop :=
  ∀ pv c s g, is_digit c = true → rmatch true r (MState pv (String c s) g) = [].

Definition rejects_space (r : regex) : Prop :=
  ∀ pv c s g, is_space c = true → rmatch true r (MState pv (String c s) g) = [].

(** The regular expressions of the six formats of [extract_timestamp]: a
    date in the layout of pattern [k], then the clock, with a fraction or
    without. *)
Definition date_re (k : nat) (r : regex) : regex :=
  match k with
  | 2%nat =>
      Seq (re_of "m") (Seq (Lit "/") (Seq (re_of "d") (Seq (Lit "/")
          (Seq (re_of "Y") r))))
  | _ =>
      Seq (re_of "Y") (Seq (Lit (sep_of k)) (Seq (re_of "m")
          (Seq (Lit (sep_of k)) (Seq (re_of "d") r))))
  end.

Definition fraction_re (frac : bool) : regex :=
  if frac then Seq (Lit ".") (Seq (re_of "f") Eps) else Eps.

Definition clock_re (frac : bool) : regex :=
  Seq (Plus is_space) (Seq (re_of "H") (Seq (Lit ":") (Seq (re_of "M")
      (Seq (Lit ":") (Seq (re_of "S") (fraction_re frac)))))).

Definition format_of (k : nat) (frac : bool) : string :=
  match k, frac with
  | 0%nat, true => "%Y-%m-%d %H:%M:%S.%f"
  | 0%nat, false => "%Y-%m-%d %H:%M:%S"
  | 1%nat, true => "%Y/%m/%d %H:%M:%S.%f"
  | 1%nat, false => "%Y/%m/%d %H:%M:%S"
  | _, true => "%m/%d/%Y %H:%M:%S.%f"
  | _, false => "%m/%d/%Y %H:%M:%S"
  end.

(** The fraction of a timestamp: nothing, or a dot and three digits. *)
Definition frac_text (f : option (ascii * ascii * ascii)) : string :=
  match f with
  | None => ""
  | Some (a, b, c) => String "." (String a (String b (String c "")))
  end.

Definition frac_digits (f : option (ascii * ascii * ascii)) : bool :=
  match f with
  | None => true
  | Some (a, b, c) => is_digit a && is_digit b && is_digit c
  end.

Definition frac_value (f : option (ascii * ascii * ascii)) : Z :=
  match f with
  | None => 0
  | Some (a, b, c) =>
      (100 * digit_value a + 10 * digit_value b + digit_value c) * 1000
  end.

(** The position the matcher finds first, if any. *)
Definition head_state (l : list (string * mstate)) : option mstate :=
  option_map snd (hd_error l).

(** The groups of the clock (latest first) on top of [g]. *)
Definition clock_groups (h1 h2 mi1 mi2 s1 s2 : ascii)
    (g : list (string * string)) : list (string * string) :=
  ("S", two s1 s2) :: ("M", two mi1 mi2) :: ("H", two h1 h2) :: g.

(** The fields of a parse, from the groups of the match. *)
Definition fields_of (g : list (string * string)) : option datetime :=
  match field g "Y" 1900, field g "m" 1, field g "d" 1,
        field g "H" 0, field g "M" 0, field g "S" 0, fraction g with
  | Some y, Some m, Some d, Some h, Some mi, Some s, Some us =>
      make y m d h mi s us
  | _, _, _, _, _, _, _ => None
  end.

(** The date-time the digits of a timestamp write. *)
Definition stamp_value (y1 y2 y3 y4 m1 m2 d1 d2 h1 h2 mi1 mi2 s1 s2 : ascii)
    (f : option (ascii * ascii * ascii)) : option datetime :=
  make (val4 y1 y2 y3 y4) (val2 m1 m2) (val2 d1 d2)
       (val2 h1 h2) (val2 mi1 mi2) (val2 s1 s2) (frac_value f).

(** *** Runs over a list of files *)

(** Whether [p] can be opened for writing. *)
Definition writable (st : store) (p : string) : bool :=
  truthy (basename p) && negb (isdir st p)
  && (negb (truthy (parent p)) || isdir st (parent p)).

(** The loop over the files that both filters share: [body] filters the
    lines and [out] names the output of a file. *)
Definition filter_files (body : pass → string → pass) (out : string → string)
    (log_files : list string) (st : store) : store :=
  foldl (λ st log_file, filter_file body log_file (out log_file) st)
        st log_files.

(** What a pass writes from the text of its input. *)
Definition filtered (body : pass → string → pass) (text : string) : string :=
  text_of (outfile (foldl body start_pass (readlines text))).

(** *** Paths *)

(** Whether the character [c] occurs in [s]. *)
Fixpoint contains (c : ascii) (s : string) : bool :=
  match s with
  | EmptyString => false
  | String d s' => Ascii.eqb d c || contains c s'
  end.

(** A file name: not empty, and without a separator. *)
Definition is_name (s : string) : bool := truthy s && negb (contains "/" s).

(** *** The naming convention of §6 *)

(** [YYYYMMDD_HHMMSS] of a date-time: four digits of year, two of month
    and of day, an underscore, two digits of hour, of minute and of
    second. *)
Definition padded_stamp (t : datetime) : string :=
  decimal 4 (year t) +:+ decimal 2 (month t) +:+ decimal 2 (day t) +:+ "_"
  +:+ decimal 2 (hour t) +:+ decimal 2 (minute t) +:+ decimal 2 (second t).

(** The stamp of a date-time in the name of an output: as
    [padded_stamp], but with the year written without leading zeros. *)
Definition stamp (t : datetime) : string :=
  digits 4 (year t) +:+ decimal 2 (month t) +:+ decimal 2 (day t) +:+ "_"
  +:+ decimal 2 (hour t) +:+ decimal 2 (minute t) +:+ decimal 2 (second t).

(** [{input_base_name}_severity_{severity_lower}_and_above.log] *)
Definition severity_name (input_base_name min_severity : string) : string :=
  input_base_name +:+ "_severity_" +:+ lower min_severity +:+ "_and_above.log".

(** [{input_base_name}_timerange_{start}_to_{end}.log] *)
Definition timerange_name (input_base_name : string)
    (start_time end_time : datetime) : string :=
  input_base_name +:+ "_timerange_" +:+ stamp start_time +:+ "_to_"
  +:+ stamp end_time +:+ ".log".

(** *** Lines *)

(** A text without a line end in it. *)
Definition plain (b : string) : bool :=
  negb (contains LF b) && negb (contains CR b).

(** The lines of a text file as they are read: each ends with its line
    feed, but the last, which may lack one and is then not empty. *)
Inductive lines_ok : list string → Prop :=
| lines_nil : lines_ok []
| lines_last (b : string) :
    plain b = true → truthy b = true → lines_ok [b]
| lines_cons (b : string) (ls : list string) :
    plain b = true → lines_ok ls → lines_ok ((b +:+ String LF "") :: ls).

(** *** Combined filtering (§4.4) *)

(** The time-range filter over the lines of the input, then the severity
    filter over the lines that it let through. *)
Definition time_then_severity (start_time end_time : datetime) (min_rank : Z)
    (lines : list string) : list string :=
  List.filter (passes_severityb min_rank)
              (List.filter (in_timerangeb start_time end_time) lines).

(** The reverse order, and both tests on a line in one pass. *)
Definition severity_then_time (start_time end_time : datetime) (min_rank : Z)
    (lines : list string) : list string :=
  List.filter (in_timerangeb start_time end_time)
              (List.filter (passes_severityb min_rank) lines).

Definition joint_filter (start_time end_time : datetime) (min_rank : Z)
    (lines : list string) : list string :=
  List.filter (λ line, in_timerangeb start_time end_time line
                       && passes_severityb min_rank line) lines.

(** The scratch directory of a combined run, the scratch file of an input
    file and its final output. *)
Definition scratch (output_dir : string) : string := join output_dir "temp".

Definition scratch_output (output_dir : string) (start_time end_time : datetime)
    (log_file : string) : string :=
  timerange_output (scratch output_dir) start_time end_time log_file.

Definition combined_output (output_dir min_severity : string)
    (start_time end_time : datetime) (log_file : string) : string :=
  severity_output output_dir min_severity
    (scratch_output output_dir start_time end_time log_file).

(** What [find_log_files] returns for a directory [d]. *)
Definition found (glob : store → string → list string) (d : string)
    (st : store) : list string :=
  flat_map (λ ext, glob st (join (join d "**") ext)) extensions.

(** What is taken of [glob] below a directory [d]: what it finds is there,
    below [d], and it finds the regular files of [d] with a name that ends
    in [.log] and does not start with a dot.  [glob.glob] is so for a
    directory whose path holds none of the characters [*], [?] and [[],
    which it reads as wildcards; for a path that holds one it is not, and
    a statement that assumes [discovers] says nothing of such a
    directory. *)
Definition discovers (glob : store → string → list string) (d : string)
    : Prop :=
  ∀ st,
    (∀ q : string, q ∈ found glob d st →
       under d q = true ∧ (isfile st q = true ∨ isdir st q = true))
    ∧ (∀ name : string,
         is_name name = true → startswith "." name = false →
         endswith ".log" name = true → isfile st (join d name) = true →
         join d name ∈ found glob d st).

(** A [glob] of that kind: the regular files below [d] whose path ends in
    [.log] and whose last component does not start with a dot. *)
Definition listing (d : string) (st : store) (pattern : string) : list string :=
  if String.eqb pattern (join (join d "**") "*.log")
  then List.filter (λ q, under d q && endswith ".log" q
                         && negb (startswith "." (basename q)))
                   (elements (dom (files st) : gset string))
  else [].

(** A log of three lines, and a store that holds it. *)
Definition sample_log : string :=
  "2025-06-28 09:30:05 ERROR disk full" +:+ String LF
  ("2025-06-28 09:31:00 INFO ok" +:+ String LF
  ("2025-06-28 11:00:00 ERROR late" +:+ String LF "")).

Definition sample_store : store := MkStore {[ "app.log" := sample_log ]} ∅ [].

(** *** Boundaries of a range *)

(** What [parse_datetime] makes of a date-time that may be refused. *)
Definition parsed (o : option datetime) : result datetime :=
  match o with Some t => Ok t | None => Raise ValueError end.

(** The clock of a boundary written to the minute, after the white space
    [ws], and the regular expression of [" %H:%M"]. *)
Definition hm_text (ws : string) (h1 h2 mi1 mi2 : ascii) (tail : string)
    : string :=
  ws +:+ String h1 (String h2 (String ":" (String mi1 (String mi2 tail)))).

Definition hm_re : regex :=
  Seq (Plus is_space) (Seq (re_of "H") (Seq (Lit ":") (Seq (re_of "M") Eps))).

(** Every character of the model. *)
Definition all_ascii : list ascii := map ascii_of_nat (seq 0 256).

End Spec.

(* ===================================================================== *)
(** ** Loops that return at the first success *)
(* ===================================================================== *)

Import Text Re Datetime Fs LogSplitter Spec.

Lemma first_some_None {A B : Type} (f : A → option B) (l : list A) :
  first_some f l = None ↔ ∀ x, x ∈ l → f x = None.
Proof.
  induction l as [|x l IH]; simpl.
  - split; [intros _ x Hx; inversion Hx | done].
  - destruct (f x) eqn:Hfx.
    + split; [done |]. intros H. specialize (H x (list_elem_of_here x l)). congruence.
    + rewrite IH. split.
      * intros H y Hy. apply elem_of_cons in Hy as [-> | Hy]; auto.
      * intros H y Hy. apply H. by apply list_elem_of_further.
Qed.

Lemma first_some_Some {A B : Type} (f : A → option B) (l : list A) (y : B) :
  first_some f l = Some y ↔
  ∃ i x, l !! i = Some x ∧ f x = Some y
         ∧ ∀ j x', j < i → l !! j = Some x' → f x' = None.
Proof.
  induction l as [|x l IH]; simpl.
  - split; [done |]. intros (i & x & Hi & _). by rewrite lookup_nil in Hi.
  - destruct (f x) eqn:Hfx.
    + split.
      * intros [= ->]. exists 0, x. repeat split; [done |]. intros j x' Hj. lia.
      * intros (i & x' & Hi & Hy & Hbefore). destruct i as [|i].
        -- simpl in Hi. congruence.
        -- specialize (Hbefore 0 x ltac:(lia) eq_refl). congruence.
    + rewrite IH. split.
      * intros (i & x' & Hi & Hy & Hbefore). exists (S i), x'.
        repeat split; [done | done |]. intros [|j] x'' Hj Hl.
        -- simpl in Hl. congruence.
        -- apply (Hbefore j); [lia | done].
      * intros (i & x' & Hi & Hy & Hbefore). destruct i as [|i].
        -- simpl in Hi. congruence.
        -- exists i, x'. repeat split; [done | done |].
           intros j x'' Hj Hl. apply (Hbefore (S j)); [lia | done].
Qed.

Lemma try_formats_first_some (s : string) (fmts : list string) :
  try_formats s fmts = first_some (strptime s) fmts.
Proof.
  induction fmts as [|fmt fmts IH]; simpl; [done |].
  destruct (strptime s fmt); [done | apply IH].
Qed.

Lemma extract_timestamp_from_first_some (patterns : list regex) (line : string) :
  extract_timestamp_from patterns line = first_some (pattern_parse line) patterns.
Proof.
  induction patterns as [|pattern patterns IH];
    cbn [extract_timestamp_from first_some]; [done |].
  unfold pattern_parse at 1.
  destruct (re_search false pattern line) as [m|]; [| apply IH].
  destruct (try_formats _ formats); [done | apply IH].
Qed.

Lemma parse_datetime_from_first_some (fmts : list string) (s : string) :
  parse_datetime_from fmts s =
  match first_some (strptime s) fmts with
  | Some t => Ok t
  | None => Raise ValueError
  end.
Proof.
  induction fmts as [|fmt fmts IH]; simpl; [done |].
  destruct (strptime s fmt); [done | apply IH].
Qed.

(* ===================================================================== *)
(** ** Characters and strings *)
(* ===================================================================== *)

(** Split a conjunction into its parts, and nothing else. *)
Ltac splits := repeat match goal with |- _ ∧ _ => split end.

Lemma all_ascii_complete (c : ascii) : In c all_ascii.
Proof.
  unfold all_ascii. rewrite <- (ascii_nat_embedding c).
  apply in_map, in_seq. pose proof (nat_ascii_bounded c). lia.
Qed.

(** A property of characters that holds on each of the 256 holds of all. *)
Lemma ascii_forall (P : ascii → bool) :
  forallb P all_ascii = true → ∀ c, P c = true.
Proof.
  intros H c. rewrite forallb_forall in H. apply H, all_ascii_complete.
Qed.

Lemma ascii_forall2 (P : ascii → ascii → bool) :
  forallb (λ c, forallb (P c) all_ascii) all_ascii = true → ∀ c d, P c d = true.
Proof.
  intros H c d. apply (ascii_forall (P c)). revert c. by apply ascii_forall.
Qed.

Ltac by_ascii_cases :=
  match goal with
  | |- ∀ c d : ascii, _ = true => apply ascii_forall2; vm_compute; reflexivity
  | |- ∀ c : ascii, _ = true => apply ascii_forall; vm_compute; reflexivity
  end.

Lemma digit_not_space_b : ∀ c, implb (is_digit c) (negb (is_space c)) = true.
Proof. by_ascii_cases. Qed.

Lemma digit_not_space (c : ascii) : is_digit c = true → is_space c = false.
Proof.
  intros H. pose proof (digit_not_space_b c) as Hc. rewrite H in Hc.
  simpl in Hc. by apply negb_true_iff.
Qed.

Lemma string_app_cons (c : ascii) (s t : string) :
  String c s +:+ t = String c (s +:+ t).
Proof. reflexivity. Qed.

Lemma string_app_nil_l (t : string) : "" +:+ t = t.
Proof. reflexivity. Qed.

Lemma string_app_length (s t : string) :
  String.length (s +:+ t) = String.length s + String.length t.
Proof. induction s as [|c s IH]; simpl; [done | by rewrite IH]. Qed.

Lemma string_app_nil_r (s : string) : s +:+ "" = s.
Proof.
  induction s as [|c s IH]; [done |]. by rewrite string_app_cons, IH.
Qed.

Lemma string_app_assoc (s t u : string) : (s +:+ t) +:+ u = s +:+ (t +:+ u).
Proof.
  induction s as [|c s IH]; [done |]. by rewrite !string_app_cons, IH.
Qed.

Lemma take_drop (n : nat) (s : string) : take n s +:+ drop n s = s.
Proof.
  revert s; induction n as [|n IH]; intros [|c s]; simpl; try done.
  rewrite ?string_app_cons. by rewrite IH.
Qed.

Lemma take_app (s t : string) : take (String.length s) (s +:+ t) = s.
Proof.
  induction s as [|c s IH]; simpl; [by destruct t |].
  rewrite ?string_app_cons. by rewrite IH.
Qed.

Lemma drop_app (s t : string) : drop (String.length s) (s +:+ t) = t.
Proof. induction s as [|c s IH]; simpl; [by destruct t | done]. Qed.

Lemma take_length_le (n : nat) (s : string) :
  (n ≤ String.length s)%nat → String.length (take n s) = n.
Proof.
  revert s; induction n as [|n IH]; intros [|c s] H; simpl in *; try done; try lia.
  rewrite IH; [done | lia].
Qed.

Lemma drop_length (n : nat) (s : string) :
  String.length (drop n s) = String.length s - n.
Proof.
  revert s; induction n as [|n IH]; intros [|c s]; simpl; try done.
Qed.

Lemma drop_drop (n m : nat) (s : string) : drop n (drop m s) = drop (m + n) s.
Proof.
  revert s; induction m as [|m IH]; intros s; simpl; [done |].
  destruct s as [|c s]; [by destruct n | apply IH].
Qed.

Lemma drop_all (n : nat) (s : string) :
  (String.length s ≤ n)%nat → drop n s = "".
Proof.
  revert s; induction n as [|n IH]; intros [|c s] H; simpl in *; try done; try lia.
  apply IH. lia.
Qed.

Lemma lower_length (s : string) : String.length (lower s) = String.length s.
Proof. induction s as [|c s IH]; simpl; [done | by rewrite IH]. Qed.

Lemma lower_app (s t : string) : lower (s +:+ t) = lower s +:+ lower t.
Proof.
  induction s as [|c s IH]; [done |].
  rewrite string_app_cons. simpl. rewrite ?string_app_cons. by rewrite IH.
Qed.

Lemma string_eqb_eq (s t : string) : String.eqb s t = true ↔ s = t.
Proof. apply String.eqb_eq. Qed.

Lemma truthy_length (s : string) :
  truthy s = true ↔ (0 < String.length s)%nat.
Proof. destruct s; simpl; split; (done || lia). Qed.

(* ===================================================================== *)
(** ** The matcher *)
(* ===================================================================== *)

Lemma rmatch_lit (ic : bool) (tok : string) (st : mstate) :
  rmatch ic (lit tok) st =
  if prefix_eq ic tok (rest st)
  then [(take (String.length tok) (rest st),
         MState (last_char (prev st) (take (String.length tok) (rest st)))
                (drop (String.length tok) (rest st)) (groups st))]
  else [].
Proof.
  revert st; induction tok as [|c tok IH]; intros [pv s g]; simpl.
  - done.
  - unfold step_char; simpl. destruct s as [|d s]; simpl; [done |].
    destruct (char_eq ic c d); simpl; [| done].
    rewrite IH; simpl. by destruct (prefix_eq ic tok s).
Qed.

Lemma state_at_0 (before : option ascii) (s : string) :
  state_at before s 0 = MState before s [].
Proof. reflexivity. Qed.

Lemma state_at_S (before : option ascii) (c : ascii) (s : string) (j : nat) :
  state_at before (String c s) (S j) = state_at (Some c) s j.
Proof. reflexivity. Qed.

(** [search] returns the first match of the leftmost position that has
    one. *)
Lemma search_from_found (ic : bool) (r : regex) (s : string) :
  ∀ before pos k m l,
    (k ≤ String.length s)%nat →
    (∀ j, (j < k)%nat → rmatch ic r (state_at before s j) = []) →
    rmatch ic r (state_at before s k) = m :: l →
    search_from ic r before s pos = Some (MkMatch (pos + k) m.1 (groups m.2)).
Proof.
  induction s as [|c s IH]; intros before pos k m l Hk Hnone Hsome.
  - assert (k = 0)%nat as -> by (simpl in Hk; lia).
    rewrite state_at_0 in Hsome. simpl. unfold first_match. rewrite Hsome.
    by rewrite Nat.add_0_r.
  - destruct k as [|k].
    + rewrite state_at_0 in Hsome. simpl. unfold first_match. rewrite Hsome.
      by rewrite Nat.add_0_r.
    + simpl. unfold first_match.
      pose proof (Hnone 0%nat ltac:(lia)) as H0. rewrite state_at_0 in H0.
      rewrite H0. rewrite (IH (Some c) (S pos) k m l).
      * f_equal; f_equal; lia.
      * simpl in Hk. lia.
      * intros j Hj. rewrite <- (state_at_S before). apply Hnone. lia.
      * by rewrite <- (state_at_S before).
Qed.

Lemma search_from_none (ic : bool) (r : regex) (s : string) :
  ∀ before pos,
    (∀ j, (j ≤ String.length s)%nat → rmatch ic r (state_at before s j) = []) →
    search_from ic r before s pos = None.
Proof.
  induction s as [|c s IH]; intros before pos Hnone.
  - simpl. unfold first_match.
    pose proof (Hnone 0%nat ltac:(simpl; lia)) as H0. rewrite state_at_0 in H0.
    by rewrite H0.
  - simpl. unfold first_match.
    pose proof (Hnone 0%nat ltac:(simpl; lia)) as H0. rewrite state_at_0 in H0.
    rewrite H0. apply IH. intros j Hj. rewrite <- (state_at_S before). apply Hnone.
    simpl. lia.
Qed.

Lemma search_from_inv (ic : bool) (r : regex) (s : string) :
  ∀ before pos found,
    search_from ic r before s pos = Some found →
    ∃ k m l,
      (k ≤ String.length s)%nat
      ∧ (∀ j, (j < k)%nat → rmatch ic r (state_at before s j) = [])
      ∧ rmatch ic r (state_at before s k) = m :: l
      ∧ found = MkMatch (pos + k) m.1 (groups m.2).
Proof.
  induction s as [|c s IH]; intros before pos found; simpl; unfold first_match.
  - destruct (rmatch ic r (MState before "" [])) as [|m l] eqn:Hm; [done |].
    intros [= <-]. exists 0%nat, m, l. rewrite state_at_0, Nat.add_0_r.
    splits; [simpl; lia | intros j; lia | done | done].
  - destruct (rmatch ic r (MState before (String c s) [])) as [|m l] eqn:Hm.
    + intros H. apply IH in H as (k & m & l & Hk & Hnone & Hsome & ->).
      exists (S k), m, l. splits.
      * simpl; lia.
      * intros [|j] Hj; [by rewrite state_at_0 |].
        rewrite state_at_S. apply Hnone. lia.
      * by rewrite state_at_S.
      * f_equal. lia.
    + intros [= <-]. exists 0%nat, m, l. rewrite state_at_0, Nat.add_0_r.
      splits; [simpl; lia | intros j; lia | done | done].
Qed.

(** *** Reading a match backwards *)

Lemma in_step_char (ok : ascii → bool) (st : mstate) (t : string) (st' : mstate) :
  In (t, st') (step_char ok st) ↔
  ∃ d s', rest st = String d s' ∧ ok d = true
          ∧ t = String d "" ∧ st' = MState (Some d) s' (groups st).
Proof.
  unfold step_char. destruct (rest st) as [|d s'].
  - split; [done |]. by intros (? & ? & ? & _).
  - destruct (ok d) eqn:Hd; simpl.
    + split.
      * intros [[= <- <-] | []]. by exists d, s'.
      * intros (d' & s'' & [= <- <-] & _ & -> & ->). by left.
    + split; [done |]. intros (d' & s'' & [= <- <-] & Hd' & _). congruence.
Qed.

Lemma in_rmatch_Seq (ic : bool) (r1 r2 : regex) (st : mstate) (t : string)
    (st' : mstate) :
  In (t, st') (rmatch ic (Seq r1 r2) st) ↔
  ∃ t1 st1 t2, In (t1, st1) (rmatch ic r1 st)
               ∧ In (t2, st') (rmatch ic r2 st1) ∧ t = t1 +:+ t2.
Proof.
  simpl. rewrite in_flat_map. split.
  - intros ([t1 st1] & H1 & H2). apply in_map_iff in H2 as ([t2 st2] & Heq & H2).
    unfold prepend in Heq; simpl in Heq. injection Heq as <- <-.
    by exists t1, st1, t2.
  - intros (t1 & st1 & t2 & H1 & H2 & ->). exists (t1, st1). split; [done |].
    apply in_map_iff. by exists (t2, st').
Qed.

Lemma in_rmatch_Group (ic : bool) (name : string) (r : regex) (st : mstate)
    (t : string) (st' : mstate) :
  In (t, st') (rmatch ic (Group name r) st) ↔
  ∃ st1, In (t, st1) (rmatch ic r st)
         ∧ st' = MState (prev st1) (rest st1) ((name, t) :: groups st1).
Proof.
  simpl. rewrite in_map_iff. split.
  - intros ([t1 st1] & Heq & H1). unfold set_group in Heq; simpl in Heq.
    injection Heq as -> <-. by exists st1.
  - intros (st1 & H1 & ->). by exists (t, st1).
Qed.

Lemma in_rmatch_Opt (ic : bool) (r : regex) (st : mstate) (t : string)
    (st' : mstate) :
  In (t, st') (rmatch ic (Opt r) st) ↔
  In (t, st') (rmatch ic r st) ∨ (t = "" ∧ st' = st).
Proof.
  simpl. rewrite in_app_iff. simpl. split.
  - intros [H | [[= <- <-] | []]]; auto.
  - intros [H | [-> ->]]; auto.
Qed.

Lemma in_rmatch_Eps (ic : bool) (st : mstate) (t : string) (st' : mstate) :
  In (t, st') (rmatch ic Eps st) ↔ t = "" ∧ st' = st.
Proof.
  simpl. split; [intros [[= <- <-] | []]; auto | intros [-> ->]; auto].
Qed.

(** Every character of [t] passes [p]. *)
Lemma in_run_class (p : ascii → bool) (s : string) (g : list (string * string))
    (t : string) (st' : mstate) :
  In (t, st') (run_class p s g) →
  ∃ c t' s', t = String c t' ∧ s = t +:+ s'
             ∧ forallb p (list_ascii_of_string t) = true
             ∧ st' = MState (last_char None t) s' g.
Proof.
  revert t st'; induction s as [|d s IH]; intros t st'; simpl; [done |].
  destruct (p d) eqn:Hd; [| done].
  rewrite in_app_iff, in_map_iff. simpl. intros [([t1 st1] & Heq & H1) | [Heq | []]].
  - unfold cons_text in Heq; simpl in Heq. injection Heq as <- <-.
    apply IH in H1 as (c & t' & s' & -> & -> & Hall & ->).
    exists d, (String c t'), s'. splits; try done.
    simpl. rewrite Hd. simpl. apply Hall.
  - injection Heq as <- <-. exists d, "", s. splits; try done.
    simpl. by rewrite Hd.
Qed.

(* ===================================================================== *)
(** ** [extract_severity] *)
(* ===================================================================== *)

Lemma capital_ci_b :
  ∀ c d, implb (is_ascii_upper c && char_eq true c d)
               (is_word d && String.eqb (toupper d) (String c "")) = true.
Proof. by_ascii_cases. Qed.

Lemma capital_ci (c d : ascii) :
  is_ascii_upper c = true → char_eq true c d = true →
  is_word d = true ∧ toupper d = String c "".
Proof.
  intros Hc Hd. pose proof (capital_ci_b c d) as H. rewrite Hc, Hd in H.
  simpl in H. apply andb_prop in H as [H1 H2]. by apply String.eqb_eq in H2.
Qed.

Lemma prefix_eq_lower (tok s : string) :
  prefix_eq true tok s
  = String.eqb (lower (take (String.length tok) s)) (lower tok).
Proof.
  revert s; induction tok as [|c tok IH]; intros [|d s]; simpl; try done.
  rewrite IH. unfold char_eq. by rewrite (Ascii.eqb_sym (tolower c)).
Qed.

Lemma prefix_eq_length (ic : bool) (tok s : string) :
  prefix_eq ic tok s = true → (String.length tok ≤ String.length s)%nat.
Proof.
  revert s; induction tok as [|c tok IH]; intros [|d s]; simpl; try done; try lia.
  intros H. apply andb_prop in H as [_ H]. apply IH in H. lia.
Qed.

(** Where a token of capitals stands up to case, the text is made of word
    characters, and its upper-case form is the token. *)
Lemma prefix_eq_capitals (tok s : string) :
  forallb is_ascii_upper (list_ascii_of_string tok) = true →
  prefix_eq true tok s = true →
  upper (take (String.length tok) s) = tok
  ∧ forallb is_word (list_ascii_of_string (take (String.length tok) s)) = true.
Proof.
  revert s; induction tok as [|c tok IH]; intros [|d s]; simpl; try done.
  intros Hup Hpre. apply andb_prop in Hup as [Hc Hup].
  apply andb_prop in Hpre as [Hd Hpre].
  destruct (capital_ci c d Hc Hd) as [Hw Hu].
  destruct (IH s Hup Hpre) as [IH1 IH2].
  rewrite Hu, IH1, Hw, IH2. done.
Qed.

Lemma last_char_word (dflt : option ascii) (t : string) :
  truthy t = true →
  forallb is_word (list_ascii_of_string t) = true →
  is_word_opt (last_char dflt t) = true.
Proof.
  revert dflt; induction t as [|c t IH]; intros dflt; simpl; [done |].
  intros _ H. apply andb_prop in H as [Hc H].
  destruct t as [|c' t]; [done |]. by apply IH.
Qed.

Lemma word_run_exact (n : nat) (s : string) :
  (n ≤ String.length s)%nat →
  forallb is_word (list_ascii_of_string (take n s)) = true →
  is_word_opt (next_char (drop n s)) = false →
  word_run s = n.
Proof.
  revert s; induction n as [|n IH]; intros [|c s]; simpl; try done; try lia.
  - intros _ _ ->. done.
  - intros Hn H Hnext. apply andb_prop in H as [-> H]. f_equal.
    apply IH; [lia | done | done].
Qed.

Lemma take_truthy (n : nat) (s : string) :
  (0 < n)%nat → (n ≤ String.length s)%nat → truthy (take n s) = true.
Proof. destruct n, s; simpl; (done || lia). Qed.

Lemma capitals_inv (tok : string) :
  capitals tok = true →
  (0 < String.length tok)%nat
  ∧ forallb is_ascii_upper (list_ascii_of_string tok) = true.
Proof.
  unfold capitals. intros H. apply andb_prop in H as [H1 H2].
  by apply truthy_length in H1.
Qed.

(** A token that stands as a whole word covers exactly the run of word
    characters at that place. *)
Lemma word_at_run (tok : string) (before : option ascii) (s : string) :
  capitals tok = true → word_at tok before s = true →
  word_run s = String.length tok ∧ upper (take (word_run s) s) = tok.
Proof.
  intros Hcap H. apply capitals_inv in Hcap as [Hlen Hup].
  unfold word_at in H. apply andb_prop in H as [H Hafter].
  apply andb_prop in H as [_ Hpre]. apply negb_true_iff in Hafter.
  destruct (prefix_eq_capitals tok s Hup Hpre) as [Hu Hw].
  assert (word_run s = String.length tok) as ->; [| done].
  apply word_run_exact; [by eapply prefix_eq_length | done | done].
Qed.

Lemma word_at_unique (tok tok' : string) (before : option ascii) (s : string) :
  capitals tok = true → capitals tok' = true →
  word_at tok before s = true → word_at tok' before s = true → tok = tok'.
Proof.
  intros Hc Hc' H H'.
  destruct (word_at_run tok before s Hc H) as [_ <-].
  by destruct (word_at_run tok' before s Hc' H') as [_ <-].
Qed.

Lemma tokens_capitals (tok : string) : tok ∈ tokens → capitals tok = true.
Proof.
  unfold tokens, severity_choices. rewrite !elem_of_cons, elem_of_nil.
  intros H. repeat destruct H as [-> | H]; done.
Qed.

(** *** The pattern at one position *)

Lemma map_prepend_nil (l : list (string * mstate)) : map (prepend "") l = l.
Proof.
  induction l as [|[t st] l IH]; simpl; [done |]. by rewrite IH.
Qed.

Lemma rmatch_WordB_Seq (ic : bool) (r : regex) (st : mstate) :
  rmatch ic (Seq WordB r) st = if at_boundary st then rmatch ic r st else [].
Proof.
  simpl. destruct (at_boundary st); simpl; [| done].
  by rewrite app_nil_r, map_prepend_nil.
Qed.

Lemma rmatch_Group_Alt (ic : bool) (name : string) (r1 r2 r : regex) (st : mstate) :
  rmatch ic (Seq (Group name (Alt r1 r2)) r) st
  = (rmatch ic (Seq (Group name r1) r) st
     ++ rmatch ic (Seq (Group name r2) r) st)%list.
Proof. simpl. by rewrite map_app, flat_map_app. Qed.

Lemma rmatch_token (tok : string) (st : mstate) :
  capitals tok = true →
  rmatch true (Seq (Group "1" (lit tok)) (Seq WordB Eps)) st
  = if prefix_eq true tok (rest st)
       && negb (is_word_opt (next_char (drop (String.length tok) (rest st))))
    then [token_match tok st] else [].
Proof.
  intros Hcap. apply capitals_inv in Hcap as [Hlen Hup].
  cbn [rmatch]. rewrite rmatch_lit.
  destruct (prefix_eq true tok (rest st)) eqn:Hpre; simpl; [| done].
  destruct (prefix_eq_capitals tok (rest st) Hup Hpre) as [_ Hw].
  unfold at_boundary; simpl. rewrite last_char_word; [| | done].
  - simpl. destruct (is_word_opt (next_char _)); simpl; [done |].
    unfold token_match, prepend; simpl. by rewrite !string_app_nil_r.
  - apply take_truthy; [done | by eapply prefix_eq_length].
Qed.

Lemma prefix_eq_next_word (tok s : string) :
  capitals tok = true → prefix_eq true tok s = true →
  is_word_opt (next_char s) = true.
Proof.
  intros Hcap Hpre. apply capitals_inv in Hcap as [Hlen Hup].
  destruct tok as [|c tok]; [simpl in Hlen; lia |].
  destruct s as [|d s]; [done |]. simpl in *.
  apply andb_prop in Hup as [Hc _]. apply andb_prop in Hpre as [Hd _].
  by destruct (capital_ci c d Hc Hd).
Qed.

Lemma rmatch_token_word_at (tok : string) (st : mstate) :
  capitals tok = true →
  (if at_boundary st
   then rmatch true (Seq (Group "1" (lit tok)) (Seq WordB Eps)) st else [])
  = if word_at tok (prev st) (rest st) then [token_match tok st] else [].
Proof.
  intros Hcap. rewrite rmatch_token by done. unfold word_at, at_boundary.
  destruct (prefix_eq true tok (rest st)) eqn:Hpre.
  - rewrite (prefix_eq_next_word tok (rest st) Hcap Hpre).
    rewrite xorb_true_r, andb_true_r. simpl.
    by destruct (negb (is_word_opt (prev st))).
  - rewrite andb_false_r. simpl. by destruct (xorb _ _).
Qed.

(** The matches of the severity pattern at one position: one for each token
    that stands there as a whole word. *)
Lemma rmatch_severity (st : mstate) :
  rmatch true severity_pattern st
  = flat_map (λ tok, if word_at tok (prev st) (rest st)
                     then [token_match tok st] else [])
             tokens.
Proof.
  unfold severity_pattern. cbn [seqs]. rewrite rmatch_WordB_Seq.
  rewrite !rmatch_Group_Alt.
  unfold tokens, severity_choices. cbn [flat_map].
  rewrite <- !rmatch_token_word_at by done.
  destruct (at_boundary st); [by rewrite app_nil_r | done].
Qed.

Lemma flat_map_hit {A B : Type} (P : A → bool) (f : A → B) (l : list A) (a : A) :
  a ∈ l → P a = true → (∀ x, x ∈ l → P x = true → x = a) →
  ∃ l', flat_map (λ x, if P x then [f x] else []) l = f a :: l'.
Proof.
  induction l as [|x l IH]; intros Ha HPa Huniq; [by apply elem_of_nil in Ha |].
  simpl. destruct (P x) eqn:HPx.
  - rewrite (Huniq x (list_elem_of_here x l) HPx). simpl. eauto.
  - apply elem_of_cons in Ha as [-> | Ha]; [congruence |].
    simpl. apply IH; [done | done |]. intros y Hy. apply Huniq.
    by apply list_elem_of_further.
Qed.

Lemma flat_map_miss {A B : Type} (P : A → bool) (f : A → B) (l : list A) :
  (∀ x, x ∈ l → P x = false) →
  flat_map (λ x, if P x then [f x] else []) l = [].
Proof.
  induction l as [|x l IH]; intros H; simpl; [done |].
  rewrite (H x (list_elem_of_here x l)). simpl. apply IH.
  intros y Hy. apply H. by apply list_elem_of_further.
Qed.

Lemma occurs_at_word_at (tok line : string) (i : nat) :
  occurs_at tok line i
  = (i <=? String.length line)%nat
    && word_at tok (char_before line i) (drop i line).
Proof.
  unfold occurs_at, word_at. rewrite prefix_eq_lower, drop_drop.
  destruct (i <=? String.length line)%nat; simpl; [| done].
  destruct (String.eqb _ _); simpl;
    destruct (negb (is_word_opt (char_before line i))); done.
Qed.

Lemma rmatch_severity_at (line : string) (i : nat) :
  rmatch true severity_pattern (state_at None line i)
  = flat_map (λ tok, if word_at tok (char_before line i) (drop i line)
                     then [token_match tok (state_at None line i)] else [])
             tokens.
Proof. by rewrite rmatch_severity. Qed.

(** [extract_severity] at the leftmost place where a token stands. *)
Lemma extract_severity_found (line tok : string) (i : nat) :
  tok ∈ tokens → occurs_at tok line i = true →
  (∀ j tok', (j < i)%nat → tok' ∈ tokens → occurs_at tok' line j = false) →
  extract_severity line = Some (upper (take (String.length tok) (drop i line))).
Proof.
  intros Htok Hocc Hleft.
  rewrite occurs_at_word_at in Hocc. apply andb_prop in Hocc as [Hi Hocc].
  apply Nat.leb_le in Hi.
  destruct (flat_map_hit
              (λ tok, word_at tok (char_before line i) (drop i line))
              (λ tok, token_match tok (state_at None line i))
              tokens tok Htok Hocc) as [l Hl].
  { intros tok' Htok' Hocc'. symmetry.
    eapply word_at_unique; eauto using tokens_capitals. }
  unfold extract_severity, re_search.
  erewrite (search_from_found true severity_pattern line None 0%nat i); cycle 1.
  - done.
  - intros j Hj. rewrite rmatch_severity_at. apply flat_map_miss.
    intros tok' Htok'. pose proof (Hleft j tok' Hj Htok') as Hno.
    rewrite occurs_at_word_at in Hno.
    apply andb_false_iff in Hno as [Hno | Hno]; [| done].
    apply Nat.leb_gt in Hno. lia.
  - rewrite rmatch_severity_at. apply Hl.
  - unfold token_match, group; simpl. done.
Qed.

Lemma extract_severity_not_found (line : string) :
  (∀ i tok, tok ∈ tokens → occurs_at tok line i = false) →
  extract_severity line = None.
Proof.
  intros Hno. unfold extract_severity, re_search.
  rewrite search_from_none; [done |].
  intros j Hj. rewrite rmatch_severity_at. apply flat_map_miss.
  intros tok Htok. specialize (Hno j tok Htok).
  rewrite occurs_at_word_at in Hno.
  apply andb_false_iff in Hno as [Hno | Hno]; [| done].
  apply Nat.leb_gt in Hno. lia.
Qed.

(** X21. On a line of characters in U+0000..U+00FF: where one of the eight
    tokens stands in the line as a whole word, in any case,
    [extract_severity] returns the text of the leftmost such place in upper
    case, which is that token; where none does, it returns nothing.  The
    table gives the tokens the ranks 0, 1, 2, 3, 3, 4, 5 and 5: WARN and
    WARNING have the rank 3, FATAL and CRITICAL the rank 5. *)
Theorem extract_severity_leftmost_token (line : string) :
  (∀ i tok,
     tok ∈ tokens → occurs_at tok line i = true →
     (∀ j tok', (j < i)%nat → tok' ∈ tokens → occurs_at tok' line j = false) →
     extract_severity line = Some (upper (take (String.length tok) (drop i line)))
     ∧ upper (take (String.length tok) (drop i line)) = tok)
  ∧ ((∀ i tok, tok ∈ tokens → occurs_at tok line i = false) →
     extract_severity line = None)
  ∧ tokens = ["TRACE"; "DEBUG"; "INFO"; "WARN"; "WARNING"; "ERROR"; "FATAL";
              "CRITICAL"]
  ∧ map (λ tok, SEVERITY_LEVELS !! tok) tokens
    = [Some 0%Z; Some 1%Z; Some 2%Z; Some 3%Z; Some 3%Z; Some 4%Z; Some 5%Z;
       Some 5%Z].
Proof.
  splits.
  - intros i tok Htok Hocc Hleft. split.
    + by apply extract_severity_found.
    + rewrite occurs_at_word_at in Hocc. apply andb_prop in Hocc as [_ Hocc].
      eapply word_at_run in Hocc as [Hrun Hup]; [| by apply tokens_capitals].
      by rewrite <- Hrun.
  - apply extract_severity_not_found.
  - reflexivity.
  - reflexivity.
Qed.

Lemma extract_severity_leftmost_token_witness :
  extract_severity "2025-06-28 [Warning] disk error"
  = Some (upper (take (String.length "WARNING")
                      (drop 12 "2025-06-28 [Warning] disk error")))
  ∧ upper (take (String.length "WARNING")
                (drop 12 "2025-06-28 [Warning] disk error")) = "WARNING".
Proof.
  apply (proj1 (extract_severity_leftmost_token
                  "2025-06-28 [Warning] disk error") 12%nat "WARNING").
  - apply list_elem_of_In. simpl. auto 10.
  - vm_compute. reflexivity.
  - intros j tok' Hj Htok'.
    assert (forallb (λ j, forallb (λ tok', negb (occurs_at tok'
              "2025-06-28 [Warning] disk error" j)) tokens)
              (seq 0 12) = true) as Hall by (vm_compute; reflexivity).
    rewrite forallb_forall in Hall. specialize (Hall j).
    rewrite forallb_forall in Hall. apply negb_true_iff, Hall.
    + apply in_seq. lia.
    + by apply list_elem_of_In.
Defined.

(* ===================================================================== *)
(** ** The two passes over the lines of a file *)
(* ===================================================================== *)

(** What [extract_severity] returns is one of the eight tokens. *)
Lemma extract_severity_token (line sev : string) :
  extract_severity line = Some sev → sev ∈ tokens.
Proof.
  unfold extract_severity, re_search.
  destruct (search_from true severity_pattern None line 0) as [found|] eqn:Hs;
    [| done].
  intros [= <-].
  apply search_from_inv in Hs as (k & m & l & _ & _ & Hm & ->).
  rewrite rmatch_severity in Hm.
  assert (In m (flat_map
            (λ tok, if word_at tok (prev (state_at None line k))
                                   (rest (state_at None line k))
                    then [token_match tok (state_at None line k)] else [])
            tokens)) as Hin by (rewrite Hm; by left).
  apply in_flat_map in Hin as (tok & Htok & Hin).
  apply list_elem_of_In in Htok.
  destruct (word_at tok _ _) eqn:Hw; [| done].
  destruct Hin as [<- | []].
  eapply word_at_run in Hw as [Hrun Hup]; [| by apply tokens_capitals].
  rewrite Hrun in Hup. unfold group; simpl in *. by rewrite Hup.
Qed.

Lemma extract_severity_truthy (line sev : string) :
  extract_severity line = Some sev → truthy sev = true.
Proof.
  intros H. apply extract_severity_token, tokens_capitals in H.
  unfold capitals in H. by apply andb_prop in H as [H _].
Qed.

Lemma debug_rank_value : debug_rank = 1%Z.
Proof. reflexivity. Qed.

Lemma passes_severity_reflect (min_rank : Z) (line : string) :
  passes_severityb min_rank line = true ↔ passes_severity min_rank line.
Proof.
  unfold passes_severityb, passes_severity.
  destruct (extract_severity line) as [sev|]; rewrite Z.leb_le; split.
  - intros H. left. by exists sev.
  - intros [(sev' & [= <-] & H) | [? _]]; done.
  - intros H. by right.
  - intros [(sev' & ? & _) | [_ H]]; done.
Qed.

Lemma in_timerange_reflect (start_time end_time : datetime) (line : string) :
  in_timerangeb start_time end_time line = true
  ↔ in_timerange start_time end_time line.
Proof.
  unfold in_timerangeb, in_timerange.
  destruct (extract_timestamp line) as [t|]; split.
  - intros H. apply andb_prop in H as [H1 H2]. by exists t.
  - intros (t' & [= <-] & H1 & H2). by rewrite H1, H2.
  - done.
  - by intros (t' & ? & _).
Qed.

Lemma severity_body_spec (min_level : Z) (p : pass) (line : string) :
  severity_body min_level p line
  = if passes_severityb min_level line
    then write_line line (count_line p) else count_line p.
Proof.
  unfold severity_body, passes_severityb, rank.
  destruct (extract_severity line) as [sev|] eqn:Hsev; simpl.
  - rewrite (extract_severity_truthy line sev Hsev). simpl.
    rewrite Z.geb_leb. by destruct (min_level <=? get sev 0)%Z.
  - rewrite debug_rank_value. by destruct (min_level <=? 1)%Z.
Qed.

Lemma timerange_body_spec (start_time end_time : datetime) (p : pass)
    (line : string) :
  timerange_body start_time end_time p line
  = if in_timerangeb start_time end_time line
    then write_line line (count_line p) else count_line p.
Proof.
  unfold timerange_body, in_timerangeb.
  by destruct (extract_timestamp line).
Qed.

(** A loop whose body writes the lines that pass [keep] and counts them. *)
Lemma foldl_pass (body : pass → string → pass) (keep : string → bool) :
  (∀ p line, body p line
             = if keep line then write_line line (count_line p)
               else count_line p) →
  ∀ lines p,
    foldl body p lines
    = MkPass (outfile p ++ List.filter keep lines)
             (matched_lines p + length (List.filter keep lines))
             (total_lines p + length lines).
Proof.
  intros Hbody lines. induction lines as [|line lines IH]; intros p; simpl.
  - rewrite app_nil_r, !Nat.add_0_r. by destruct p.
  - rewrite IH, Hbody. destruct (keep line); simpl.
    + rewrite <- app_assoc. simpl. f_equal; lia.
    + f_equal; lia.
Qed.

Lemma foldl_pass_start (body : pass → string → pass) (keep : string → bool)
    (lines : list string) :
  (∀ p line, body p line
             = if keep line then write_line line (count_line p)
               else count_line p) →
  foldl body start_pass lines
  = MkPass (List.filter keep lines) (length (List.filter keep lines))
           (length lines).
Proof. intros Hbody. by rewrite (foldl_pass body keep Hbody). Qed.

Lemma elem_of_list_filter_bool (keep : string → bool) (lines : list string)
    (line : string) :
  line ∈ List.filter keep lines ↔ line ∈ lines ∧ keep line = true.
Proof. rewrite !list_elem_of_In. apply filter_In. Qed.

(** *** One file *)

Lemma open_write_files (p : string) (st st1 : store) :
  open_write p st = Some st1 →
  files st1 = <[p := ""]> (files st) ∧ dirs st1 = dirs st ∧ log st1 = log st.
Proof.
  unfold open_write. destruct (_ && _); [| done]. by intros [= <-].
Qed.

(** A pass that could open both files leaves in the output the lines its
    body wrote, read from the input as it was. *)
Lemma filter_file_content (body : pass → string → pass)
    (log_file output_file text : string) (st : store) :
  open_read log_file st = Some text →
  is_Some (open_write output_file st) →
  log_file ≠ output_file →
  files (filter_file body log_file output_file st) !! output_file
  = Some (text_of (outfile (foldl body start_pass (readlines text)))).
Proof.
  intros Hr [st1 Hw] Hne. unfold filter_file. rewrite Hr, Hw.
  destruct (open_write_files _ _ _ Hw) as (Hf & _ & _).
  unfold open_read in *. rewrite Hf, lookup_insert_ne by done.
  rewrite Hr. simpl. by rewrite lookup_insert_eq.
Qed.

Lemma le_refl (t : datetime) : le t t = true.
Proof.
  unfold le, compare. destruct t; simpl. by rewrite !Z.compare_refl.
Qed.

Lemma get_le_debug (key : string) :
  (get key 2 <= 1)%Z ↔ key = "TRACE" ∨ key = "DEBUG".
Proof.
  unfold get. destruct (SEVERITY_LEVELS !! key) as [v|] eqn:Hk; simpl.
  - apply elem_of_list_to_map_2 in Hk.
    repeat (apply elem_of_cons in Hk as [[= -> ->] | Hk]);
      try (by apply elem_of_nil in Hk);
      (split; [intros H; first [lia | by left | by right]
              | intros [H | H]; first [lia | discriminate H]]).
  - split; [lia |]. intros [-> | ->]; vm_compute in Hk; discriminate.
Qed.

(** C2. In severity mode a line is written exactly when its severity is
    present with a rank at least the minimum's, or absent while the
    minimum's rank is at most DEBUG's, which is when DEBUG or TRACE was asked
    for; the lines written keep their order, and the output file of a pass
    holds them. *)
Theorem severity_mode_line_written (min_severity : string) (lines : list string) :
  let min_level := get (upper min_severity) 2 in
  let p := foldl (severity_body min_level) start_pass lines in
  outfile p = List.filter (passes_severityb min_level) lines
  ∧ (∀ line, line ∈ outfile p ↔ line ∈ lines ∧ passes_severity min_level line)
  ∧ matched_lines p = length (outfile p)
  ∧ total_lines p = length lines
  ∧ debug_rank = 1%Z
  ∧ ((min_level <= debug_rank)%Z
     ↔ upper min_severity = "TRACE" ∨ upper min_severity = "DEBUG")
  ∧ (∀ st log_file output_file text,
       open_read log_file st = Some text →
       is_Some (open_write output_file st) →
       log_file ≠ output_file →
       files (filter_file (severity_body min_level) log_file output_file st)
         !! output_file
       = Some (text_of (List.filter (passes_severityb min_level)
                                    (readlines text)))).
Proof.
  intros min_level p. subst p.
  rewrite (foldl_pass_start _ _ lines (severity_body_spec min_level)). simpl.
  splits; try done.
  - intros line. rewrite elem_of_list_filter_bool.
    by rewrite passes_severity_reflect.
  - rewrite debug_rank_value. apply get_le_debug.
  - intros st log_file output_file text Hr Hw Hne.
    rewrite (filter_file_content _ _ _ text) by done.
    by rewrite (foldl_pass_start _ _ _ (severity_body_spec min_level)).
Qed.

Lemma severity_mode_line_written_witness :
  files (filter_file (severity_body (get (upper "warn") 2)) "app.log" "out.log"
           (MkStore {[ "app.log" := "ERROR a" +:+ String LF "INFO b" ]} ∅ []))
    !! "out.log"
  = Some (text_of (List.filter (passes_severityb (get (upper "warn") 2))
                     (readlines ("ERROR a" +:+ String LF "INFO b")))).
Proof.
  apply (proj2 (proj2 (proj2 (proj2 (proj2 (proj2
           (severity_mode_line_written "warn" []))))))).
  - reflexivity.
  - vm_compute. eauto.
  - discriminate.
Defined.

(** C3. In time-range mode a line is written exactly when it has an
    extractable timestamp [t] with [start_time <= t <= end_time]; a line
    whose timestamp is [start_time] or [end_time] itself is written, and a
    line without a timestamp never is. *)
Theorem timerange_mode_line_written (start_time end_time : datetime)
    (lines : list string) :
  let p := foldl (timerange_body start_time end_time) start_pass lines in
  outfile p = List.filter (in_timerangeb start_time end_time) lines
  ∧ (∀ line, line ∈ outfile p
             ↔ line ∈ lines ∧ in_timerange start_time end_time line)
  ∧ (∀ line, extract_timestamp line = None → line ∉ outfile p)
  ∧ (∀ line, line ∈ lines → le start_time end_time = true →
             extract_timestamp line = Some start_time
             ∨ extract_timestamp line = Some end_time →
             line ∈ outfile p)
  ∧ matched_lines p = length (outfile p)
  ∧ total_lines p = length lines
  ∧ (∀ st log_file output_file text,
       open_read log_file st = Some text →
       is_Some (open_write output_file st) →
       log_file ≠ output_file →
       files (filter_file (timerange_body start_time end_time)
                log_file output_file st) !! output_file
       = Some (text_of (List.filter (in_timerangeb start_time end_time)
                                    (readlines text)))).
Proof.
  intros p. subst p.
  rewrite (foldl_pass_start _ _ lines
             (timerange_body_spec start_time end_time)). simpl.
  assert (∀ line, line ∈ List.filter (in_timerangeb start_time end_time) lines
                  ↔ line ∈ lines ∧ in_timerange start_time end_time line)
    as Hiff.
  { intros line. rewrite elem_of_list_filter_bool.
    by rewrite in_timerange_reflect. }
  splits; try done.
  - intros line Hnone Hin. apply Hiff in Hin as [_ (t & Ht & _)]. congruence.
  - intros line Hin Hle Hts. apply Hiff. split; [done |].
    destruct Hts as [Hts | Hts].
    + exists start_time. by rewrite le_refl.
    + exists end_time. by rewrite le_refl.
  - intros st log_file output_file text Hr Hw Hne.
    rewrite (filter_file_content _ _ _ text) by done.
    by rewrite (foldl_pass_start _ _ _
                  (timerange_body_spec start_time end_time)).
Qed.

Lemma timerange_mode_line_written_witness :
  "2025-06-28 09:00:00 start" ∈
  outfile (foldl (timerange_body (MkDatetime 2025 6 28 9 0 0 0)
                                 (MkDatetime 2025 6 28 10 0 0 0))
                 start_pass
                 ["2025-06-28 08:59:59 early"; "2025-06-28 09:00:00 start"]).
Proof.
  apply (proj1 (proj2 (proj2 (proj2
           (timerange_mode_line_written
              (MkDatetime 2025 6 28 9 0 0 0) (MkDatetime 2025 6 28 10 0 0 0)
              ["2025-06-28 08:59:59 early"; "2025-06-28 09:00:00 start"]))))).
  - set_solver.
  - reflexivity.
  - left. vm_compute. reflexivity.
Defined.

(** C8. [parse_datetime] tries the four boundary formats in their order and
    returns what the first that parses the text gives; it raises, and then
    [ValueError], exactly when none does. *)
Theorem parse_datetime_first_format (datetime_str : string) :
  boundary_formats
  = ["%Y-%m-%d %H:%M:%S.%f"; "%Y-%m-%d %H:%M:%S"; "%Y-%m-%d %H:%M"; "%Y-%m-%d"]
  ∧ (∀ t, parse_datetime datetime_str = Ok t
          ↔ ∃ i fmt, boundary_formats !! i = Some fmt
                     ∧ strptime datetime_str fmt = Some t
                     ∧ ∀ j fmt', (j < i)%nat → boundary_formats !! j = Some fmt' →
                                 strptime datetime_str fmt' = None)
  ∧ (∀ e, parse_datetime datetime_str = Raise e
          ↔ e = ValueError
            ∧ ∀ fmt, fmt ∈ boundary_formats → strptime datetime_str fmt = None).
Proof.
  unfold parse_datetime. rewrite parse_datetime_from_first_some. splits.
  - reflexivity.
  - intros t. rewrite <- first_some_Some.
    destruct (first_some _ _); split; congruence.
  - intros e. rewrite <- first_some_None.
    destruct (first_some _ _); split; try congruence.
    + by intros [_ ?].
    + intros [= <-]. done.
    + by intros [-> _].
Qed.

(** C4, as the program has it.  [extract_timestamp] goes through the three
    patterns in their order.  A pattern that matches has the text of its
    leftmost match parsed under the format strings in their order, and the
    first parse that succeeds is returned; when none does, the next pattern
    is tried.  Nothing is returned only when no pattern has a leftmost match
    that parses. *)
Theorem extract_timestamp_tries_every_pattern (line : string) :
  (∀ t, extract_timestamp line = Some t
        ↔ ∃ i pattern, TIMESTAMP_PATTERNS !! i = Some pattern
            ∧ pattern_parse line pattern = Some t
            ∧ ∀ j pattern', (j < i)%nat → TIMESTAMP_PATTERNS !! j = Some pattern' →
                            pattern_parse line pattern' = None)
  ∧ (extract_timestamp line = None
     ↔ ∀ pattern, pattern ∈ TIMESTAMP_PATTERNS →
         ∀ m, re_search false pattern line = Some m →
           ∀ fmt, fmt ∈ formats → strptime (default "" (group m "1")) fmt = None).
Proof.
  unfold extract_timestamp, compiled_patterns.
  rewrite extract_timestamp_from_first_some. split.
  - intros t. apply first_some_Some.
  - rewrite first_some_None. split.
    + intros H pattern Hp m Hm. specialize (H pattern Hp).
      unfold pattern_parse in H. rewrite Hm in H.
      rewrite try_formats_first_some in H. by apply first_some_None.
    + intros H pattern Hp. unfold pattern_parse.
      destruct (re_search false pattern line) as [m|] eqn:Hm; [| done].
      rewrite try_formats_first_some. apply first_some_None.
      by apply (H pattern Hp m).
Qed.

(** The line on which the first pattern matches a text that no format
    parses, and the second pattern's match is returned. *)
Lemma extract_timestamp_falls_back :
  ∃ pattern m,
    TIMESTAMP_PATTERNS !! 0%nat = Some pattern
    ∧ re_search false pattern "2025-13-45 10:00:00 at 2025/06/28 09:30:05"
      = Some m
    ∧ m_text m = "2025-13-45 10:00:00"
    ∧ try_formats (default "" (group m "1")) formats = None
    ∧ extract_timestamp "2025-13-45 10:00:00 at 2025/06/28 09:30:05"
      = Some (MkDatetime 2025 6 28 9 30 5 0).
Proof.
  eexists _, _. splits; [reflexivity | vm_compute; reflexivity | ..];
    vm_compute; reflexivity.
Qed.

(* ===================================================================== *)
(** ** [strptime] on the text of a timestamp *)
(* ===================================================================== *)

Lemma digit_cases_b :
  ∀ c, implb (is_digit c) (existsb (Ascii.eqb c) decimal_digits) = true.
Proof. by_ascii_cases. Qed.

Lemma digit_cases (c : ascii) : is_digit c = true → In c decimal_digits.
Proof.
  intros H. pose proof (digit_cases_b c) as Hc. rewrite H in Hc.
  cbn [implb] in Hc. apply existsb_exists in Hc as (d & Hd & Heq).
  apply Ascii.eqb_eq in Heq. by subst.
Qed.

Ltac digit_split H :=
  apply digit_cases in H; unfold decimal_digits in H; simpl in H;
  repeat destruct H as [<- | H]; [.. | destruct H].

(** What a two-digit directive reads from two digits: both when it accepts
    them, then the first alone when it accepts that. *)
Lemma field_results (d : ascii) (pv : option ascii) (a b : ascii)
    (s : string) (g : list (string * string)) :
  In d two_digit_directives → is_digit a = true → is_digit b = true →
  rmatch true (re_of d) (MState pv (String a (String b s)) g)
  = ((if valid2 d a b
      then [(two a b, MState (Some b) s ((String d "", two a b) :: g))]
      else [])
     ++ (if valid1 d a
         then [(String a "",
                MState (Some a) (String b s) ((String d "", String a "") :: g))]
         else []))%list.
Proof.
  intros Hd Ha Hb. unfold two_digit_directives in Hd. simpl in Hd.
  repeat destruct Hd as [<- | Hd]; [.. | destruct Hd];
    digit_split Ha; digit_split Hb; vm_compute; reflexivity.
Qed.


Lemma pattern_format_of (k : nat) (frac : bool) :
  (k < 3)%nat → pattern (format_of k frac) = Some (date_re k (clock_re frac)).
Proof.
  intros Hk. destruct k as [|[|[|k]]]; [.. | lia]; destruct frac; reflexivity.
Qed.

Lemma rmatch_Seq (ic : bool) (r1 r2 : regex) (st : mstate) :
  rmatch ic (Seq r1 r2) st
  = flat_map (λ m, map (prepend m.1) (rmatch ic r2 m.2)) (rmatch ic r1 st).
Proof. reflexivity. Qed.

Lemma flat_map_if_singleton {A B : Type} (b : bool) (x : A) (f : A → list B) :
  flat_map f (if b then [x] else []) = if b then f x else [].
Proof. destruct b; simpl; [apply app_nil_r | done]. Qed.

(** A two-digit directive before [r]. *)
Lemma field_step (d : ascii) (r : regex) (pv : option ascii) (a b : ascii)
    (s : string) (g : list (string * string)) :
  In d two_digit_directives → is_digit a = true → is_digit b = true →
  rmatch true (Seq (re_of d) r) (MState pv (String a (String b s)) g)
  = ((if valid2 d a b
      then map (prepend (two a b))
               (rmatch true r (MState (Some b) s ((String d "", two a b) :: g)))
      else [])
     ++ (if valid1 d a
         then map (prepend (String a ""))
                  (rmatch true r (MState (Some a) (String b s)
                                         ((String d "", String a "") :: g)))
         else []))%list.
Proof.
  intros Hd Ha Hb. rewrite rmatch_Seq, field_results by done.
  rewrite flat_map_app, !flat_map_if_singleton. done.
Qed.

(** A two-digit directive before something that cannot start at a digit:
    only the two digits together are read. *)
Lemma field_step_strict (d : ascii) (r : regex) (pv : option ascii)
    (a b : ascii) (s : string) (g : list (string * string)) :
  rejects_digit r →
  In d two_digit_directives → is_digit a = true → is_digit b = true →
  rmatch true (Seq (re_of d) r) (MState pv (String a (String b s)) g)
  = if valid2 d a b
    then map (prepend (two a b))
             (rmatch true r (MState (Some b) s ((String d "", two a b) :: g)))
    else [].
Proof.
  intros Hr Hd Ha Hb. rewrite field_step by done.
  rewrite (Hr _ b) by done. simpl.
  destruct (valid1 d a); simpl; apply app_nil_r.
Qed.

Lemma lit_step (l : ascii) (r : regex) (pv : option ascii) (c : ascii)
    (s : string) (g : list (string * string)) :
  rmatch true (Seq (Lit l) r) (MState pv (String c s) g)
  = if char_eq true l c
    then map (prepend (String c "")) (rmatch true r (MState (Some c) s g))
    else [].
Proof.
  rewrite rmatch_Seq. cbn [rmatch]. unfold step_char. cbn [rest groups].
  by rewrite flat_map_if_singleton.
Qed.

Lemma lit_step_end (l : ascii) (r : regex) (pv : option ascii)
    (g : list (string * string)) :
  rmatch true (Seq (Lit l) r) (MState pv "" g) = [].
Proof. reflexivity. Qed.

Lemma digit_not_punct_b :
  ∀ c, implb (is_digit c)
             (negb (char_eq true "-" c) && negb (char_eq true "/" c)
              && negb (char_eq true ":" c) && negb (char_eq true "." c)) = true.
Proof. by_ascii_cases. Qed.

Lemma rejects_digit_Lit (l : ascii) (r : regex) :
  In l ["-"; "/"; ":"; "."]%char → rejects_digit (Seq (Lit l) r).
Proof.
  intros Hl pv c s g Hc. rewrite lit_step.
  pose proof (digit_not_punct_b c) as H. rewrite Hc in H. cbn [implb] in H.
  apply andb_prop in H as [H H4]. apply andb_prop in H as [H H3].
  apply andb_prop in H as [H1 H2]. apply negb_true_iff in H1, H2, H3, H4.
  simpl in Hl. destruct Hl as [<- | [<- | [<- | [<- | []]]]]; by rewrite ?H1, ?H2, ?H3, ?H4.
Qed.

Lemma rejects_digit_space (r : regex) : rejects_digit (Seq (Plus is_space) r).
Proof.
  intros pv c s g Hc. rewrite rmatch_Seq. simpl.
  by rewrite (digit_not_space c Hc).
Qed.

(** The year before [r]: four digits. *)
Lemma year_step (r : regex) (pv : option ascii) (a b c d : ascii) (s : string)
    (g : list (string * string)) :
  is_digit a = true → is_digit b = true → is_digit c = true →
  is_digit d = true →
  rmatch true (Seq (re_of "Y") r)
         (MState pv (String a (String b (String c (String d s)))) g)
  = map (prepend (four a b c d))
        (rmatch true r (MState (Some d) s (("Y", four a b c d) :: g))).
Proof.
  intros Ha Hb Hc Hd. rewrite rmatch_Seq.
  assert (rmatch true (re_of "Y")
            (MState pv (String a (String b (String c (String d s)))) g)
          = [(four a b c d, MState (Some d) s (("Y", four a b c d) :: g))])
    as ->.
  { unfold re_of. simpl. unfold step_char. simpl.
    rewrite Ha. simpl. rewrite Hb. simpl. rewrite Hc. simpl. rewrite Hd. done. }
  simpl. apply app_nil_r.
Qed.

(** No year where the third character is not a digit. *)
Lemma year_fail (r : regex) (pv : option ascii) (a b c : ascii) (s : string)
    (g : list (string * string)) :
  is_digit c = false →
  rmatch true (Seq (re_of "Y") r) (MState pv (String a (String b (String c s))) g)
  = [].
Proof.
  intros Hc. rewrite rmatch_Seq.
  assert (rmatch true (re_of "Y")
            (MState pv (String a (String b (String c s))) g) = []) as ->; [| done].
  unfold re_of. simpl. unfold step_char. simpl.
  destruct (is_digit a); simpl; [| done].
  destruct (is_digit b); simpl; [| done]. by rewrite Hc.
Qed.

Lemma last_char_truthy (d d' : option ascii) (t : string) :
  truthy t = true → last_char d t = last_char d' t.
Proof. by destruct t. Qed.

Lemma map_prepend_prepend (a b : string) (l : list (string * mstate)) :
  map (prepend a) (map (prepend b) l) = map (prepend (a +:+ b)) l.
Proof.
  rewrite map_map. apply map_ext. intros [t st]. unfold prepend; simpl.
  by rewrite string_app_assoc.
Qed.

Lemma rmatch_Plus_prev (r : regex) (p : ascii → bool) (pv pv' : option ascii)
    (s : string) (g : list (string * string)) :
  rmatch true (Seq (Plus p) r) (MState pv s g)
  = rmatch true (Seq (Plus p) r) (MState pv' s g).
Proof. reflexivity. Qed.

Lemma map_cons_text_prepend (w : ascii) (t : string)
    (l : list (string * mstate)) :
  map (cons_text w) (map (prepend t) l) = map (prepend (String w t)) l.
Proof. rewrite map_map. by apply map_ext. Qed.

Lemma flat_map_cons_text (r : regex) (w : ascii) (l : list (string * mstate)) :
  flat_map (λ m, map (prepend m.1) (rmatch true r m.2)) (map (cons_text w) l)
  = map (cons_text w)
        (flat_map (λ m, map (prepend m.1) (rmatch true r m.2)) l).
Proof.
  induction l as [|[t st] l IH]; [done |].
  cbn [map flat_map]. rewrite map_app, IH. f_equal.
  unfold cons_text at 1 2. cbn [fst snd].
  by rewrite map_cons_text_prepend.
Qed.

(** White space before [r], which cannot start at white space: the whole
    run is read. *)
Lemma space_step (r : regex) (ws : string) (c : ascii) (s : string)
    (g : list (string * string)) :
  rejects_space r → is_space c = false →
  all_spaces ws = true → truthy ws = true →
  ∀ pv, rmatch true (Seq (Plus is_space) r) (MState pv (ws +:+ String c s) g)
        = map (prepend ws)
              (rmatch true r (MState (last_char None ws) (String c s) g)).
Proof.
  intros Hr Hc. induction ws as [|w ws IH]; [done |].
  intros Hall _ pv. unfold all_spaces in Hall. simpl in Hall.
  apply andb_prop in Hall as [Hw Hall].
  rewrite rmatch_Seq. cbn [rmatch rest groups]. rewrite string_app_cons.
  cbn [run_class]. rewrite Hw, flat_map_app, flat_map_cons_text.
  cbn [flat_map fst snd]. rewrite app_nil_r.
  destruct ws as [|w' ws].
  - rewrite string_app_nil_l. cbn [run_class]. rewrite Hc. done.
  - rewrite (string_app_cons w'), (Hr _ w') by
      (simpl in Hall; by apply andb_prop in Hall as [? _]).
    rewrite <- string_app_cons. cbn [map]. rewrite app_nil_r.
    specialize (IH Hall eq_refl (Some w)).
    rewrite rmatch_Seq in IH. cbn [rmatch rest groups] in IH.
    rewrite IH, map_cons_text_prepend. done.
Qed.

Lemma hour_rejects_space (r : regex) : rejects_space (Seq (re_of "H") r).
Proof.
  intros pv c s g Hc. rewrite rmatch_Seq.
  assert (rmatch true (re_of "H") (MState pv (String c s) g) = []) as ->;
    [| done].
  destruct c as [[] [] [] [] [] [] [] []];
    first [ by (vm_compute in Hc; discriminate Hc) | vm_compute; reflexivity ].
Qed.

(** The fraction directive on three digits at the end of the text. *)
Lemma fraction_results (pv : option ascii) (a b c : ascii)
    (g : list (string * string)) :
  is_digit a = true → is_digit b = true → is_digit c = true →
  hd_error (rmatch true (Seq (re_of "f") Eps)
                   (MState pv (String a (String b (String c ""))) g))
  = Some (String a (String b (String c "")),
          MState (Some c) "" (("f", String a (String b (String c ""))) :: g)).
Proof.
  intros Ha Hb Hc. digit_split Ha; digit_split Hb; digit_split Hc;
    vm_compute; reflexivity.
Qed.

(** *** What a match reads is what it leaves behind it *)

Lemma run_class_sound (p : ascii → bool) (s : string)
    (g : list (string * string)) (t : string) (st' : mstate) :
  In (t, st') (run_class p s g) → s = t +:+ rest st'.
Proof.
  intros H. apply in_run_class in H as (c & t' & s' & -> & -> & _ & ->). done.
Qed.

Lemma rmatch_sound (ic : bool) (r : regex) :
  ∀ st t st', In (t, st') (rmatch ic r st) → rest st = t +:+ rest st'.
Proof.
  induction r as [| c | p | r1 IH1 r2 IH2 | r1 IH1 r2 IH2 | r IH | p | | name r IH];
    intros st t st'.
  - intros H. apply in_rmatch_Eps in H as [-> ->]. done.
  - cbn [rmatch]. intros H.
    apply in_step_char in H as (d & s' & -> & _ & -> & ->). done.
  - cbn [rmatch]. intros H.
    apply in_step_char in H as (d & s' & -> & _ & -> & ->). done.
  - intros H. apply in_rmatch_Seq in H as (t1 & st1 & t2 & H1 & H2 & ->).
    rewrite (IH1 _ _ _ H1), (IH2 _ _ _ H2). by rewrite string_app_assoc.
  - cbn [rmatch]. rewrite in_app_iff. intros [H | H]; eauto.
  - intros H. apply in_rmatch_Opt in H as [H | [-> ->]]; eauto.
  - cbn [rmatch]. apply run_class_sound.
  - cbn [rmatch]. destruct (at_boundary st); [| done].
    intros [[= <- <-] | []]. done.
  - intros H. apply in_rmatch_Group in H as (st1 & H1 & ->). simpl. eauto.
Qed.

Lemma string_app_length_eq (t u : string) :
  (String.length (t +:+ u) =? String.length t)%nat = negb (truthy u).
Proof.
  rewrite string_app_length. destruct u; simpl.
  - rewrite Nat.add_0_r. apply Nat.eqb_refl.
  - apply Nat.eqb_neq. lia.
Qed.

(** [strptime], from the position its pattern reaches first: that must be
    the end of the text. *)
Lemma strptime_head (data fmt : string) (r : regex) :
  pattern fmt = Some r →
  strptime data fmt
  = match head_state (rmatch true r (MState None data [])) with
    | Some st' => if truthy (rest st') then None else fields_of (groups st')
    | None => None
    end.
Proof.
  intros Hp. unfold strptime, re_match, first_match, head_state. rewrite Hp.
  destruct (rmatch true r (MState None data [])) as [|[t st'] l] eqn:Hm;
    [done |].
  cbn [hd_error option_map snd fst m_text m_groups].
  assert (data = t +:+ rest st') as Hdata.
  { apply (rmatch_sound true r (MState None data []) t st').
    rewrite Hm. by left. }
  rewrite Hdata at 1. rewrite string_app_length_eq, negb_involutive.
  by destruct (truthy (rest st')).
Qed.

Lemma head_state_prepend (t : string) (l : list (string * mstate)) :
  head_state (map (prepend t) l) = head_state l.
Proof. by destruct l. Qed.

Lemma head_state_nil : head_state [] = None.
Proof. reflexivity. Qed.

(** *** The formats on the text of a timestamp *)

Lemma clock_rejects_digit (frac : bool) : rejects_digit (clock_re frac).
Proof. apply rejects_digit_space. Qed.

Lemma char_eq_refl_punct (l : ascii) :
  In l ["-"; "/"; ":"; "."]%char → char_eq true l l = true.
Proof.
  simpl. intros [<- | [<- | [<- | [<- | []]]]]; reflexivity.
Qed.

(** The date of the layout [k] under the date of the format of the layout
    [k]. *)
Lemma date_head_same (k : nat) (r : regex) (y1 y2 y3 y4 m1 m2 d1 d2 : ascii)
    (tail : string) :
  (k < 3)%nat → rejects_digit r →
  is_digit y1 = true → is_digit y2 = true → is_digit y3 = true →
  is_digit y4 = true → is_digit m1 = true → is_digit m2 = true →
  is_digit d1 = true → is_digit d2 = true →
  head_state (rmatch true (date_re k r)
                (MState None (stamp_text k y1 y2 y3 y4 m1 m2 d1 d2 tail) []))
  = if valid2 "m" m1 m2 && valid2 "d" d1 d2
    then head_state (rmatch true r
                       (MState (Some (date_last k y4 d2)) tail
                               (date_groups k y1 y2 y3 y4 m1 m2 d1 d2)))
    else None.
Proof.
  intros Hk Hr Hy1 Hy2 Hy3 Hy4 Hm1 Hm2 Hd1 Hd2.
  assert (∀ l r', l = "-"%char ∨ l = "/"%char → rejects_digit (Seq (Lit l) r'))
    as Hsep.
  { intros l r' [-> | ->]; apply rejects_digit_Lit; simpl; auto. }
  destruct k as [|[|[|k]]]; [.. | lia]; unfold date_re, stamp_text, sep_of,
    date_groups, date_last.
  - rewrite year_step, head_state_prepend by done.
    rewrite lit_step. cbn [char_eq]. rewrite Ascii.eqb_refl, head_state_prepend.
    rewrite field_step_strict by (simpl; auto 10).
    destruct (valid2 "m" m1 m2); [| done]. rewrite head_state_prepend.
    rewrite lit_step. cbn [char_eq]. rewrite Ascii.eqb_refl, head_state_prepend.
    rewrite field_step_strict by (simpl; auto 10).
    destruct (valid2 "d" d1 d2); [| done]. by rewrite head_state_prepend.
  - rewrite year_step, head_state_prepend by done.
    rewrite lit_step. cbn [char_eq]. rewrite Ascii.eqb_refl, head_state_prepend.
    rewrite field_step_strict by (simpl; auto 10).
    destruct (valid2 "m" m1 m2); [| done]. rewrite head_state_prepend.
    rewrite lit_step. cbn [char_eq]. rewrite Ascii.eqb_refl, head_state_prepend.
    rewrite field_step_strict by (simpl; auto 10).
    destruct (valid2 "d" d1 d2); [| done]. by rewrite head_state_prepend.
  - rewrite field_step_strict by (simpl; auto 10).
    destruct (valid2 "m" m1 m2); [| done]. rewrite head_state_prepend.
    rewrite lit_step. cbn [char_eq]. rewrite Ascii.eqb_refl, head_state_prepend.
    rewrite field_step_strict by (simpl; auto 10).
    destruct (valid2 "d" d1 d2); [| done]. rewrite head_state_prepend.
    rewrite lit_step. cbn [char_eq]. rewrite Ascii.eqb_refl, head_state_prepend.
    by rewrite year_step, head_state_prepend.
Qed.

(** The date of the layout [k] under the date of another format: no
    match. *)
Lemma date_head_other (k k' : nat) (r : regex)
    (y1 y2 y3 y4 m1 m2 d1 d2 : ascii) (tail : string) :
  (k < 3)%nat → (k' < 3)%nat → k ≠ k' →
  is_digit y1 = true → is_digit y2 = true → is_digit y3 = true →
  is_digit y4 = true → is_digit m1 = true → is_digit m2 = true →
  is_digit d1 = true → is_digit d2 = true →
  rmatch true (date_re k' r)
         (MState None (stamp_text k y1 y2 y3 y4 m1 m2 d1 d2 tail) []) = [].
Proof.
  intros Hk Hk' Hne Hy1 Hy2 Hy3 Hy4 Hm1 Hm2 Hd1 Hd2.
  assert (∀ r', rejects_digit (Seq (Lit "/") r')) as Hsep.
  { intros r'. apply rejects_digit_Lit; simpl; auto. }
  destruct k as [|[|[|k]]]; [.. | lia]; destruct k' as [|[|[|k']]];
    try lia; try done; unfold date_re, stamp_text, sep_of.
  - rewrite year_step by done. rewrite lit_step. done.
  - rewrite field_step by (simpl; auto 10).
    rewrite !(Hsep _ _ _ _ _) by done. by destruct (valid2 _ _ _), (valid1 _ _).
  - rewrite year_step by done. rewrite lit_step. done.
  - rewrite field_step by (simpl; auto 10).
    rewrite !(Hsep _ _ _ _ _) by done. by destruct (valid2 _ _ _), (valid1 _ _).
  - by apply year_fail.
  - by apply year_fail.
Qed.

(** The clock under the clock of a format. *)
Lemma clock_head (frac' : bool) (pv : option ascii) (ws : string)
    (h1 h2 mi1 mi2 s1 s2 : ascii) (f : option (ascii * ascii * ascii))
    (g : list (string * string)) :
  all_spaces ws = true → truthy ws = true →
  is_digit h1 = true → is_digit h2 = true → is_digit mi1 = true →
  is_digit mi2 = true → is_digit s1 = true → is_digit s2 = true →
  frac_digits f = true →
  head_state (rmatch true (clock_re frac')
                (MState pv (clock_text ws h1 h2 mi1 mi2 s1 s2 (frac_text f)) g))
  = if valid2 "H" h1 h2 && valid2 "M" mi1 mi2
    then
      if frac' then
        if valid2 "S" s1 s2 then
          match f with
          | Some (a, b, c) =>
              Some (MState (Some c) ""
                      (("f", String a (String b (String c "")))
                         :: clock_groups h1 h2 mi1 mi2 s1 s2 g))
          | None => None
          end
        else None
      else
        Some (if valid2 "S" s1 s2
              then MState (Some s2) (frac_text f)
                          (clock_groups h1 h2 mi1 mi2 s1 s2 g)
              else MState (Some s1) (String s2 (frac_text f))
                          (("S", String s1 "") :: ("M", two mi1 mi2)
                             :: ("H", two h1 h2) :: g))
    else None.
Proof.
  intros Hws Hws' Hh1 Hh2 Hmi1 Hmi2 Hs1 Hs2 Hf.
  assert (∀ r', rejects_digit (Seq (Lit ":") r')) as Hcolon.
  { intros r'. apply rejects_digit_Lit; simpl; auto. }
  unfold clock_re, clock_text.
  rewrite (space_step _ ws h1) by
    (try apply hour_rejects_space; try apply digit_not_space; done).
  rewrite head_state_prepend.
  rewrite field_step_strict by (simpl; auto 10).
  destruct (valid2 "H" h1 h2); [| done]. rewrite head_state_prepend.
  rewrite lit_step. cbn [char_eq]. rewrite Ascii.eqb_refl, head_state_prepend.
  rewrite field_step_strict by (simpl; auto 10).
  destruct (valid2 "M" mi1 mi2); [| done]. rewrite head_state_prepend.
  rewrite lit_step. cbn [char_eq]. rewrite Ascii.eqb_refl, head_state_prepend.
  cbn [andb]. destruct frac'; unfold fraction_re.
  - rewrite field_step_strict;
      [| apply rejects_digit_Lit; simpl; auto 10 | simpl; auto 10 | done | done].
    destruct (valid2 "S" s1 s2); [| done]. rewrite head_state_prepend.
    destruct f as [[[a b] c]|]; [| done]. cbn [frac_text].
    rewrite lit_step. cbn [char_eq]. rewrite Ascii.eqb_refl, head_state_prepend.
    simpl in Hf. apply andb_prop in Hf as [Hf Hc].
    apply andb_prop in Hf as [Ha Hb].
    unfold head_state. rewrite fraction_results by done. reflexivity.
  - rewrite field_step by (simpl; auto 10).
    destruct (valid2 "S" s1 s2); reflexivity.
Qed.

Lemma int_two (a b : ascii) :
  is_digit a = true → is_digit b = true → int (two a b) = Some (val2 a b).
Proof.
  intros Ha Hb. unfold int, two. simpl. rewrite (digit_not_space a Ha).
  simpl. rewrite Ha, Hb. f_equal; unfold val2; lia.
Qed.

Lemma int_four (a b c d : ascii) :
  is_digit a = true → is_digit b = true → is_digit c = true →
  is_digit d = true → int (four a b c d) = Some (val4 a b c d).
Proof.
  intros Ha Hb Hc Hd. unfold int, four. simpl. rewrite (digit_not_space a Ha).
  simpl. rewrite Ha, Hb, Hc, Hd. f_equal; unfold val4; lia.
Qed.

Lemma int_fraction (a b c : ascii) :
  is_digit a = true → is_digit b = true → is_digit c = true →
  int (String a (String b (String c "")) +:+ zeros 3)
  = Some (frac_value (Some (a, b, c))).
Proof.
  intros Ha Hb Hc. unfold int. simpl. rewrite (digit_not_space a Ha).
  simpl. rewrite Ha, Hb, Hc. simpl. change (digit_value "0") with 0%Z. f_equal; lia.
Qed.

Lemma days_in_month_le (y m : Z) : (days_in_month y m <= 31)%Z.
Proof.
  unfold days_in_month.
  destruct (m =? 2)%Z; [destruct (is_leap y); lia |].
  destruct (_ || _); lia.
Qed.

(** A digit text the directives refuse writes no date-time. *)
Lemma stamp_value_refused (y1 y2 y3 y4 m1 m2 d1 d2 h1 h2 mi1 mi2 s1 s2 : ascii)
    (f : option (ascii * ascii * ascii)) :
  valid2 "m" m1 m2 && valid2 "d" d1 d2 && valid2 "H" h1 h2
  && valid2 "M" mi1 mi2 && valid2 "S" s1 s2 = false →
  stamp_value y1 y2 y3 y4 m1 m2 d1 d2 h1 h2 mi1 mi2 s1 s2 f = None.
Proof.
  intros H. unfold stamp_value, make.
  destruct (valid_date _ _ _ && valid_time _ _ _ _) eqn:Hv; [exfalso | done].
  pose proof (days_in_month_le (val4 y1 y2 y3 y4) (val2 m1 m2)) as Hdim.
  unfold valid_date, valid_time, between in Hv.
  unfold valid2, between in H. cbn [Ascii.eqb Bool.eqb] in H.
  rewrite !andb_true_iff, !Z.leb_le in Hv.
  rewrite !andb_false_iff, !Z.leb_gt in H. lia.
Qed.

Ltac stamp_refused :=
  symmetry; apply stamp_value_refused;
  repeat match goal with H : valid2 _ _ _ = _ |- _ => rewrite H end;
  reflexivity.

(** The six formats on the text of a timestamp: the format of its own
    layout, with a fraction when it has one, gives its value; every other
    format fails. *)
Lemma strptime_stamp (k k' : nat) (frac' : bool)
    (y1 y2 y3 y4 m1 m2 d1 d2 h1 h2 mi1 mi2 s1 s2 : ascii) (ws : string)
    (f : option (ascii * ascii * ascii)) :
  (k < 3)%nat → (k' < 3)%nat →
  is_digit y1 = true → is_digit y2 = true → is_digit y3 = true →
  is_digit y4 = true → is_digit m1 = true → is_digit m2 = true →
  is_digit d1 = true → is_digit d2 = true →
  all_spaces ws = true → truthy ws = true →
  is_digit h1 = true → is_digit h2 = true → is_digit mi1 = true →
  is_digit mi2 = true → is_digit s1 = true → is_digit s2 = true →
  frac_digits f = true →
  strptime (stamp_text k y1 y2 y3 y4 m1 m2 d1 d2
              (clock_text ws h1 h2 mi1 mi2 s1 s2 (frac_text f)))
           (format_of k' frac')
  = if (k =? k')%nat && Bool.eqb frac' (bool_decide (is_Some f))
    then stamp_value y1 y2 y3 y4 m1 m2 d1 d2 h1 h2 mi1 mi2 s1 s2 f
    else None.
Proof.
  intros Hk Hk' Hy1 Hy2 Hy3 Hy4 Hm1 Hm2 Hd1 Hd2 Hws Hws' Hh1 Hh2 Hmi1 Hmi2
    Hs1 Hs2 Hf.
  rewrite (strptime_head _ _ _ (pattern_format_of k' frac' Hk')).
  destruct (Nat.eqb_spec k k') as [<- | Hne]; cycle 1.
  { by rewrite date_head_other. }
  rewrite date_head_same by (done || apply clock_rejects_digit).
  destruct (valid2 "m" m1 m2) eqn:Vm; cycle 1.
  { cbn [andb]. destruct (Bool.eqb _ _); [stamp_refused | done]. }
  destruct (valid2 "d" d1 d2) eqn:Vd; cycle 1.
  { cbn [andb]. destruct (Bool.eqb _ _); [stamp_refused | done]. }
  cbn [andb]. rewrite clock_head by done.
  destruct (valid2 "H" h1 h2) eqn:VH; cycle 1.
  { cbn [andb]. destruct (Bool.eqb _ _); [stamp_refused | done]. }
  destruct (valid2 "M" mi1 mi2) eqn:VM; cycle 1.
  { cbn [andb]. destruct (Bool.eqb _ _); [stamp_refused | done]. }
  cbn [andb].
  destruct (valid2 "S" s1 s2) eqn:VS; cycle 1.
  { destruct frac'; [destruct (Bool.eqb _ _); [stamp_refused | done] |].
    cbn [rest truthy]. destruct (Bool.eqb _ _); [stamp_refused | done]. }
  assert (∀ g, fields_of (clock_groups h1 h2 mi1 mi2 s1 s2
                            (date_groups k y1 y2 y3 y4 m1 m2 d1 d2) ++ g)
               = match fraction (clock_groups h1 h2 mi1 mi2 s1 s2
                                   (date_groups k y1 y2 y3 y4 m1 m2 d1 d2) ++ g)
                 with
                 | Some us =>
                     make (val4 y1 y2 y3 y4) (val2 m1 m2) (val2 d1 d2)
                          (val2 h1 h2) (val2 mi1 mi2) (val2 s1 s2) us
                 | None => None
                 end) as Hfields.
  { intros g. unfold fields_of, field, clock_groups, date_groups.
    destruct k as [|[|[|k]]]; [.. | lia]; simpl;
      rewrite !int_two, int_four by done; reflexivity. }
  destruct frac', f as [[[a b] c]|]; try done.
  - cbn [rest truthy groups]. simpl in Hf.
    apply andb_prop in Hf as [Hf Hc]. apply andb_prop in Hf as [Ha Hb].
    unfold fields_of, field, fraction, clock_groups.
    destruct k as [|[|[|k]]]; [.. | lia]; simpl;
      rewrite !int_two, int_four by done;
      change (int (String a (String b (String c "000"))))
        with (int (String a (String b (String c "")) +:+ zeros 3));
      rewrite int_fraction by done; reflexivity.
  - cbn [rest truthy groups frac_text].
    specialize (Hfields []). rewrite app_nil_r in Hfields. rewrite Hfields.
    unfold fraction, clock_groups.
    destruct k as [|[|[|k]]]; [.. | lia]; reflexivity.
Qed.



Lemma number_two (a b : ascii) : number (two a b) = val2 a b.
Proof. unfold number, two, val2. simpl. lia. Qed.

Lemma number_four (a b c d : ascii) : number (four a b c d) = val4 a b c d.
Proof. unfold number, four, val4. simpl. lia. Qed.


(** *** The text a pattern matches *)












(* ===================================================================== *)
(** ** Passes over the files of the store *)
(* ===================================================================== *)

Lemma open_write_writable (p : string) (st : store) :
  open_write p st
  = if writable st p
    then Some (MkStore (<[p := ""]> (files st)) (dirs st) (log st))
    else None.
Proof. reflexivity. Qed.

Lemma writable_dirs (st st' : store) (p : string) :
  dirs st' = dirs st → writable st' p = writable st p.
Proof. intros H. unfold writable, isdir. by rewrite H. Qed.

(** One file: the pass ran, or it failed and changed nothing but the
    log. *)
Lemma filter_file_cases (body : pass → string → pass)
    (log_file output_file : string) (st : store) :
  (is_Some (files st !! log_file) ∧ writable st output_file = true
   ∧ ∃ text,
       (<[output_file := ""]> (files st)) !! log_file = Some text
       ∧ filter_file body log_file output_file st
         = MkStore (<[output_file := filtered body text]> (files st))
                   (dirs st)
                   (Filtered
                      (matched_lines (foldl body start_pass (readlines text)))
                      (total_lines (foldl body start_pass (readlines text)))
                      output_file :: log st))
  ∨ ((files st !! log_file = None ∨ writable st output_file = false)
     ∧ filter_file body log_file output_file st
       = MkStore (files st) (dirs st) (ErrorProcessing log_file :: log st)).
Proof.
  unfold filter_file, open_read. rewrite open_write_writable.
  destruct (files st !! log_file) as [text0|] eqn:Hr; [| right; by eauto].
  destruct (writable st output_file) eqn:Hw; [| right; by eauto].
  left. splits; [by eauto | done |]. cbn [files].
  destruct (decide (output_file = log_file)) as [-> | Hne].
  - exists "". rewrite lookup_insert_eq. split; [done |].
    unfold write_close, add_log, filtered. cbn [files dirs log default].
    by rewrite insert_insert_eq.
  - exists text0. rewrite lookup_insert_ne, Hr by done. split; [done |].
    unfold write_close, add_log, filtered. cbn [files dirs log default].
    by rewrite insert_insert_eq.
Qed.

Lemma filter_file_dirs (body : pass → string → pass)
    (log_file output_file : string) (st : store) :
  dirs (filter_file body log_file output_file st) = dirs st.
Proof.
  destruct (filter_file_cases body log_file output_file st)
    as [(_ & _ & text & _ & ->) | (_ & ->)]; done.
Qed.

Lemma filter_file_other (body : pass → string → pass)
    (log_file output_file p : string) (st : store) :
  p ≠ output_file →
  files (filter_file body log_file output_file st) !! p = files st !! p.
Proof.
  intros Hne.
  destruct (filter_file_cases body log_file output_file st)
    as [(_ & _ & text & _ & ->) | (_ & ->)]; [| done].
  cbn [files]. by rewrite lookup_insert_ne.
Qed.

Lemma filter_file_keeps (body : pass → string → pass)
    (log_file output_file p : string) (st : store) :
  is_Some (files st !! p) →
  is_Some (files (filter_file body log_file output_file st) !! p).
Proof.
  intros Hp.
  destruct (filter_file_cases body log_file output_file st)
    as [(_ & _ & text & _ & ->) | (_ & ->)]; [| done].
  cbn [files]. destruct (decide (output_file = p)) as [-> | Hne].
  - rewrite lookup_insert_eq. eauto.
  - by rewrite lookup_insert_ne.
Qed.

Lemma filter_files_snoc (body : pass → string → pass) (out : string → string)
    (log_files : list string) (f : string) (st : store) :
  filter_files body out (log_files ++ [f]) st
  = filter_file body f (out f) (filter_files body out log_files st).
Proof. unfold filter_files. by rewrite foldl_app. Qed.

Lemma filter_files_dirs (body : pass → string → pass) (out : string → string)
    (log_files : list string) (st : store) :
  dirs (filter_files body out log_files st) = dirs st.
Proof.
  induction log_files as [|f log_files IH] using rev_ind; [done |].
  by rewrite filter_files_snoc, filter_file_dirs.
Qed.

(** A run changes no file but the outputs it names. *)
Lemma filter_files_other (body : pass → string → pass) (out : string → string)
    (log_files : list string) (p : string) (st : store) :
  (∀ f, f ∈ log_files → out f ≠ p) →
  files (filter_files body out log_files st) !! p = files st !! p.
Proof.
  induction log_files as [|f log_files IH] using rev_ind; intros Hp; [done |].
  rewrite filter_files_snoc, filter_file_other.
  - apply IH. intros g Hg. apply Hp. apply elem_of_app. by left.
  - intros ->. apply (Hp f); [| done]. apply elem_of_app. right. apply list_elem_of_here.
Qed.

Lemma filter_files_keeps (body : pass → string → pass) (out : string → string)
    (log_files : list string) (p : string) (st : store) :
  is_Some (files st !! p) →
  is_Some (files (filter_files body out log_files st) !! p).
Proof.
  intros Hp. induction log_files as [|f log_files IH] using rev_ind; [done |].
  rewrite filter_files_snoc. by apply filter_file_keeps.
Qed.

(** The output of a file that is read as it was, and whose output no other
    file of the run shares. *)
Lemma filter_files_content (body : pass → string → pass)
    (out : string → string) (log_files : list string) (f text : string)
    (st : store) :
  f ∈ log_files →
  files st !! f = Some text →
  writable st (out f) = true →
  (∀ g, g ∈ log_files → out g ≠ f) →
  (∀ g, g ∈ log_files → out g = out f → g = f) →
  files (filter_files body out log_files st) !! out f
  = Some (filtered body text).
Proof.
  induction log_files as [|g log_files IH] using rev_ind;
    intros Hf Hr Hw Hin Hinj; [by apply elem_of_nil in Hf |].
  rewrite filter_files_snoc.
  assert (∀ g' : string, g' ∈ log_files → g' ∈ (log_files ++ [g])%list) as Hsub.
  { intros g' Hg'. apply elem_of_app. by left. }
  assert (g ∈ (log_files ++ [g])%list) as Hg by (apply elem_of_app; right; apply list_elem_of_here).
  destruct (decide (g = f)) as [-> | Hne].
  - destruct (filter_file_cases body f (out f)
                (filter_files body out log_files st))
      as [(_ & _ & text' & Ht & ->) | ([Hnone | Hnw] & _)].
    + cbn [files]. rewrite lookup_insert_eq.
      rewrite lookup_insert_ne in Ht by (by apply Hin).
      rewrite filter_files_other in Ht by (intros g' Hg'; apply Hin; auto).
      congruence.
    + rewrite filter_files_other in Hnone by (intros g' Hg'; apply Hin; auto).
      congruence.
    + rewrite (writable_dirs st) in Hnw by apply filter_files_dirs.
      congruence.
  - rewrite filter_file_other by (intros Heq; apply Hne; by apply Hinj).
    apply IH; auto.
    apply elem_of_app in Hf as [Hf | Hf]; [done |].
    apply list_elem_of_singleton in Hf. congruence.
Qed.

(** Every file of a run is reported as failed, or has its output in the
    store. *)
Lemma filter_files_reported (body : pass → string → pass)
    (out : string → string) (log_files : list string) (st : store) :
  ∀ f, f ∈ log_files →
    In (ErrorProcessing f) (log (filter_files body out log_files st))
    ∨ (is_Some (files (filter_files body out log_files st) !! out f)
       ∧ ∃ m t, In (Filtered m t (out f))
                   (log (filter_files body out log_files st))).
Proof.
  induction log_files as [|g log_files IH] using rev_ind; intros f Hf;
    [by apply elem_of_nil in Hf |].
  rewrite filter_files_snoc.
  destruct (filter_file_cases body g (out g)
              (filter_files body out log_files st))
    as [(_ & _ & text' & Ht & Hrun) | (_ & Hrun)].
  - apply elem_of_app in Hf as [Hf | Hf].
    + destruct (IH f Hf) as [Herr | [Hsome (m & t & Hev)]].
      * left. rewrite Hrun. cbn [log]. by right.
      * right. split.
        -- by apply filter_file_keeps.
        -- exists m, t. rewrite Hrun. cbn [log]. by right.
    + apply list_elem_of_singleton in Hf as ->. right. rewrite Hrun.
      cbn [files log]. rewrite lookup_insert_eq. split; [eauto |].
      eexists _, _. by left.
  - apply elem_of_app in Hf as [Hf | Hf].
    + destruct (IH f Hf) as [Herr | [Hsome (m & t & Hev)]].
      * left. rewrite Hrun. cbn [log]. by right.
      * right. rewrite Hrun. cbn [files log]. split; [done |].
        exists m, t. by right.
    + apply list_elem_of_singleton in Hf as ->. left. rewrite Hrun.
      cbn [log]. by left.
Qed.

(** What a run reports as filtered went to an output it names. *)
Lemma filter_files_log (body : pass → string → pass) (out : string → string)
    (log_files : list string) (st : store) (m t : nat) (o : string) :
  In (Filtered m t o) (log (filter_files body out log_files st)) →
  In (Filtered m t o) (log st) ∨ ∃ f, f ∈ log_files ∧ o = out f.
Proof.
  induction log_files as [|g log_files IH] using rev_ind; [by left |].
  rewrite filter_files_snoc.
  destruct (filter_file_cases body g (out g)
              (filter_files body out log_files st))
    as [(_ & _ & text' & Ht & ->) | (_ & ->)]; cbn [log].
  - intros [[= <- <- <-] | H].
    + right. exists g. split; [| done]. apply elem_of_app. right. apply list_elem_of_here.
    + destruct (IH H) as [? | (f & Hf & ->)]; [by left |].
      right. exists f. split; [| done]. apply elem_of_app. by left.
  - intros [[=] | H].
    destruct (IH H) as [? | (f & Hf & ->)]; [by left |].
    right. exists f. split; [| done]. apply elem_of_app. by left.
Qed.

Lemma split_by_severity_filter_files (log_files : list string)
    (min_severity output_dir : string) (st : store) :
  split_by_severity log_files min_severity output_dir st
  = match makedirs output_dir st with
    | Failed e st1 => Failed e st1
    | Done st1 =>
        Done (filter_files (severity_body (get (upper min_severity) 2))
                (severity_output output_dir min_severity) log_files st1)
    end.
Proof. reflexivity. Qed.

Lemma split_by_timerange_filter_files (log_files : list string)
    (start_time end_time : datetime) (output_dir : string) (st : store) :
  split_by_timerange log_files start_time end_time output_dir st
  = match makedirs output_dir st with
    | Failed e st1 => Failed e st1
    | Done st1 =>
        Done (filter_files (timerange_body start_time end_time)
                (timerange_output output_dir start_time end_time) log_files st1)
    end.
Proof. reflexivity. Qed.

(* ===================================================================== *)
(** ** Paths *)
(* ===================================================================== *)

Lemma rfind_range (c : ascii) (s : string) :
  (-1 <= rfind c s < Z.of_nat (String.length s))%Z.
Proof.
  induction s as [|d s IH]; simpl; [lia |].
  destruct (0 <=? rfind c s)%Z eqn:H; [apply Z.leb_le in H; lia |].
  destruct (Ascii.eqb d c); lia.
Qed.

Lemma rfind_contains (c : ascii) (s : string) :
  contains c s = (0 <=? rfind c s)%Z.
Proof.
  induction s as [|d s IH]; simpl; [done |]. rewrite IH.
  pose proof (rfind_range c s) as Hr.
  destruct (0 <=? rfind c s)%Z eqn:H.
  - rewrite orb_true_r. symmetry. apply Z.leb_le. apply Z.leb_le in H. lia.
  - rewrite orb_false_r. by destruct (Ascii.eqb d c).
Qed.

Lemma rfind_absent (c : ascii) (s : string) :
  contains c s = false → rfind c s = (-1)%Z.
Proof.
  rewrite rfind_contains. intros H. apply Z.leb_gt in H.
  pose proof (rfind_range c s). lia.
Qed.

Lemma rfind_app (c : ascii) (s t : string) :
  rfind c (s +:+ t)
  = if contains c t then (Z.of_nat (String.length s) + rfind c t)%Z
    else rfind c s.
Proof.
  induction s as [|d s IH].
  - rewrite string_app_nil_l. simpl. destruct (contains c t) eqn:H; [lia |].
    by apply rfind_absent.
  - rewrite string_app_cons. cbn [rfind String.length]. rewrite IH.
    pose proof (rfind_range c t) as Ht. rewrite rfind_contains.
    destruct (0 <=? rfind c t)%Z eqn:H.
    + apply Z.leb_le in H.
      replace (0 <=? Z.of_nat (String.length s) + rfind c t)%Z with true
        by (symmetry; apply Z.leb_le; lia).
      lia.
    + done.
Qed.

Lemma contains_app (c : ascii) (s t : string) :
  contains c (s +:+ t) = contains c s || contains c t.
Proof.
  induction s as [|d s IH]; [done |]. rewrite string_app_cons. simpl.
  by rewrite IH, orb_assoc.
Qed.

Lemma drop_app_length (s t : string) (n : nat) :
  n = String.length s → drop n (s +:+ t) = t.
Proof. intros ->. apply drop_app. Qed.

Lemma take_app_length (s t : string) (n : nat) :
  n = String.length s → take n (s +:+ t) = s.
Proof. intros ->. apply take_app. Qed.

Lemma contains_drop (c : ascii) (n : nat) (s : string) :
  contains c s = false → contains c (drop n s) = false.
Proof.
  revert s; induction n as [|n IH]; intros [|d s]; simpl; try done.
  intros H. apply orb_false_iff in H as [_ H]. by apply IH.
Qed.

Lemma drop_after_rfind (c : ascii) (s : string) :
  contains c (drop (Z.to_nat (rfind c s + 1)) s) = false.
Proof.
  induction s as [|d s IH]; [done |]. cbn [rfind].
  pose proof (rfind_range c s) as Hr.
  destruct (0 <=? rfind c s)%Z eqn:H.
  - apply Z.leb_le in H.
    replace (Z.to_nat (rfind c s + 1 + 1)) with (S (Z.to_nat (rfind c s + 1)))
      by lia.
    apply IH.
  - apply Z.leb_gt in H. assert (rfind c s = -1)%Z as Hs by lia.
    rewrite Hs in IH. simpl in IH.
    destruct (Ascii.eqb d c) eqn:Hd; simpl.
    + by destruct s.
    + rewrite Hd. simpl. by destruct s.
Qed.

(** A base name has no separator. *)
Lemma basename_no_sep (p : string) : contains "/" (basename p) = false.
Proof. apply drop_after_rfind. Qed.

Lemma take_no_sep (n : nat) (s : string) :
  contains "/" s = false → contains "/" (take n s) = false.
Proof.
  revert s; induction n as [|n IH]; intros [|d s]; simpl; try done.
  intros H. apply orb_false_iff in H as [-> H]. by apply IH.
Qed.

Lemma base_name_no_sep (log_file : string) :
  contains "/" (base_name log_file) = false.
Proof.
  unfold base_name, splitext. pose proof (basename_no_sep log_file) as H.
  destruct (_ && _); simpl; [by apply take_no_sep | done].
Qed.

(** *** [join] with a file name *)

Lemma startswith_sep_name (name : string) :
  is_name name = true → startswith "/" name = false.
Proof.
  unfold is_name. destruct name as [|c name]; [done |].
  cbn [truthy contains startswith andb].
  intros H. apply negb_true_iff, orb_false_iff in H as [H _].
  by rewrite Ascii.eqb_sym, H.
Qed.

Lemma join_name (d name : string) :
  is_name name = true →
  join d name = if negb (truthy d) || endswith "/" d then d +:+ name
                else d +:+ "/" +:+ name.
Proof. intros H. unfold join. by rewrite startswith_sep_name. Qed.

Lemma is_name_inv (name : string) :
  is_name name = true → truthy name = true ∧ contains "/" name = false.
Proof.
  unfold is_name. intros H. apply andb_prop in H as [H1 H2].
  by apply negb_true_iff in H2.
Qed.

(** The text before the last character of a text that ends with a
    separator. *)
Lemma endswith_sep_split (d : string) :
  endswith "/" d = true → d = take (String.length d - 1) d +:+ "/".
Proof.
  unfold endswith. intros H. apply andb_prop in H as [Hlen H].
  apply String.eqb_eq in H. simpl in H.
  rewrite <- H at 1. symmetry. apply take_drop.
Qed.

Lemma endswith_sep_length (d : string) :
  endswith "/" d = true → (1 ≤ String.length d)%nat.
Proof.
  unfold endswith. intros H. apply andb_prop in H as [Hl _].
  by apply Nat.leb_le in Hl.
Qed.

Lemma rfind_endswith_sep (d : string) :
  endswith "/" d = true → rfind "/" d = (Z.of_nat (String.length d) - 1)%Z.
Proof.
  intros He. pose proof (endswith_sep_split d He) as Hd.
  pose proof (endswith_sep_length d He) as Hl.
  rewrite Hd at 1. rewrite rfind_app. cbn [contains Ascii.eqb Bool.eqb orb rfind].
  simpl. rewrite take_length_le by lia. lia.
Qed.

Lemma basename_app_name (d name : string) :
  is_name name = true → (d = "" ∨ endswith "/" d = true) →
  basename (d +:+ name) = name.
Proof.
  intros Hn Hd. apply is_name_inv in Hn as [_ Hn].
  unfold basename. rewrite rfind_app, Hn.
  destruct Hd as [-> | Hd]; [by rewrite string_app_nil_l |].
  rewrite (rfind_endswith_sep d Hd).
  pose proof (endswith_sep_length d Hd). apply drop_app_length. lia.
Qed.

Lemma basename_join (d name : string) :
  is_name name = true → basename (join d name) = name.
Proof.
  intros Hn. rewrite join_name by done.
  destruct (truthy d) eqn:Hd; simpl.
  - destruct (endswith "/" d) eqn:He.
    + apply basename_app_name; auto.
    + rewrite <- string_app_assoc. apply basename_app_name; [done |].
      right. unfold endswith. rewrite string_app_length. simpl.
      replace (String.length d + 1 - 1)%nat with (String.length d) by lia.
      rewrite drop_app. simpl.
      destruct (String.length d + 1)%nat eqn:E; [lia | done].
  - destruct d; [| done]. by apply basename_app_name; auto.
Qed.

(** The directory of [join d name]: [d] itself, or [d] without its last
    separator. *)
Lemma parent_join (d name : string) :
  is_name name = true →
  parent (join d name)
  = if endswith "/" d then take (String.length d - 1) d else d.
Proof.
  intros Hn. rewrite join_name by done.
  destruct (is_name_inv name Hn) as [_ Hc]. unfold parent.
  destruct (endswith "/" d) eqn:He.
  - rewrite orb_true_r, rfind_app, Hc.
    pose proof (endswith_sep_split d He) as Hd.
    pose proof (endswith_sep_length d He) as Hl.
    rewrite (rfind_endswith_sep d He).
    replace (Z.to_nat (Z.of_nat (String.length d) - 1))
      with (String.length d - 1)%nat by lia.
    rewrite Hd at 2. rewrite string_app_assoc.
    apply take_app_length. rewrite take_length_le; lia.
  - rewrite orb_false_r. destruct (truthy d) eqn:Hd; simpl.
    + rewrite rfind_app. rewrite contains_app, Hc. simpl.
      rewrite rfind_app, Hc. simpl.
      replace (Z.to_nat (Z.of_nat (String.length d) + 0)) with (String.length d)
        by lia.
      apply take_app.
    + destruct d; [| done]. rewrite string_app_nil_l.
      by rewrite (rfind_absent "/" name Hc).
Qed.

(** *** Making directories *)

Lemma ancestors_from_length (seen p a : string) :
  In a (ancestors_from seen p) →
  (String.length seen ≤ String.length a
   < String.length seen + String.length p)%nat.
Proof.
  revert seen; induction p as [|c p IH]; intros seen; simpl; [done |].
  rewrite in_app_iff. intros [H | H].
  - destruct (_ && _); [| done]. destruct H as [<- | []]. lia.
  - apply IH in H. rewrite string_app_length in H. simpl in H. lia.
Qed.

(** An ancestor is shorter than the path. *)
Lemma ancestors_length (p a : string) :
  In a (ancestors p) → (String.length a < String.length p)%nat.
Proof. intros H. apply ancestors_from_length in H. simpl in H. lia. Qed.

Lemma ancestors_from_prefix (seen a rest : string) :
  truthy (seen +:+ a) = true →
  In (seen +:+ a) (ancestors_from seen (a +:+ String "/" rest)).
Proof.
  revert seen; induction a as [|c a IH]; intros seen Ht.
  - rewrite string_app_nil_l, string_app_nil_r in *. cbn [ancestors_from].
    rewrite Ht. simpl. by left.
  - rewrite string_app_cons. cbn [ancestors_from]. apply in_app_iff. right.
    replace (seen +:+ String c a) with ((seen +:+ String c "") +:+ a)
      by (by rewrite string_app_assoc).
    apply IH. by rewrite string_app_assoc.
Qed.

(** Every non-empty text before a separator of the path is an ancestor. *)
Lemma ancestors_prefix (a rest : string) :
  truthy a = true → In a (ancestors (a +:+ String "/" rest)).
Proof. intros H. by apply (ancestors_from_prefix "" a rest). Qed.

Lemma ancestors_from_app (seen p q a : string) :
  In a (ancestors_from seen p) → In a (ancestors_from seen (p +:+ q)).
Proof.
  revert seen; induction p as [|c p IH]; intros seen; [done |].
  rewrite string_app_cons. cbn [ancestors_from]. rewrite !in_app_iff.
  intros [H | H]; [by left | right; by apply IH].
Qed.

Lemma ancestors_app (p q a : string) :
  In a (ancestors p) → In a (ancestors (p +:+ q)).
Proof. apply ancestors_from_app. Qed.

Lemma makedirs_inv (d : string) (st st1 : store) :
  makedirs d st = Done st1 →
  truthy d = true
  ∧ files st1 = files st ∧ log st1 = log st
  ∧ dirs st1 = dirs st ∪ list_to_set (d :: ancestors d)
  ∧ ∀ a, In a (d :: ancestors d) → files st !! a = None.
Proof.
  unfold makedirs. destruct (truthy d); [| done]. cbn [negb].
  destruct (existsb (isfile st) (d :: ancestors d)) eqn:He; [done |].
  intros [= <-]. splits; try done. intros a Ha.
  destruct (files st !! a) as [x|] eqn:Hx; [| done]. exfalso.
  assert (existsb (isfile st) (d :: ancestors d) = true) as Ht; [| congruence].
  apply existsb_exists. exists a. split; [done |]. unfold isfile.
  apply bool_decide_eq_true. by rewrite Hx.
Qed.

Lemma makedirs_done (d : string) (st : store) :
  truthy d = true → (∀ a, In a (d :: ancestors d) → files st !! a = None) →
  makedirs d st
  = Done (MkStore (files st) (dirs st ∪ list_to_set (d :: ancestors d)) (log st)).
Proof.
  intros Hd Hfree. unfold makedirs. rewrite Hd. cbn [negb].
  destruct (existsb (isfile st) (d :: ancestors d)) eqn:He; [| done].
  apply existsb_exists in He as (a & Ha & Hf). unfold isfile in Hf.
  apply bool_decide_eq_true in Hf. rewrite (Hfree a Ha) in Hf.
  by destruct Hf.
Qed.

Lemma join_name_length (d name : string) :
  is_name name = true →
  (String.length d < String.length (join d name))%nat.
Proof.
  intros Hn. rewrite join_name by done.
  destruct (is_name_inv name Hn) as [Ht _]. apply truthy_length in Ht.
  destruct (_ || _); rewrite !string_app_length; simpl; lia.
Qed.

(** After the directory was made, a file name in it that is not a directory
    can be opened for writing. *)
Lemma writable_after_makedirs (d name : string) (st st1 : store) :
  makedirs d st = Done st1 → is_name name = true →
  join d name ∉ dirs st →
  writable st1 (join d name) = true.
Proof.
  intros Hm Hn Hnd. apply makedirs_inv in Hm as (Hd & _ & _ & Hdirs & _).
  pose proof (join_name_length d name Hn) as Hlen.
  unfold writable, isdir. rewrite basename_join, parent_join by done.
  destruct (is_name_inv name Hn) as [-> _]. cbn [andb].
  rewrite Hdirs.
  assert (join d name ∉ dirs st ∪ list_to_set (d :: ancestors d)) as Hnot.
  { rewrite elem_of_union, elem_of_list_to_set, list_elem_of_In.
    intros [? | [Heq | Ha]]; [done | |].
    - rewrite <- Heq in Hlen. lia.
    - apply ancestors_length in Ha. lia. }
  rewrite bool_decide_eq_false_2 by done. cbn [negb andb].
  destruct (endswith "/" d) eqn:He.
  - destruct (truthy (take (String.length d - 1) d)) eqn:Ht; [| done].
    cbn [negb orb]. apply bool_decide_eq_true.
    rewrite elem_of_union, elem_of_list_to_set, list_elem_of_In.
    right. right.
    pose proof (ancestors_prefix (take (String.length d - 1) d) "" Ht) as Hp.
    by rewrite <- (endswith_sep_split d He) in Hp.
  - rewrite Hd. cbn [negb orb]. apply bool_decide_eq_true.
    rewrite elem_of_union, elem_of_list_to_set, list_elem_of_In.
    right. by left.
Qed.

(* ===================================================================== *)
(** ** The names of the output files *)
(* ===================================================================== *)

Lemma strftime_stamp (t : datetime) : strftime t "%Y%m%d_%H%M%S" = stamp t.
Proof.
  unfold stamp. cbn [strftime Ascii.eqb Bool.eqb]. by rewrite string_app_nil_r.
Qed.

Lemma severity_output_name (output_dir min_severity log_file : string) :
  severity_output output_dir min_severity log_file
  = join output_dir (severity_name (base_name log_file) min_severity).
Proof. reflexivity. Qed.

Lemma timerange_output_name (output_dir : string) (start_time end_time : datetime)
    (log_file : string) :
  timerange_output output_dir start_time end_time log_file
  = join output_dir (timerange_name (base_name log_file) start_time end_time).
Proof.
  unfold timerange_output, timerange_name. by rewrite !strftime_stamp.
Qed.

Lemma digit_char_digit (v : Z) : is_digit (digit_char v) = true.
Proof.
  unfold digit_char. pose proof (Z.mod_pos_bound v 10 ltac:(lia)) as H.
  assert (v mod 10 = 0 ∨ v mod 10 = 1 ∨ v mod 10 = 2 ∨ v mod 10 = 3
          ∨ v mod 10 = 4 ∨ v mod 10 = 5 ∨ v mod 10 = 6 ∨ v mod 10 = 7
          ∨ v mod 10 = 8 ∨ v mod 10 = 9)%Z as Hc by lia.
  repeat destruct Hc as [-> | Hc]; try rewrite Hc; reflexivity.
Qed.

Lemma digit_value_digit_char (v : Z) : digit_value (digit_char v) = (v mod 10)%Z.
Proof.
  unfold digit_char. pose proof (Z.mod_pos_bound v 10 ltac:(lia)) as H.
  assert (v mod 10 = 0 ∨ v mod 10 = 1 ∨ v mod 10 = 2 ∨ v mod 10 = 3
          ∨ v mod 10 = 4 ∨ v mod 10 = 5 ∨ v mod 10 = 6 ∨ v mod 10 = 7
          ∨ v mod 10 = 8 ∨ v mod 10 = 9)%Z as Hc by lia.
  repeat destruct Hc as [-> | Hc]; try rewrite Hc; reflexivity.
Qed.

Lemma all_digits_app (s t : string) :
  all_digits (s +:+ t) = all_digits s && all_digits t.
Proof.
  unfold all_digits. induction s as [|c s IH]; [done |].
  rewrite string_app_cons. simpl. by rewrite IH, andb_assoc.
Qed.

Lemma decimal_length (n : nat) (v : Z) : String.length (decimal n v) = n.
Proof.
  revert v; induction n as [|n IH]; intros v; [done |].
  cbn [decimal]. rewrite string_app_length, IH. simpl. lia.
Qed.

Lemma decimal_all_digits (n : nat) (v : Z) : all_digits (decimal n v) = true.
Proof.
  revert v; induction n as [|n IH]; intros v; [done |].
  cbn [decimal]. rewrite all_digits_app, IH. unfold all_digits. simpl.
  by rewrite digit_char_digit.
Qed.

Lemma number_from_app (acc : Z) (s t : string) :
  number_from acc (s +:+ t) = number_from (number_from acc s) t.
Proof.
  revert acc; induction s as [|c s IH]; intros acc; [done |].
  rewrite string_app_cons. simpl. apply IH.
Qed.

(** The digits of [decimal n v] write [v], up to [10 ^ n]. *)
Lemma number_decimal (n : nat) (v : Z) :
  number (decimal n v) = (v mod 10 ^ Z.of_nat n)%Z.
Proof.
  unfold number. revert v; induction n as [|n IH]; intros v.
  - simpl. by rewrite Z.mod_1_r.
  - cbn [decimal]. rewrite number_from_app, IH. simpl number_from.
    rewrite digit_value_digit_char.
    replace (10 ^ Z.of_nat (S n))%Z with (10 * 10 ^ Z.of_nat n)%Z
      by (rewrite Nat2Z.inj_succ, Z.pow_succ_r; lia).
    rewrite Z.rem_mul_r by lia. lia.
Qed.

Lemma digits_no_sep_b : ∀ c, implb (is_digit c) (negb (Ascii.eqb c "/")) = true.
Proof. by_ascii_cases. Qed.

Lemma all_digits_no_sep (s : string) :
  all_digits s = true → contains "/" s = false.
Proof.
  unfold all_digits. induction s as [|c s IH]; [done |]. simpl.
  intros H. apply andb_prop in H as [Hc H]. rewrite (IH H), orb_false_r.
  pose proof (digits_no_sep_b c) as Hb. rewrite Hc in Hb. cbn [implb] in Hb.
  by apply negb_true_iff.
Qed.

Lemma digits_all_digits (fuel : nat) (v : Z) :
  all_digits (digits fuel v) = true.
Proof.
  revert v; induction fuel as [|fuel IH]; intros v; [done |].
  cbn [digits]. destruct (v <? 10)%Z.
  - unfold all_digits. simpl. by rewrite digit_char_digit.
  - rewrite all_digits_app, IH. unfold all_digits. simpl.
    by rewrite digit_char_digit.
Qed.

(** From the year 1000 on the year is written with its four digits. *)
Lemma digits_four (y : Z) :
  (1000 <= y <= 9999)%Z → digits 4 y = decimal 4 y.
Proof.
  intros Hy. cbn [digits decimal].
  assert (y / 10 / 10 / 10 < 10)%Z as H3
    by (repeat apply Z.div_lt_upper_bound; lia).
  assert (10 <= y / 10 / 10)%Z as H2
    by (repeat apply Z.div_le_lower_bound; lia).
  assert (10 <= y / 10)%Z as H1 by (apply Z.div_le_lower_bound; lia).
  rewrite (proj2 (Z.ltb_ge y 10)) by lia.
  rewrite (proj2 (Z.ltb_ge (y / 10) 10)) by lia.
  rewrite (proj2 (Z.ltb_ge (y / 10 / 10) 10)) by lia.
  rewrite (proj2 (Z.ltb_lt (y / 10 / 10 / 10) 10)) by lia.
  by rewrite string_app_nil_l.
Qed.

Lemma stamp_padded (t : datetime) :
  (1000 <= year t <= 9999)%Z → stamp t = padded_stamp t.
Proof. intros H. unfold stamp, padded_stamp. by rewrite digits_four. Qed.

Lemma stamp_no_sep (t : datetime) : contains "/" (stamp t) = false.
Proof.
  unfold stamp. rewrite !contains_app.
  rewrite !(all_digits_no_sep (decimal _ _)) by apply decimal_all_digits.
  rewrite (all_digits_no_sep (digits _ _)) by apply digits_all_digits.
  reflexivity.
Qed.

Lemma truthy_app_r (s t : string) : truthy t = true → truthy (s +:+ t) = true.
Proof. destruct s; [done | by rewrite string_app_cons]. Qed.

Lemma is_name_severity_name (log_file min_severity : string) :
  contains "/" (lower min_severity) = false →
  is_name (severity_name (base_name log_file) min_severity) = true.
Proof.
  intros H. unfold is_name, severity_name.
  rewrite truthy_app_r by done. rewrite !contains_app, base_name_no_sep, H.
  reflexivity.
Qed.

Lemma is_name_timerange_name (log_file : string) (start_time end_time : datetime) :
  is_name (timerange_name (base_name log_file) start_time end_time) = true.
Proof.
  unfold is_name, timerange_name.
  rewrite truthy_app_r by done.
  rewrite !contains_app, base_name_no_sep, !stamp_no_sep. reflexivity.
Qed.

Lemma lower_choice_no_sep (min_severity : string) :
  min_severity ∈ severity_choices → contains "/" (lower min_severity) = false.
Proof.
  unfold severity_choices. rewrite !elem_of_cons, elem_of_nil.
  intros H. repeat destruct H as [-> | H]; done.
Qed.

(** *** Names that end in [.log] *)

Lemma has_non_dot_app (a b x : string) (c : ascii) :
  Ascii.eqb c "." = false →
  has_non_dot (String.length (a +:+ String c b)) ((a +:+ String c b) +:+ x)
  = true.
Proof.
  intros Hc. induction a as [|d a IH].
  - rewrite string_app_nil_l, string_app_cons. simpl. by rewrite Hc.
  - rewrite !string_app_cons. cbn [String.length has_non_dot].
    rewrite IH. apply orb_true_r.
Qed.

(** The base name of [stem.ext] in a directory is [stem], when [stem] is a
    file name with a character [c] other than a dot in it and [ext] has
    neither a dot nor a separator. *)
Lemma base_name_join_ext (d a b ext : string) (c : ascii) :
  Ascii.eqb c "." = false →
  contains "/" (a +:+ String c b) = false →
  contains "." ext = false → contains "/" ext = false →
  base_name (join d ((a +:+ String c b) +:+ String "." ext)) = a +:+ String c b.
Proof.
  intros Hc Hsep Hdot Hsep'. set (stem := a +:+ String c b) in *.
  assert (contains "/" (stem +:+ String "." ext) = false) as Hno.
  { rewrite contains_app, Hsep. cbn [contains]. by rewrite Hsep'. }
  assert (is_name (stem +:+ String "." ext) = true) as Hn.
  { unfold is_name. rewrite truthy_app_r by done. by rewrite Hno. }
  unfold base_name. rewrite basename_join by done.
  unfold splitext. rewrite (rfind_absent "/" _ Hno).
  rewrite rfind_app.
  assert (contains "." (String "." ext) = true) as -> by reflexivity.
  assert (rfind "." (String "." ext) = 0%Z) as ->.
  { cbn [rfind]. rewrite (rfind_absent "." ext Hdot). reflexivity. }
  replace (Z.of_nat (String.length stem) + 0 >? -1)%Z with true
    by (symmetry; apply Z.gtb_lt; lia).
  replace (Z.to_nat (Z.of_nat (String.length stem) + 0 - (-1 + 1)))
    with (String.length stem) by lia.
  replace (Z.to_nat (Z.of_nat (String.length stem) + 0))
    with (String.length stem) by lia.
  change (Z.to_nat (-1 + 1)) with 0%nat. cbn [drop andb]. unfold stem at 1 2.
  rewrite (has_non_dot_app a b (String "." ext) c Hc). fold stem.
  cbn [fst]. apply take_app.
Qed.

Lemma base_name_join_log (d a b : string) (c : ascii) :
  Ascii.eqb c "." = false →
  contains "/" (a +:+ String c b) = false →
  base_name (join d ((a +:+ String c b) +:+ ".log")) = a +:+ String c b.
Proof. intros Hc Hsep. by apply base_name_join_ext. Qed.

(** *** Different names, different files *)

Lemma string_app_inv_head (s a b : string) : s +:+ a = s +:+ b → a = b.
Proof.
  induction s as [|c s IH]; [done |]. rewrite !string_app_cons.
  intros [= H]. by apply IH.
Qed.

Lemma string_app_inv_tail (a b s : string) : a +:+ s = b +:+ s → a = b.
Proof.
  intros H.
  assert (String.length a = String.length b) as Hl.
  { apply (f_equal String.length) in H. rewrite !string_app_length in H. lia. }
  rewrite <- (take_app a s), H, Hl. apply take_app.
Qed.

Lemma join_inj (d n1 n2 : string) :
  is_name n1 = true → is_name n2 = true → join d n1 = join d n2 → n1 = n2.
Proof.
  intros H1 H2. rewrite !join_name by done.
  destruct (_ || _); intros H.
  - by apply string_app_inv_head in H.
  - apply string_app_inv_head in H. by apply string_app_inv_head in H.
Qed.

Lemma timerange_output_inj (d : string) (start_time end_time : datetime)
    (f g : string) :
  timerange_output d start_time end_time f
  = timerange_output d start_time end_time g →
  base_name f = base_name g.
Proof.
  rewrite !timerange_output_name. intros H.
  apply join_inj in H; [| apply is_name_timerange_name..].
  unfold timerange_name in H. by apply string_app_inv_tail in H.
Qed.

Lemma severity_output_inj (d min_severity f g : string) :
  contains "/" (lower min_severity) = false →
  severity_output d min_severity f = severity_output d min_severity g →
  base_name f = base_name g.
Proof.
  intros Hs. rewrite !severity_output_name. intros H.
  apply join_inj in H; [| by apply is_name_severity_name..].
  unfold severity_name in H. by apply string_app_inv_tail in H.
Qed.

(** *** What lies under a directory *)

Lemma startswith_app (p x : string) : startswith p (p +:+ x) = true.
Proof.
  induction p as [|c p IH]; [done |]. rewrite string_app_cons. simpl.
  by rewrite Ascii.eqb_refl.
Qed.

Lemma startswith_app_head (p a b : string) :
  startswith (p +:+ a) (p +:+ b) = startswith a b.
Proof.
  induction p as [|c p IH]; [done |]. rewrite !string_app_cons. simpl.
  by rewrite Ascii.eqb_refl.
Qed.

Lemma startswith_contains (c : ascii) (a n : string) :
  startswith a n = true → contains c a = true → contains c n = true.
Proof.
  revert n; induction a as [|d a IH]; intros [|e n]; simpl; try done.
  intros H. apply andb_prop in H as [Hd H]. apply Ascii.eqb_eq in Hd as <-.
  intros Hc. apply orb_true_iff in Hc as [-> | Hc]; [done |].
  rewrite (IH n H Hc). apply orb_true_r.
Qed.

Lemma under_join (d n : string) :
  truthy d = true → endswith "/" d = false → is_name n = true →
  under d (join d n) = true.
Proof.
  intros Hd He Hn. rewrite join_name, Hd, He by done. simpl.
  unfold under. rewrite <- string_app_assoc. apply startswith_app.
Qed.

(* ===================================================================== *)
(** ** The two passes on the store *)
(* ===================================================================== *)

Lemma open_write_is_Some (p : string) (st : store) :
  is_Some (open_write p st) ↔ writable st p = true.
Proof.
  rewrite open_write_writable.
  destruct (writable st p); split; try done; try by eauto.
Qed.

(** C10. A pass that opens its input and its output leaves the output file
    in the store, empty when no line was written; the output is truncated
    before the first line is read, as a pass whose output is its own input
    shows.  Every file of a run of [split_by_severity] or
    [split_by_timerange] is either reported as failed or has its output
    file in the store. *)
Theorem output_file_created_before_scan :
  (∀ (body : pass → string → pass) log_file output_file st,
     is_Some (open_read log_file st) →
     is_Some (open_write output_file st) →
     is_Some (files (filter_file body log_file output_file st) !! output_file)
     ∧ (∀ text, open_read log_file st = Some text →
                log_file ≠ output_file →
                outfile (foldl body start_pass (readlines text)) = [] →
                files (filter_file body log_file output_file st) !! output_file
                = Some "")
     ∧ (log_file = output_file →
        files (filter_file body log_file output_file st) !! output_file
        = Some ""))
  ∧ (∀ log_files min_severity output_dir st st',
       log st = [] →
       split_by_severity log_files min_severity output_dir st = Done st' →
       ∀ f, f ∈ log_files →
         In (ErrorProcessing f) (log st')
         ∨ is_Some (files st' !! severity_output output_dir min_severity f))
  ∧ (∀ log_files start_time end_time output_dir st st',
       log st = [] →
       split_by_timerange log_files start_time end_time output_dir st
       = Done st' →
       ∀ f, f ∈ log_files →
         In (ErrorProcessing f) (log st')
         ∨ is_Some (files st' !! timerange_output output_dir start_time
                                   end_time f)).
Proof.
  splits.
  - intros body log_file output_file st [text0 Hr] Hw.
    apply open_write_is_Some in Hw. unfold open_read in *.
    destruct (filter_file_cases body log_file output_file st)
      as [(_ & _ & text' & Ht & ->) | ([Hnone | Hnw] & _)];
      [| congruence | congruence].
    cbn [files]. rewrite lookup_insert_eq. splits.
    + eauto.
    + intros text Htext Hne Hempty.
      rewrite lookup_insert_ne in Ht by done.
      assert (text' = text) as -> by congruence.
      unfold filtered. by rewrite Hempty.
    + intros ->. rewrite lookup_insert_eq in Ht. by injection Ht as <-.
  - intros log_files min_severity output_dir st st' _ Hrun f Hf.
    rewrite split_by_severity_filter_files in Hrun.
    destruct (makedirs output_dir st) as [st1|]; [| done].
    injection Hrun as <-.
    destruct (filter_files_reported
                (severity_body (get (upper min_severity) 2))
                (severity_output output_dir min_severity) log_files st1 f Hf)
      as [? | [? _]]; eauto.
  - intros log_files start_time end_time output_dir st st' _ Hrun f Hf.
    rewrite split_by_timerange_filter_files in Hrun.
    destruct (makedirs output_dir st) as [st1|]; [| done].
    injection Hrun as <-.
    destruct (filter_files_reported
                (timerange_body start_time end_time)
                (timerange_output output_dir start_time end_time)
                log_files st1 f Hf)
      as [? | [? _]]; eauto.
Qed.

Lemma output_file_created_before_scan_witness :
  files (filter_file (severity_body 4) "app.log" "out.log"
           (MkStore {[ "app.log" := "INFO started" ]} ∅ [])) !! "out.log"
  = Some "".
Proof.
  apply (proj1 (proj2 (proj1 output_file_created_before_scan
                         (severity_body 4) "app.log" "out.log"
                         (MkStore {[ "app.log" := "INFO started" ]} ∅ [])
                         ltac:(vm_compute; eauto) ltac:(vm_compute; eauto)))
               "INFO started").
  - reflexivity.
  - discriminate.
  - vm_compute. reflexivity.
Defined.

Lemma get_unknown (key : string) (dflt : Z) :
  key ∉ severity_choices → get key dflt = dflt.
Proof.
  intros H. unfold get, SEVERITY_LEVELS.
  by rewrite not_elem_of_list_to_map_1.
Qed.

(** C9. A minimum severity that is none of the eight tokens makes
    [split_by_severity] neither raise nor report: it runs as it does for
    INFO, whose rank is 2, and names the outputs after the token as it was
    given, in lower case. *)
Theorem unknown_severity_defaults_to_info (min_severity : string) :
  upper min_severity ∉ severity_choices →
  get (upper min_severity) 2 = rank "INFO"
  ∧ rank "INFO" = 2%Z
  ∧ (∀ log_files output_dir st,
       split_by_severity log_files min_severity output_dir st
       = match makedirs output_dir st with
         | Failed e st1 => Failed e st1
         | Done st1 =>
             Done (filter_files (severity_body (rank "INFO"))
                     (λ log_file,
                        join output_dir
                             (base_name log_file +:+ "_severity_"
                              +:+ lower min_severity +:+ "_and_above.log"))
                     log_files st1)
         end)
  ∧ (∀ lines,
       outfile (foldl (severity_body (get (upper min_severity) 2))
                      start_pass lines)
       = List.filter (passes_severityb (rank "INFO")) lines)
  ∧ (∀ log_file output_dir text st,
       open_read log_file st = Some text →
       is_Some (open_write (severity_output output_dir min_severity log_file)
                           st) →
       log_file ≠ severity_output output_dir min_severity log_file →
       files (filter_file (severity_body (get (upper min_severity) 2)) log_file
                (severity_output output_dir min_severity log_file) st)
         !! join output_dir
                 (base_name log_file +:+ "_severity_" +:+ lower min_severity
                  +:+ "_and_above.log")
       = Some (text_of (List.filter (passes_severityb (rank "INFO"))
                                    (readlines text)))).
Proof.
  intros Hunknown.
  assert (get (upper min_severity) 2 = rank "INFO") as Hlevel.
  { by rewrite get_unknown. }
  splits.
  - done.
  - reflexivity.
  - intros log_files output_dir st.
    rewrite split_by_severity_filter_files, Hlevel. done.
  - intros lines.
    by rewrite (foldl_pass_start _ _ lines (severity_body_spec _)), Hlevel.
  - intros log_file output_dir text st Hr Hw Hne.
    change (join output_dir _)
      with (severity_output output_dir min_severity log_file).
    rewrite (filter_file_content _ _ _ text) by done.
    by rewrite (foldl_pass_start _ _ _ (severity_body_spec _)), Hlevel.
Qed.

Lemma unknown_severity_defaults_to_info_witness :
  get (upper "verbose") 2 = rank "INFO".
Proof.
  apply (unknown_severity_defaults_to_info "verbose").
  intros H. unfold severity_choices in H.
  repeat (apply elem_of_cons in H as [H | H]; [discriminate H |]).
  by apply elem_of_nil in H.
Defined.

(** The files a run changes are outputs it names. *)
Lemma filter_files_changed (body : pass → string → pass) (out : string → string)
    (log_files : list string) (p : string) (st : store) :
  files (filter_files body out log_files st) !! p ≠ files st !! p →
  ∃ f, f ∈ log_files ∧ p = out f.
Proof.
  intros Hp.
  destruct (decide (Exists (λ f, out f = p) log_files)) as [He | Hn].
  - apply Exists_exists in He as (f & Hf & <-). eauto.
  - exfalso. apply Hp. apply filter_files_other. intros f Hf Heq.
    apply Hn. apply Exists_exists. eauto.
Qed.

Lemma stamp_parts (t : datetime) :
  padded_stamp t
  = (decimal 4 (year t) +:+ decimal 2 (month t) +:+ decimal 2 (day t))
    +:+ "_"
    +:+ (decimal 2 (hour t) +:+ decimal 2 (minute t) +:+ decimal 2 (second t)).
Proof. unfold padded_stamp. by rewrite !string_app_assoc. Qed.

(** C7. A range that starts before the year 1000: [parse_datetime] accepts
    the boundary, and the output of the time-range run is named with the
    year in three digits, [9990102_030405], where the convention
    [YYYYMMDD_HHMMSS] has [09990102_030405]; no file of the name that the
    convention gives is written. *)
Theorem timerange_name_before_year_1000 :
  parse_datetime "0999-01-02 03:04:05" = Ok (MkDatetime 999 1 2 3 4 5 0)
  ∧ timerange_output "out" (MkDatetime 999 1 2 3 4 5 0)
                     (MkDatetime 2025 6 28 10 0 0 0) "app.log"
    = "out/app_timerange_9990102_030405_to_20250628_100000.log"
  ∧ padded_stamp (MkDatetime 999 1 2 3 4 5 0) = "09990102_030405"
  ∧ ∃ st',
      main (listing "out/temp")
           (MkArgs "app.log" "out" None (Some "0999-01-02 03:04:05")
                   (Some "2025-06-28 10:00:00"))
           sample_store
      = (Return 0, st')
      ∧ files st'
          !! "out/app_timerange_9990102_030405_to_20250628_100000.log"
        = Some ("2025-06-28 09:30:05 ERROR disk full" +:+ String LF
                ("2025-06-28 09:31:00 INFO ok" +:+ String LF ""))
      ∧ files st'
          !! "out/app_timerange_09990102_030405_to_20250628_100000.log"
        = None.
Proof.
  splits; [vm_compute; reflexivity.. |].
  destruct (main (listing "out/temp")
              (MkArgs "app.log" "out" None (Some "0999-01-02 03:04:05")
                      (Some "2025-06-28 10:00:00"))
              sample_store) as [code st'] eqn:Hrun.
  vm_compute in Hrun. injection Hrun as <- <-.
  eexists. split; [reflexivity |]. split; vm_compute; reflexivity.
Qed.

(** X22. The names of the outputs.  For an input path that ends in a
    component [{base}.{ext}], the output is named, in the output directory,
    [{base}_severity_{severity in lower case}_and_above.log] in severity
    mode and [{base}_timerange_{stamp of start}_to_{stamp of end}.log] in
    time-range mode.  For a year from 1000 to 9999 the stamp is
    [YYYYMMDD_HHMMSS]: eight digits, an underscore and six digits that
    write the year, the month, the day, the hour, the minute and the
    second.  A run changes no file but those so named, and reports no
    other. *)
Theorem output_names_follow_convention :
  (∀ output_dir min_severity dir a b ext c,
     Ascii.eqb c "." = false →
     contains "/" (a +:+ String c b) = false →
     contains "." ext = false → contains "/" ext = false →
     severity_output output_dir min_severity
       (join dir ((a +:+ String c b) +:+ String "." ext))
     = join output_dir
            ((a +:+ String c b) +:+ "_severity_" +:+ lower min_severity
             +:+ "_and_above.log"))
  ∧ (∀ output_dir start_time end_time dir a b ext c,
       Ascii.eqb c "." = false →
       contains "/" (a +:+ String c b) = false →
       contains "." ext = false → contains "/" ext = false →
       timerange_output output_dir start_time end_time
         (join dir ((a +:+ String c b) +:+ String "." ext))
       = join output_dir
              ((a +:+ String c b) +:+ "_timerange_" +:+ stamp start_time
               +:+ "_to_" +:+ stamp end_time +:+ ".log"))
  ∧ (∀ t, (1000 <= year t <= 9999)%Z → ∃ date clock,
       stamp t = date +:+ "_" +:+ clock
       ∧ String.length date = 8%nat ∧ String.length clock = 6%nat
       ∧ all_digits date = true ∧ all_digits clock = true
       ∧ number (take 4 date) = year t
       ∧ number (take 2 (drop 4 date)) = (month t mod 100)%Z
       ∧ number (drop 6 date) = (day t mod 100)%Z
       ∧ number (take 2 clock) = (hour t mod 100)%Z
       ∧ number (take 2 (drop 2 clock)) = (minute t mod 100)%Z
       ∧ number (drop 4 clock) = (second t mod 100)%Z)
  ∧ (∀ log_files min_severity output_dir st st',
       split_by_severity log_files min_severity output_dir st = Done st' →
       (∀ p, files st' !! p ≠ files st !! p →
             ∃ f, f ∈ log_files
                  ∧ p = join output_dir
                             (base_name f +:+ "_severity_"
                              +:+ lower min_severity +:+ "_and_above.log"))
       ∧ (∀ m t o, In (Filtered m t o) (log st') →
                   In (Filtered m t o) (log st)
                   ∨ ∃ f, f ∈ log_files
                          ∧ o = join output_dir
                                     (base_name f +:+ "_severity_"
                                      +:+ lower min_severity
                                      +:+ "_and_above.log")))
  ∧ (∀ log_files start_time end_time output_dir st st',
       split_by_timerange log_files start_time end_time output_dir st
       = Done st' →
       (∀ p, files st' !! p ≠ files st !! p →
             ∃ f, f ∈ log_files
                  ∧ p = join output_dir
                             (base_name f +:+ "_timerange_"
                              +:+ stamp start_time +:+ "_to_"
                              +:+ stamp end_time +:+ ".log"))
       ∧ (∀ m t o, In (Filtered m t o) (log st') →
                   In (Filtered m t o) (log st)
                   ∨ ∃ f, f ∈ log_files
                          ∧ o = join output_dir
                                     (base_name f +:+ "_timerange_"
                                      +:+ stamp start_time +:+ "_to_"
                                      +:+ stamp end_time +:+ ".log"))).
Proof.
  splits.
  - intros output_dir min_severity dir a b ext c Hc Hsep Hdot Hext.
    rewrite severity_output_name. unfold severity_name.
    by rewrite base_name_join_ext.
  - intros output_dir start_time end_time dir a b ext c Hc Hsep Hdot Hext.
    rewrite timerange_output_name. unfold timerange_name.
    by rewrite base_name_join_ext.
  - intros t Hy. rewrite stamp_padded by done.
    exists (decimal 4 (year t) +:+ decimal 2 (month t) +:+ decimal 2 (day t)),
      (decimal 2 (hour t) +:+ decimal 2 (minute t) +:+ decimal 2 (second t)).
    splits.
    + apply stamp_parts.
    + by rewrite !string_app_length, !decimal_length.
    + by rewrite !string_app_length, !decimal_length.
    + by rewrite !all_digits_app, !decimal_all_digits.
    + by rewrite !all_digits_app, !decimal_all_digits.
    + rewrite take_app_length by (by rewrite decimal_length).
      rewrite (number_decimal 4). apply Z.mod_small.
      change (10 ^ Z.of_nat 4)%Z with 10000%Z. lia.
    + rewrite drop_app_length by (by rewrite decimal_length).
      rewrite take_app_length by (by rewrite decimal_length).
      apply (number_decimal 2).
    + rewrite <- string_app_assoc.
      rewrite drop_app_length
        by (by rewrite string_app_length, !decimal_length).
      apply (number_decimal 2).
    + rewrite take_app_length by (by rewrite decimal_length).
      apply (number_decimal 2).
    + rewrite drop_app_length by (by rewrite decimal_length).
      rewrite take_app_length by (by rewrite decimal_length).
      apply (number_decimal 2).
    + rewrite <- string_app_assoc.
      rewrite drop_app_length
        by (by rewrite string_app_length, !decimal_length).
      apply (number_decimal 2).
  - intros log_files min_severity output_dir st st' Hrun.
    rewrite split_by_severity_filter_files in Hrun.
    destruct (makedirs output_dir st) as [st1|] eqn:Hm; [| done].
    injection Hrun as <-.
    apply makedirs_inv in Hm as (_ & Hfiles & Hlog & _). split.
    + intros p Hp. rewrite <- Hfiles in Hp.
      by apply filter_files_changed in Hp.
    + intros m t o Hev. rewrite <- Hlog.
      by apply filter_files_log in Hev.
  - intros log_files start_time end_time output_dir st st' Hrun.
    rewrite split_by_timerange_filter_files in Hrun.
    destruct (makedirs output_dir st) as [st1|] eqn:Hm; [| done].
    injection Hrun as <-.
    apply makedirs_inv in Hm as (_ & Hfiles & Hlog & _). split.
    + intros p Hp. rewrite <- Hfiles in Hp.
      apply filter_files_changed in Hp as (f & Hf & ->).
      exists f. by rewrite timerange_output_name.
    + intros m t o Hev. rewrite <- Hlog.
      apply filter_files_log in Hev as [? | (f & Hf & ->)]; [by left |].
      right. exists f. by rewrite timerange_output_name.
Qed.

Lemma output_names_follow_convention_witness :
  timerange_output "out" (MkDatetime 2025 6 28 9 0 0 0)
    (MkDatetime 2025 6 28 10 0 0 0)
    (join "/var/log" (("ap" +:+ String "p" ".2025") +:+ String "." "log"))
  = join "out"
         (("ap" +:+ String "p" ".2025") +:+ "_timerange_"
          +:+ stamp (MkDatetime 2025 6 28 9 0 0 0) +:+ "_to_"
          +:+ stamp (MkDatetime 2025 6 28 10 0 0 0) +:+ ".log").
Proof.
  apply (proj1 (proj2 output_names_follow_convention)
               "out" (MkDatetime 2025 6 28 9 0 0 0)
               (MkDatetime 2025 6 28 10 0 0 0)
               "/var/log" "ap" ".2025" "log" "p"%char); reflexivity.
Defined.

(* ===================================================================== *)
(** ** Writing lines and reading them back *)
(* ===================================================================== *)

Lemma plain_cons (c : ascii) (b : string) :
  Ascii.eqb c LF = false → Ascii.eqb c CR = false → plain b = true →
  plain (String c b) = true.
Proof.
  unfold plain. cbn [contains]. intros -> ->. done.
Qed.

Lemma plain_inv (c : ascii) (b : string) :
  plain (String c b) = true →
  Ascii.eqb c LF = false ∧ Ascii.eqb c CR = false ∧ plain b = true.
Proof.
  unfold plain. cbn [contains]. intros H. apply andb_prop in H as [H1 H2].
  apply negb_true_iff, orb_false_iff in H1 as [? H1].
  apply negb_true_iff, orb_false_iff in H2 as [? H2].
  by rewrite H1, H2.
Qed.

Lemma lines_ok_cons_char (c : ascii) (ls : list string) :
  Ascii.eqb c LF = false → Ascii.eqb c CR = false →
  lines_ok ls → lines_ok (cons_char c ls).
Proof.
  intros Hlf Hcr Hls. destruct Hls as [| b Hb Ht | b ls Hb Hls]; simpl.
  - apply lines_last; [by apply plain_cons | done].
  - apply lines_last; [by apply plain_cons | done].
  - rewrite <- string_app_cons. apply lines_cons; [by apply plain_cons | done].
Qed.

Lemma readlines_aux_ok (s : string) :
  ∀ after_cr, lines_ok (readlines_aux after_cr s).
Proof.
  induction s as [|c s IH]; intros after_cr; cbn [readlines_aux];
    [apply lines_nil |].
  destruct (Ascii.eqb c LF) eqn:Hlf.
  - destruct after_cr; [apply IH |].
    apply (lines_cons ""); [done | apply IH].
  - destruct (Ascii.eqb c CR) eqn:Hcr.
    + apply (lines_cons ""); [done | apply IH].
    + by apply lines_ok_cons_char.
Qed.

(** What is read from a file is a list of lines. *)
Lemma readlines_ok (text : string) : lines_ok (readlines text).
Proof. apply readlines_aux_ok. Qed.

Lemma filter_lines_ok (keep : string → bool) (ls : list string) :
  lines_ok ls → lines_ok (List.filter keep ls).
Proof.
  induction 1 as [| b Hb Ht | b ls Hb Hls IH]; simpl.
  - apply lines_nil.
  - destruct (keep b); [by apply lines_last | apply lines_nil].
  - destruct (keep _); [by apply lines_cons | done].
Qed.

Lemma readlines_plain (b : string) :
  plain b = true → truthy b = true → readlines_aux false b = [b].
Proof.
  induction b as [|c b IH]; [done |]. intros Hp _.
  apply plain_inv in Hp as (Hlf & Hcr & Hp). cbn [readlines_aux].
  rewrite Hlf, Hcr. destruct b as [|c' b]; [done |].
  by rewrite IH.
Qed.

Lemma readlines_line (b rest : string) :
  plain b = true →
  readlines_aux false (b +:+ String LF rest)
  = (b +:+ String LF "") :: readlines_aux false rest.
Proof.
  induction b as [|c b IH]; intros Hp.
  - rewrite !string_app_nil_l. cbn [readlines_aux].
    by rewrite Ascii.eqb_refl.
  - apply plain_inv in Hp as (Hlf & Hcr & Hp).
    rewrite !string_app_cons. cbn [readlines_aux]. rewrite Hlf, Hcr.
    by rewrite IH.
Qed.

(** Lines written to a file are read back as they were. *)
Lemma readlines_text_of (ls : list string) :
  lines_ok ls → readlines (text_of ls) = ls.
Proof.
  unfold readlines. induction 1 as [| b Hb Ht | b ls Hb Hls IH]; simpl.
  - done.
  - rewrite string_app_nil_r. by apply readlines_plain.
  - rewrite string_app_assoc. cbn [String.append].
    rewrite string_app_cons, string_app_nil_l.
    by rewrite readlines_line, IH.
Qed.

(** The second pass reads what the first wrote. *)
Lemma filtered_filtered (body1 body2 : pass → string → pass)
    (keep1 keep2 : string → bool) (text : string) :
  (∀ p line, body1 p line
             = if keep1 line then write_line line (count_line p)
               else count_line p) →
  (∀ p line, body2 p line
             = if keep2 line then write_line line (count_line p)
               else count_line p) →
  filtered body2 (filtered body1 text)
  = text_of (List.filter keep2 (List.filter keep1 (readlines text))).
Proof.
  intros H1 H2. unfold filtered.
  rewrite (foldl_pass_start body1 keep1 _ H1). cbn [outfile].
  rewrite readlines_text_of by apply filter_lines_ok, readlines_ok.
  by rewrite (foldl_pass_start body2 keep2 _ H2).
Qed.

(* ===================================================================== *)
(** ** The two passes of a combined run *)
(* ===================================================================== *)

(** As lists of lines the two orders and the joint test agree; the passes
    differ in what they scan. *)
Lemma time_then_severity_joint (start_time end_time : datetime) (min_rank : Z)
    (lines : list string) :
  time_then_severity start_time end_time min_rank lines
  = joint_filter start_time end_time min_rank lines
  ∧ severity_then_time start_time end_time min_rank lines
    = joint_filter start_time end_time min_rank lines.
Proof.
  unfold time_then_severity, severity_then_time, joint_filter.
  induction lines as [|line lines [IH1 IH2]]; [done |]. simpl.
  destruct (in_timerangeb start_time end_time line) eqn:Ht;
    destruct (passes_severityb min_rank line) eqn:Hs; simpl;
    rewrite ?Ht, ?Hs, ?IH1, ?IH2; done.
Qed.

Lemma filter_file_log_mono (body : pass → string → pass)
    (log_file output_file : string) (st : store) (e : log_event) :
  In e (log st) → In e (log (filter_file body log_file output_file st)).
Proof.
  intros He.
  destruct (filter_file_cases body log_file output_file st)
    as [(_ & _ & text & _ & ->) | (_ & ->)]; cbn [log]; by right.
Qed.

(** The counts reported for a file that is read as it was, and whose output
    no other file of the run shares. *)
Lemma filter_files_counted (body : pass → string → pass)
    (out : string → string) (log_files : list string) (f text : string)
    (st : store) :
  f ∈ log_files →
  files st !! f = Some text →
  writable st (out f) = true →
  (∀ g, g ∈ log_files → out g ≠ f) →
  In (Filtered (matched_lines (foldl body start_pass (readlines text)))
               (total_lines (foldl body start_pass (readlines text)))
               (out f))
     (log (filter_files body out log_files st)).
Proof.
  induction log_files as [|g log_files IH] using rev_ind;
    intros Hf Hr Hw Hin; [by apply elem_of_nil in Hf |].
  rewrite filter_files_snoc.
  assert (∀ g' : string, g' ∈ log_files → g' ∈ (log_files ++ [g])%list) as Hsub.
  { intros g' Hg'. apply elem_of_app. by left. }
  destruct (decide (g = f)) as [-> | Hne].
  - destruct (filter_file_cases body f (out f)
                (filter_files body out log_files st))
      as [(_ & _ & text' & Ht & ->) | ([Hnone | Hnw] & _)].
    + cbn [log]. left.
      rewrite lookup_insert_ne in Ht
        by (apply Hin, elem_of_app; right; apply list_elem_of_here).
      rewrite filter_files_other in Ht by (intros g' Hg'; apply Hin; auto).
      congruence.
    + rewrite filter_files_other in Hnone by (intros g' Hg'; apply Hin; auto).
      congruence.
    + rewrite (writable_dirs st) in Hnw by apply filter_files_dirs.
      congruence.
  - apply filter_file_log_mono. apply IH; auto.
    apply elem_of_app in Hf as [Hf | Hf]; [done |].
    apply list_elem_of_singleton in Hf. congruence.
Qed.

(** A file that a run creates is the output of an input that was there. *)
Lemma filter_files_created (body : pass → string → pass)
    (out : string → string) (log_files : list string) (p : string)
    (st : store) :
  (∀ f g, f ∈ log_files → g ∈ log_files → out g ≠ f) →
  files (filter_files body out log_files st) !! p ≠ files st !! p →
  ∃ f, f ∈ log_files ∧ p = out f ∧ is_Some (files st !! f).
Proof.
  induction log_files as [|g log_files IH] using rev_ind;
    intros Hin Hp; [done |].
  assert (∀ g' : string, g' ∈ log_files → g' ∈ (log_files ++ [g])%list) as Hsub.
  { intros g' Hg'. apply elem_of_app. by left. }
  assert (g ∈ (log_files ++ [g])%list) as Hg
    by (apply elem_of_app; right; apply list_elem_of_here).
  rewrite filter_files_snoc in Hp.
  destruct (decide (p = out g)) as [-> | Hne].
  - destruct (filter_file_cases body g (out g)
                (filter_files body out log_files st))
      as [(Hs & _) | (_ & Heq)].
    + exists g. split; [done |]. split; [done |].
      rewrite filter_files_other in Hs by (intros g' Hg'; apply Hin; auto).
      done.
    + rewrite Heq in Hp. cbn [files] in Hp.
      destruct (IH (λ f' g' Hf' Hg', Hin f' g' (Hsub _ Hf') (Hsub _ Hg')) Hp)
        as (f & Hf & Heqf & Hsf).
      exists f. auto.
  - rewrite filter_file_other in Hp by done.
    destruct (IH (λ f' g' Hf' Hg', Hin f' g' (Hsub _ Hf') (Hsub _ Hg')) Hp)
      as (f & Hf & Heqf & Hsf).
    exists f. auto.
Qed.

Lemma find_log_files_found (glob : store → string → list string)
    (d : string) (st : store) :
  files st !! d = None → d ∈ dirs st →
  find_log_files glob d st = Ok (found glob d st).
Proof.
  intros Hf Hd. unfold find_log_files, isfile, isdir.
  rewrite bool_decide_eq_false_2 by (rewrite Hf; by intros [? ?]).
  by rewrite bool_decide_eq_true_2.
Qed.

Lemma rmtree_done (d : string) (st : store) :
  d ∈ dirs st →
  rmtree d st
  = Done (MkStore (filter (λ kv, under d kv.1 = false) (files st))
                  (filter (λ p, under d p = false ∧ p ≠ d) (dirs st))
                  (log st)).
Proof.
  intros Hd. unfold rmtree, isdir. by rewrite bool_decide_eq_true_2.
Qed.

Lemma endswith_app (a s : string) : endswith s (a +:+ s) = true.
Proof.
  unfold endswith. rewrite string_app_length.
  rewrite (proj2 (Nat.leb_le _ _)) by lia.
  rewrite drop_app_length by lia. by rewrite String.eqb_refl.
Qed.

Lemma startswith_dot_app (a rest : string) (c : ascii) :
  Ascii.eqb c "." = false → startswith "." a = false →
  startswith "." (a +:+ String c rest) = false.
Proof.
  intros Hc Ha. destruct a as [|b a].
  - rewrite string_app_nil_l. cbn [startswith].
    rewrite Ascii.eqb_sym. by rewrite Hc.
  - rewrite string_app_cons. cbn [startswith] in *. done.
Qed.

Lemma startswith_length (p s : string) :
  startswith p s = true → (String.length p ≤ String.length s)%nat.
Proof.
  revert s; induction p as [|c p IH]; intros [|d s]; simpl; try done; try lia.
  intros H. apply andb_prop in H as [_ H]. apply IH in H. lia.
Qed.

Lemma under_length (d p : string) :
  under d p = true → (String.length d < String.length p)%nat.
Proof.
  unfold under. intros H. apply startswith_length in H.
  rewrite string_app_length in H. simpl in H. lia.
Qed.

Lemma filter_files_log_mono (body : pass → string → pass)
    (out : string → string) (log_files : list string) (st : store)
    (e : log_event) :
  In e (log st) → In e (log (filter_files body out log_files st)).
Proof.
  intros He. induction log_files as [|g log_files IH] using rev_ind; [done |].
  rewrite filter_files_snoc. by apply filter_file_log_mono.
Qed.

(** The lines of what a pass wrote are the lines it kept. *)
Lemma readlines_filtered (body : pass → string → pass) (keep : string → bool)
    (text : string) :
  (∀ p line, body p line
             = if keep line then write_line line (count_line p)
               else count_line p) →
  readlines (filtered body text) = List.filter keep (readlines text).
Proof.
  intros H. unfold filtered. rewrite (foldl_pass_start body keep _ H).
  cbn [outfile]. apply readlines_text_of, filter_lines_ok, readlines_ok.
Qed.

Lemma timerange_name_log (b : string) (start_time end_time : datetime) :
  timerange_name b start_time end_time
  = (b +:+ String "_" ("timerange_" +:+ stamp start_time +:+ "_to_"
                       +:+ stamp end_time)) +:+ ".log".
Proof.
  unfold timerange_name. rewrite !string_app_assoc, !string_app_cons.
  rewrite !string_app_assoc. reflexivity.
Qed.

(** The base name of a scratch file: the name without its [.log]. *)
Lemma base_name_timerange_output (d : string) (start_time end_time : datetime)
    (f : string) :
  base_name (timerange_output d start_time end_time f)
  = base_name f +:+ "_timerange_" +:+ stamp start_time +:+ "_to_"
    +:+ stamp end_time.
Proof.
  rewrite timerange_output_name, timerange_name_log.
  rewrite base_name_join_log; [reflexivity | done |].
  change (String "_" ?x) with ("_" +:+ x).
  rewrite !contains_app, base_name_no_sep, !stamp_no_sep. reflexivity.
Qed.

Lemma endswith_app_r (s a t : string) :
  endswith s t = true → endswith s (a +:+ t) = true.
Proof.
  unfold endswith. intros H. apply andb_prop in H as [Hl Heq].
  apply Nat.leb_le in Hl. rewrite string_app_length.
  rewrite (proj2 (Nat.leb_le _ _)) by lia.
  replace (String.length a + String.length t - String.length s)%nat
    with (String.length a + (String.length t - String.length s))%nat by lia.
  by rewrite <- drop_drop, drop_app, Heq.
Qed.

(** The listing of a directory is a [glob] of the kind that is taken. *)
Lemma listing_discovers (d : string) :
  truthy d = true → endswith "/" d = false → discovers (listing d) d.
Proof.
  intros Hd He st.
  assert (found (listing d) d st
          = List.filter (λ q, under d q && endswith ".log" q
                              && negb (startswith "." (basename q)))
                        (elements (dom (files st) : gset string))) as ->.
  { unfold found, extensions, listing. cbn [flat_map].
    rewrite String.eqb_refl.
    rewrite !(proj2 (String.eqb_neq _ _));
      [by rewrite !app_nil_r | intros H; by apply join_inj in H..]. }
  split.
  - intros q Hq. apply elem_of_list_filter_bool in Hq as [Hq Hk].
    apply andb_prop in Hk as [Hk _]. apply andb_prop in Hk as [Hk _].
    split; [done |]. left. apply bool_decide_eq_true.
    by apply elem_of_elements, elem_of_dom in Hq.
  - intros name Hn Hdot Hlog Hf. apply elem_of_list_filter_bool. split.
    + apply elem_of_elements, elem_of_dom. by apply bool_decide_eq_true in Hf.
    + rewrite under_join, basename_join, Hdot by done.
      rewrite join_name, Hd, He by done. cbn [negb orb andb].
      rewrite andb_true_r. by do 2 apply endswith_app_r.
Qed.

(** The paths of a directory: a prefix, the directory with a separator at
    its end, and then the name. *)
Lemma join_dir_prefix (d : string) :
  truthy d = true →
  ∃ P, (P = d ∨ P = d +:+ "/")
       ∧ ∀ n, is_name n = true → join d n = P +:+ n.
Proof.
  intros Hd. destruct (endswith "/" d) eqn:He.
  - exists d. split; [by left |]. intros n Hn.
    by rewrite join_name, Hd, He by done.
  - exists (d +:+ "/"). split; [by right |]. intros n Hn.
    rewrite join_name, Hd, He by done. cbn [negb orb].
    by rewrite string_app_assoc.
Qed.

Lemma endswith_sep_temp (P : string) : endswith "/" (P +:+ "temp") = false.
Proof.
  unfold endswith. rewrite string_app_length. simpl.
  replace (String.length P + 4 - 1)%nat
    with (String.length P + 3)%nat by lia.
  replace (P +:+ "temp") with ((P +:+ "tem") +:+ "p")
    by (by rewrite string_app_assoc).
  rewrite drop_app_length by (rewrite string_app_length; simpl; lia).
  apply andb_false_r.
Qed.

(** A name beside [temp] is not below it. *)
Lemma not_under_sibling (P n : string) :
  is_name n = true → under (P +:+ "temp") (P +:+ n) = false.
Proof.
  intros Hn. unfold under. rewrite string_app_assoc, startswith_app_head.
  destruct (startswith ("temp" +:+ "/") n) eqn:Hs; [| done].
  apply (startswith_contains "/") in Hs; [| done].
  apply is_name_inv in Hn as [_ Hn]. congruence.
Qed.

Lemma severity_name_long (base min_severity : string) :
  (4 < String.length (severity_name base min_severity))%nat.
Proof. unfold severity_name. rewrite !string_app_length. simpl. lia. Qed.

(** X23. The combined run where it works.  Taken of [glob]: what it finds
    for the scratch directory is there and below it, and it finds the
    regular files of that directory with a name that ends in [.log] and
    does not start with a dot (as [glob.glob] does where the path of the
    directory holds no wildcard character).  Then, when no regular file
    is in the way of the directories to make, the scratch directory holds
    nothing before the run and no input file, the final outputs are not
    directories, no base name starts with a dot, and no two input files
    share one: the run ends normally, and for every input file that can be
    read its final output
    holds the lines that the severity filter keeps of the lines that the
    time-range filter keeps of the input, in their order.  The run reports
    the two passes in that order: the time-range pass scanned the lines of
    the input, and the severity pass scanned only the lines that the
    time-range pass had kept.  The scratch file is gone once the run is
    over. *)
Theorem combined_filtering_time_then_severity
    (glob : store → string → list string) (log_files : list string)
    (min_severity : string) (start_time end_time : datetime)
    (output_dir : string) (st : store) :
  min_severity ∈ severity_choices →
  truthy output_dir = true →
  discovers glob (scratch output_dir) →
  (∀ a, In a (output_dir :: scratch output_dir
                :: ancestors (scratch output_dir)) →
        files st !! a = None) →
  (∀ p : string, under (scratch output_dir) p = true →
        files st !! p = None ∧ p ∉ dirs st) →
  (∀ f : string, f ∈ log_files →
        under (scratch output_dir) f = false
        ∧ startswith "." (base_name f) = false
        ∧ combined_output output_dir min_severity start_time end_time f
          ∉ dirs st) →
  (∀ f g : string, f ∈ log_files → g ∈ log_files →
        base_name f = base_name g → f = g) →
  ∃ st',
    combined_filtering glob log_files min_severity start_time end_time
                       output_dir st = Done st'
    ∧ ∀ f text, f ∈ log_files → files st !! f = Some text →
        let lines := readlines text in
        let kept := List.filter (in_timerangeb start_time end_time) lines in
        let min_level := get (upper min_severity) 2 in
        files st' !! combined_output output_dir min_severity start_time
                                     end_time f
        = Some (text_of (time_then_severity start_time end_time min_level
                                            lines))
        ∧ In (Filtered (length kept) (length lines)
                       (scratch_output output_dir start_time end_time f))
             (log st')
        ∧ In (Filtered
                (length (time_then_severity start_time end_time min_level
                                            lines))
                (length kept)
                (combined_output output_dir min_severity start_time end_time
                                 f))
             (log st')
        ∧ files st' !! scratch_output output_dir start_time end_time f = None.
Proof.
  intros Hsev Hd Hglob Hclear0 Hfresh Hin Hinj.
  pose proof (lower_choice_no_sep _ Hsev) as Hlow.
  unfold combined_output, scratch_output in *.
  set (T := scratch output_dir) in *.
  destruct (join_dir_prefix output_dir Hd) as (P & HP & Hjoin).
  assert (T = P +:+ "temp") as HT by (by apply Hjoin).
  assert (∃ y, T = output_dir +:+ y) as [y Hy].
  { destruct HP as [-> | ->]; [by exists "temp" |].
    exists ("/" +:+ "temp"). by rewrite HT, string_app_assoc. }
  assert (truthy T = true) as HTt by (rewrite HT; by apply truthy_app_r).
  assert (endswith "/" T = false) as HTe
    by (rewrite HT; apply endswith_sep_temp).
  assert (∀ a, In a (T :: ancestors T) → files st !! a = None) as Hclear
    by (intros a Ha; apply Hclear0; by right).
  set (tb := timerange_body start_time end_time).
  set (tout := timerange_output T start_time end_time) in *.
  set (sb := severity_body (get (upper min_severity) 2)).
  set (sout := severity_output output_dir min_severity) in *.
  assert (∀ f, tout f
               = join T (timerange_name (base_name f) start_time end_time))
    as Htout by (intros; apply timerange_output_name).
  assert (∀ f, under T (tout f) = true) as Hunder.
  { intros f. rewrite Htout. apply under_join; auto.
    apply is_name_timerange_name. }
  (* the time-range pass *)
  set (st0 := MkStore (files st) (dirs st ∪ list_to_set (T :: ancestors T))
                      (log st)).
  assert (makedirs T st = Done st0) as Hmk0 by (by apply makedirs_done).
  set (st1 := filter_files tb tout log_files st0).
  assert (∀ f g : string, f ∈ log_files → g ∈ log_files → tout g ≠ f) as Hio.
  { intros f g Hf Hg Heq. destruct (Hin f Hf) as (Hu & _).
    rewrite <- Heq, Hunder in Hu. done. }
  assert (∀ f text, f ∈ log_files → files st !! f = Some text →
            files st1 !! tout f = Some (filtered tb text)
            ∧ In (Filtered
                    (length (List.filter (in_timerangeb start_time end_time)
                                         (readlines text)))
                    (length (readlines text)) (tout f))
                 (log st1)) as Hpass1.
  { intros f text Hf Hr.
    assert (writable st0 (tout f) = true) as Hw.
    { rewrite Htout. apply (writable_after_makedirs _ _ st);
        [done | apply is_name_timerange_name |].
      rewrite <- Htout. apply Hfresh, Hunder. }
    split.
    - apply filter_files_content; auto.
      intros g Hg Heq. apply (Hinj g f Hg Hf).
      by apply timerange_output_inj in Heq.
    - pose proof (filter_files_counted tb tout log_files f text st0 Hf Hr Hw
                    (λ g Hg, Hio f g Hf Hg)) as Hc.
      unfold tb in Hc.
      rewrite (foldl_pass_start _ _ _
                 (timerange_body_spec start_time end_time)) in Hc.
      exact Hc. }
  assert (dirs st1 = dirs st ∪ list_to_set (T :: ancestors T)) as Hd1
    by apply filter_files_dirs.
  assert (∀ a, In a (T :: ancestors T) → files st1 !! a = None) as Hclear1.
  { intros a Ha. unfold st1. rewrite filter_files_other; [by apply Hclear |].
    intros f Hf Heq. pose proof (under_length _ _ (Hunder f)) as Hl.
    rewrite Heq in Hl.
    destruct Ha as [<- | Ha]; [lia |]. apply ancestors_length in Ha. lia. }
  assert (T ∈ dirs st1) as HTd.
  { rewrite Hd1. apply elem_of_union_r, elem_of_list_to_set.
    apply list_elem_of_here. }
  (* the scratch files *)
  assert (find_log_files glob T st1 = Ok (found glob T st1)) as Hfind.
  { apply find_log_files_found; [apply Hclear1; by left | done]. }
  assert (∀ q : string, q ∈ found glob T st1 →
            ∃ f, f ∈ log_files ∧ q = tout f) as Hsound.
  { intros q Hq. destruct (Hglob st1) as [Hs _].
    destruct (Hs q Hq) as [Hu [Hf | Hdir]].
    - apply bool_decide_eq_true in Hf.
      destruct (filter_files_created tb tout log_files q st0) as (f & ? & ? & _);
        [done | | eauto].
      fold st1. cbn [files st0]. rewrite (proj1 (Hfresh q Hu)).
      intros Heq. rewrite Heq in Hf. by destruct Hf.
    - exfalso. apply bool_decide_eq_true in Hdir. rewrite Hd1 in Hdir.
      apply elem_of_union in Hdir as [Hdir | Hdir];
        [by apply (proj2 (Hfresh q Hu)) |].
      apply elem_of_list_to_set, list_elem_of_In in Hdir.
      pose proof (under_length _ _ Hu).
      destruct Hdir as [<- | Ha]; [lia |]. apply ancestors_length in Ha. lia. }
  assert (∀ f text, f ∈ log_files → files st !! f = Some text →
            tout f ∈ found glob T st1) as Hcomplete.
  { intros f text Hf Hr. destruct (Hglob st1) as [_ Hc]. rewrite Htout.
    apply Hc.
    - apply is_name_timerange_name.
    - unfold timerange_name. apply startswith_dot_app; [done |].
      by apply Hin.
    - rewrite timerange_name_log. apply endswith_app.
    - rewrite <- Htout. apply bool_decide_eq_true.
      rewrite (proj1 (Hpass1 f text Hf Hr)). eauto. }
  (* the severity pass *)
  set (st2 := MkStore (files st1)
                (dirs st1 ∪ list_to_set (output_dir :: ancestors output_dir))
                (log st1)).
  assert (makedirs output_dir st1 = Done st2) as Hmk2.
  { apply makedirs_done; [done |]. intros a Ha. destruct Ha as [<- | Ha].
    - unfold st1. rewrite filter_files_other; [apply Hclear0; by left |].
      intros f Hf Heq. pose proof (under_length _ _ (Hunder f)) as Hl.
      rewrite Heq, Hy, string_app_length in Hl. lia.
    - apply Hclear1. right. rewrite Hy. by apply ancestors_app. }
  set (st3 := filter_files sb sout (found glob T st1) st2).
  assert (∀ q, under T (sout q) = false) as Hbeside.
  { intros q. unfold sout. rewrite severity_output_name.
    rewrite Hjoin, HT by (by apply is_name_severity_name).
    apply not_under_sibling. by apply is_name_severity_name. }
  assert (∀ f text, f ∈ log_files → files st !! f = Some text →
            files st3 !! sout (tout f)
            = Some (text_of (time_then_severity start_time end_time
                               (get (upper min_severity) 2) (readlines text)))
            ∧ In (Filtered
                    (length (time_then_severity start_time end_time
                               (get (upper min_severity) 2) (readlines text)))
                    (length (List.filter (in_timerangeb start_time end_time)
                                         (readlines text)))
                    (sout (tout f)))
                 (log st3)
            ∧ In (Filtered
                    (length (List.filter (in_timerangeb start_time end_time)
                                         (readlines text)))
                    (length (readlines text)) (tout f))
                 (log st3)) as Hpass2.
  { intros f text Hf Hr. destruct (Hpass1 f text Hf Hr) as [Hc1 Hl1].
    pose proof (Hcomplete f text Hf Hr) as Hq.
    assert (writable st2 (sout (tout f)) = true) as Hw.
    { unfold sout. rewrite severity_output_name.
      apply (writable_after_makedirs _ _ st1);
        [done | by apply is_name_severity_name |].
      rewrite <- severity_output_name. fold sout. rewrite Hd1. intros Hdir.
      apply elem_of_union in Hdir as [Hdir | Hdir]; [by apply (Hin f Hf) |].
      apply elem_of_list_to_set, list_elem_of_In in Hdir.
      assert (String.length T < String.length (sout (tout f)))%nat as Hl.
      { unfold sout. rewrite severity_output_name.
        rewrite Hjoin, HT by (by apply is_name_severity_name).
        pose proof (severity_name_long (base_name (tout f)) min_severity).
        rewrite !string_app_length. simpl. lia. }
      destruct Hdir as [Heq | Ha]; [rewrite <- Heq in Hl; lia |].
      apply ancestors_length in Ha. lia. }
    assert (∀ g : string, g ∈ found glob T st1 → sout g ≠ tout f) as Hne.
    { intros g Hg Heq. pose proof (Hbeside g) as Hb.
      rewrite Heq, Hunder in Hb. done. }
    split; [| split].
    - unfold time_then_severity.
      rewrite <- (filtered_filtered tb sb _ _ text
                    (timerange_body_spec _ _) (severity_body_spec _)).
      apply filter_files_content; auto.
      intros g Hg Heq. destruct (Hsound g Hg) as (f' & Hf' & ->).
      apply severity_output_inj in Heq; [| done].
      unfold tout in Heq. rewrite !base_name_timerange_output in Heq.
      apply string_app_inv_tail in Heq. by rewrite (Hinj f' f Hf' Hf Heq).
    - pose proof (filter_files_counted sb sout (found glob T st1) (tout f)
                    (filtered tb text) st2 Hq Hc1 Hw Hne) as Hc.
      rewrite (readlines_filtered tb _ text (timerange_body_spec _ _)) in Hc.
      unfold sb in Hc.
      rewrite (foldl_pass_start _ _ _ (severity_body_spec _)) in Hc.
      exact Hc.
    - by apply filter_files_log_mono. }
  (* the end of the run *)
  exists (MkStore (filter (λ kv, under T kv.1 = false) (files st3))
                  (filter (λ p, under T p = false ∧ p ≠ T) (dirs st3))
                  (log st3)).
  split.
  - unfold combined_filtering. change (join output_dir "temp") with T.
    rewrite split_by_timerange_filter_files, Hmk0. fold tb tout st1.
    rewrite Hfind. rewrite split_by_severity_filter_files, Hmk2.
    fold sb sout st3. apply rmtree_done.
    unfold st3. rewrite filter_files_dirs. cbn [dirs st2].
    by apply elem_of_union_l.
  - intros f text Hf Hr.
    destruct (Hpass2 f text Hf Hr) as (Hc & Hl2 & Hl1).
    cbn [files log]. splits; [| exact Hl1 | exact Hl2 |].
    + apply map_lookup_filter_Some. split; [exact Hc | apply Hbeside].
    + apply map_lookup_filter_None. right. intros x _. cbn.
      rewrite Hunder. done.
Qed.

Lemma combined_filtering_time_then_severity_witness :
  ∃ st',
    combined_filtering (listing "out/temp") ["app.log"] "WARN"
      (MkDatetime 2025 6 28 9 0 0 0) (MkDatetime 2025 6 28 10 0 0 0)
      "out" sample_store = Done st'
    ∧ files st'
        !! "out/app_timerange_20250628_090000_to_20250628_100000_severity_warn_and_above.log"
      = Some ("2025-06-28 09:30:05 ERROR disk full" +:+ String LF "")
    ∧ In (Filtered 2 3
            "out/temp/app_timerange_20250628_090000_to_20250628_100000.log")
         (log st')
    ∧ In (Filtered 1 2
            "out/app_timerange_20250628_090000_to_20250628_100000_severity_warn_and_above.log")
         (log st')
    ∧ files st'
        !! "out/temp/app_timerange_20250628_090000_to_20250628_100000.log"
      = None.
Proof.
  destruct (combined_filtering_time_then_severity (listing "out/temp")
              ["app.log"] "WARN"
              (MkDatetime 2025 6 28 9 0 0 0) (MkDatetime 2025 6 28 10 0 0 0)
              "out" sample_store) as (st' & Hrun & Hout).
  - apply list_elem_of_In. simpl. auto 10.
  - reflexivity.
  - exact (listing_discovers "out/temp" eq_refl eq_refl).
  - intros a Ha. vm_compute in Ha.
    destruct Ha as [<- | [<- | [<- | []]]]; reflexivity.
  - intros p Hp. split; [| apply not_elem_of_empty].
    apply lookup_singleton_ne. intros <-. vm_compute in Hp. discriminate Hp.
  - intros f Hf. apply list_elem_of_singleton in Hf as ->.
    splits; [reflexivity | reflexivity | apply not_elem_of_empty].
  - intros f g Hf Hg _. apply list_elem_of_singleton in Hf, Hg. congruence.
  - exists st'. split; [exact Hrun |].
    specialize (Hout "app.log" sample_log (list_elem_of_here _ _) eq_refl).
    cbv zeta in Hout.
    assert (combined_output "out" "WARN" (MkDatetime 2025 6 28 9 0 0 0)
              (MkDatetime 2025 6 28 10 0 0 0) "app.log"
            = "out/app_timerange_20250628_090000_to_20250628_100000_severity_warn_and_above.log")
      as E1 by (vm_compute; reflexivity).
    assert (scratch_output "out" (MkDatetime 2025 6 28 9 0 0 0)
              (MkDatetime 2025 6 28 10 0 0 0) "app.log"
            = "out/temp/app_timerange_20250628_090000_to_20250628_100000.log")
      as E2 by (vm_compute; reflexivity).
    assert (time_then_severity (MkDatetime 2025 6 28 9 0 0 0)
              (MkDatetime 2025 6 28 10 0 0 0) (get (upper "WARN") 2)
              (readlines sample_log)
            = ["2025-06-28 09:30:05 ERROR disk full" +:+ String LF ""])
      as E3 by (vm_compute; reflexivity).
    assert (List.filter (in_timerangeb (MkDatetime 2025 6 28 9 0 0 0)
                                       (MkDatetime 2025 6 28 10 0 0 0))
                        (readlines sample_log)
            = ["2025-06-28 09:30:05 ERROR disk full" +:+ String LF "";
               "2025-06-28 09:31:00 INFO ok" +:+ String LF ""])
      as E4 by (vm_compute; reflexivity).
    assert (length (readlines sample_log) = 3%nat)
      as E5 by (vm_compute; reflexivity).
    rewrite E1, E2, E3, E4, E5 in Hout. exact Hout.
Defined.

(** C1. Two combined runs of [main] whose output is not the severity filter
    over the time-range filter of the input, with a [glob] that, as
    [glob.glob] does, takes a name that starts with a dot for no match of
    [*.log].  On the input file [.app.log] the run returns 0 and leaves no
    output at all: the scratch file, named after the input, starts with a
    dot, is not found again, and is removed; the severity run of [main] on
    the same file does write its output.  With a file [old.log] in the
    scratch directory before the run, the run filters that file too, and a
    line of the year 1999, far from the range, is in the output
    directory. *)
Theorem combined_run_misses_its_scratch_files :
  time_then_severity (MkDatetime 2025 6 28 9 0 0 0)
    (MkDatetime 2025 6 28 10 0 0 0) (get (upper "WARN") 2)
    (readlines sample_log)
  = ["2025-06-28 09:30:05 ERROR disk full" +:+ String LF ""]
  ∧ (∃ st',
       main (listing "out/temp")
            (MkArgs ".app.log" "out" (Some "WARN")
                    (Some "2025-06-28 09:00:00") (Some "2025-06-28 10:00:00"))
            (MkStore {[ ".app.log" := sample_log ]} ∅ [])
       = (Return 0, st')
       ∧ files st' = {[ ".app.log" := sample_log ]}
       ∧ log st'
         = [Filtered 2 3
              "out/temp/.app_timerange_20250628_090000_to_20250628_100000.log"])
  ∧ (∃ st',
       main (listing "out/temp")
            (MkArgs ".app.log" "out" (Some "WARN") None None)
            (MkStore {[ ".app.log" := sample_log ]} ∅ [])
       = (Return 0, st')
       ∧ files st' !! "out/.app_severity_warn_and_above.log"
         = Some ("2025-06-28 09:30:05 ERROR disk full" +:+ String LF
                 ("2025-06-28 11:00:00 ERROR late" +:+ String LF "")))
  ∧ (∃ st',
       main (listing "out/temp")
            (MkArgs "app.log" "out" (Some "WARN")
                    (Some "2025-06-28 09:00:00") (Some "2025-06-28 10:00:00"))
            (MkStore {[ "app.log" := sample_log;
                        "out/temp/old.log" := "1999-01-01 00:00:00 ERROR old" ]}
                     ∅ [])
       = (Return 0, st')
       ∧ files st' !! "out/old_severity_warn_and_above.log"
         = Some "1999-01-01 00:00:00 ERROR old").
Proof.
  splits.
  - vm_compute. reflexivity.
  - destruct (main (listing "out/temp")
                (MkArgs ".app.log" "out" (Some "WARN")
                        (Some "2025-06-28 09:00:00")
                        (Some "2025-06-28 10:00:00"))
                (MkStore {[ ".app.log" := sample_log ]} ∅ []))
      as [code st'] eqn:Hrun.
    vm_compute in Hrun. injection Hrun as <- <-.
    eexists. split; [reflexivity |]. split; vm_compute; reflexivity.
  - destruct (main (listing "out/temp")
                (MkArgs ".app.log" "out" (Some "WARN") None None)
                (MkStore {[ ".app.log" := sample_log ]} ∅ []))
      as [code st'] eqn:Hrun.
    vm_compute in Hrun. injection Hrun as <- <-.
    eexists. split; [reflexivity |]. vm_compute. reflexivity.
  - destruct (main (listing "out/temp")
                (MkArgs "app.log" "out" (Some "WARN")
                        (Some "2025-06-28 09:00:00")
                        (Some "2025-06-28 10:00:00"))
                (MkStore {[ "app.log" := sample_log;
                            "out/temp/old.log"
                            := "1999-01-01 00:00:00 ERROR old" ]} ∅ []))
      as [code st'] eqn:Hrun.
    vm_compute in Hrun. injection Hrun as <- <-.
    eexists. split; [reflexivity |]. vm_compute. reflexivity.
Qed.

(* ===================================================================== *)
(** ** The order of date-times and the filters of the two passes *)
(* ===================================================================== *)

Lemma lex_compare_trans (a : list Z) :
  ∀ b c, length a = length b → length b = length c →
    lex_compare a b ≠ Gt → lex_compare b c ≠ Gt → lex_compare a c ≠ Gt.
Proof.
  induction a as [|x a IH]; intros [|y b] [|z c] Hab Hbc; simpl in *;
    try done.
  destruct (Z.compare_spec x y) as [-> | Hxy | Hxy]; [| | done].
  - destruct (Z.compare_spec y z) as [-> | Hyz | Hyz]; [| done | done].
    apply IH; lia.
  - destruct (Z.compare_spec y z) as [-> | Hyz | Hyz]; [| | done].
    + intros _ _. by rewrite (proj2 (Z.compare_lt_iff x z)) by lia.
    + intros _ _. by rewrite (proj2 (Z.compare_lt_iff x z)) by lia.
Qed.

Lemma lex_compare_opp (a : list Z) :
  ∀ b, length a = length b → lex_compare b a = CompOpp (lex_compare a b).
Proof.
  induction a as [|x a IH]; intros [|y b] Hab; simpl in *; try done.
  rewrite (Z.compare_antisym x y).
  destruct (x ?= y)%Z; simpl; [apply IH; lia | done | done].
Qed.

Lemma le_trans (a b c : datetime) :
  le a b = true → le b c = true → le a c = true.
Proof.
  unfold le, compare. intros Hab Hbc.
  pose proof (lex_compare_trans (fields a) (fields b) (fields c)
                eq_refl eq_refl) as H.
  destruct (lex_compare (fields a) (fields b)); try done;
    destruct (lex_compare (fields b) (fields c)); try done;
    destruct (lex_compare (fields a) (fields c)); try done;
    exfalso; by apply H.
Qed.

Lemma ge_le (a b : datetime) : ge a b = le b a.
Proof.
  unfold ge, le, compare.
  rewrite (lex_compare_opp (fields a) (fields b) eq_refl).
  by destruct (lex_compare (fields a) (fields b)).
Qed.

Lemma le_total (a b : datetime) : le a b = false → le b a = true.
Proof.
  unfold le, compare.
  rewrite (lex_compare_opp (fields a) (fields b) eq_refl).
  by destruct (lex_compare (fields a) (fields b)).
Qed.

Lemma filter_filter_implies {A : Type} (p q : A → bool) (l : list A) :
  (∀ x, q x = true → p x = true) →
  List.filter q (List.filter p l) = List.filter q l.
Proof.
  intros H. induction l as [|x l IH]; [done |]. simpl.
  destruct (p x) eqn:Hp; simpl.
  - by rewrite IH.
  - destruct (q x) eqn:Hq; [| done]. apply H in Hq. congruence.
Qed.

Lemma filter_none {A : Type} (p : A → bool) (l : list A) :
  (∀ x, p x = false) → List.filter p l = [].
Proof.
  intros H. induction l as [|x l IH]; [done |]. simpl. by rewrite H.
Qed.

Lemma filter_all {A : Type} (p : A → bool) (l : list A) :
  (∀ x, p x = true) → List.filter p l = l.
Proof.
  intros H. induction l as [|x l IH]; [done |]. simpl. by rewrite H, IH.
Qed.

Lemma in_timerangeb_ordered (start_time end_time : datetime) (line : string) :
  in_timerangeb start_time end_time line = true →
  le start_time end_time = true.
Proof.
  unfold in_timerangeb. destruct (extract_timestamp line) as [t|]; [| done].
  intros H. apply andb_prop in H as [H1 H2]. by apply (le_trans _ t).
Qed.

Lemma in_timerangeb_wider (s1 e1 s2 e2 : datetime) (line : string) :
  le s1 s2 = true → le e2 e1 = true →
  in_timerangeb s2 e2 line = true → in_timerangeb s1 e1 line = true.
Proof.
  unfold in_timerangeb. intros Hs He.
  destruct (extract_timestamp line) as [t|]; [| done].
  intros H. apply andb_prop in H as [H1 H2].
  by rewrite (le_trans s1 s2 t), (le_trans t e2 e1).
Qed.

Lemma passes_severityb_lower (m1 m2 : Z) (line : string) :
  (m1 <= m2)%Z →
  passes_severityb m2 line = true → passes_severityb m1 line = true.
Proof.
  unfold passes_severityb. intros Hm.
  destruct (extract_severity line); intros H; apply Z.leb_le in H;
    apply Z.leb_le; lia.
Qed.

Lemma get_nonneg (key : string) : (0 <= get key 0)%Z.
Proof.
  unfold get. destruct (SEVERITY_LEVELS !! key) as [z|] eqn:Hk; [| done].
  apply elem_of_list_to_map_2 in Hk. simpl.
  repeat (apply elem_of_cons in Hk as [[= _ ->] | Hk]; [lia |]).
  by apply elem_of_nil in Hk.
Qed.

Lemma passes_severityb_trace (m : Z) (line : string) :
  (m <= 0)%Z → passes_severityb m line = true.
Proof.
  unfold passes_severityb. intros Hm.
  destruct (extract_severity line) as [sev|]; apply Z.leb_le.
  - unfold rank. pose proof (get_nonneg sev). lia.
  - rewrite debug_rank_value. lia.
Qed.

(** X1. A severity pass over what a severity pass with a lower or equal
    minimum has kept keeps what it keeps of the input: the output for a
    higher minimum can be made from the output for a lower one. *)
Theorem severity_passes_nest (low high : string) (lines : list string) :
  (get (upper low) 2 <= get (upper high) 2)%Z →
  outfile (foldl (severity_body (get (upper high) 2)) start_pass
             (outfile (foldl (severity_body (get (upper low) 2)) start_pass
                             lines)))
  = outfile (foldl (severity_body (get (upper high) 2)) start_pass lines).
Proof.
  intros Hm.
  rewrite !(foldl_pass_start _ _ _ (severity_body_spec _)). cbn [outfile].
  apply filter_filter_implies. intros line. by apply passes_severityb_lower.
Qed.

Lemma severity_passes_nest_witness :
  outfile (foldl (severity_body (get (upper "ERROR") 2)) start_pass
             (outfile (foldl (severity_body (get (upper "warn") 2)) start_pass
                             ["INFO a"; "ERROR b"; "WARN c"])))
  = outfile (foldl (severity_body (get (upper "ERROR") 2)) start_pass
                   ["INFO a"; "ERROR b"; "WARN c"]).
Proof.
  apply (severity_passes_nest "warn" "ERROR"). vm_compute. discriminate.
Defined.

(** X2. A time-range pass over what a pass with a wider range has kept
    keeps what it keeps of the input. *)
Theorem timerange_passes_nest (s1 e1 s2 e2 : datetime) (lines : list string) :
  le s1 s2 = true → le e2 e1 = true →
  outfile (foldl (timerange_body s2 e2) start_pass
             (outfile (foldl (timerange_body s1 e1) start_pass lines)))
  = outfile (foldl (timerange_body s2 e2) start_pass lines).
Proof.
  intros Hs He.
  rewrite !(foldl_pass_start _ _ _ (timerange_body_spec _ _)). cbn [outfile].
  apply filter_filter_implies. intros line. by apply in_timerangeb_wider.
Qed.

Lemma timerange_passes_nest_witness :
  outfile (foldl (timerange_body (MkDatetime 2025 6 28 9 0 0 0)
                                 (MkDatetime 2025 6 28 10 0 0 0)) start_pass
             (outfile (foldl (timerange_body (MkDatetime 2025 6 28 0 0 0 0)
                                             (MkDatetime 2025 6 29 0 0 0 0))
                             start_pass
                             ["2025-06-28 09:30:05 a"; "2025-06-28 12:00:00 b"])))
  = outfile (foldl (timerange_body (MkDatetime 2025 6 28 9 0 0 0)
                                   (MkDatetime 2025 6 28 10 0 0 0)) start_pass
                   ["2025-06-28 09:30:05 a"; "2025-06-28 12:00:00 b"]).
Proof.
  apply timerange_passes_nest; reflexivity.
Defined.

(** X3. [split_by_timerange] does not compare its boundaries: when the end
    lies before the start, the pass reads every line and writes none. *)
Theorem timerange_pass_inverted (start_time end_time : datetime)
    (lines : list string) :
  le start_time end_time = false →
  foldl (timerange_body start_time end_time) start_pass lines
  = MkPass [] 0 (length lines).
Proof.
  intros Hle.
  rewrite (foldl_pass_start _ _ _ (timerange_body_spec _ _)).
  rewrite filter_none; [done |].
  intros line. destruct (in_timerangeb start_time end_time line) eqn:H;
    [| done].
  apply in_timerangeb_ordered in H. congruence.
Qed.

Lemma timerange_pass_inverted_witness :
  foldl (timerange_body (MkDatetime 2025 6 28 10 0 0 0)
                        (MkDatetime 2025 6 28 9 0 0 0)) start_pass
        ["2025-06-28 09:30:05 a"]
  = MkPass [] 0 1.
Proof.
  apply (timerange_pass_inverted (MkDatetime 2025 6 28 10 0 0 0)
           (MkDatetime 2025 6 28 9 0 0 0) ["2025-06-28 09:30:05 a"]).
  reflexivity.
Defined.

(* ===================================================================== *)
(** ** A pass that keeps every line *)
(* ===================================================================== *)

Lemma text_of_cons_char (c : ascii) (ls : list string) :
  text_of (cons_char c ls) = String c (text_of ls).
Proof. destruct ls as [|l ls]; [done |]. simpl. by rewrite string_app_cons. Qed.

(** A text without a carriage return is the text of its lines. *)
Lemma text_of_readlines (text : string) :
  contains CR text = false → text_of (readlines text) = text.
Proof.
  unfold readlines. induction text as [|c text IH]; [done |].
  cbn [contains readlines_aux]. intros H.
  apply orb_false_iff in H as [Hc H].
  destruct (Ascii.eqb c LF) eqn:Hlf.
  - apply Ascii.eqb_eq in Hlf as ->. cbn [text_of].
    rewrite string_app_cons, string_app_nil_l. by rewrite IH.
  - rewrite Hc, text_of_cons_char. by rewrite IH.
Qed.

(** X4. With the minimum TRACE, in any case of its letters, the severity
    pass writes every line it reads; when the text that is read from a file
    has no carriage return, the text that is written is that text.  The
    text of a file is what decoding gives: the program opens its input
    with [errors='ignore'], so bytes that do not decode are not part of it
    and are not written. *)
Theorem trace_pass_copies (min_severity : string) :
  upper min_severity = "TRACE" →
  (∀ lines,
     foldl (severity_body (get (upper min_severity) 2)) start_pass lines
     = MkPass lines (length lines) (length lines))
  ∧ (∀ st log_file output_file text,
       open_read log_file st = Some text →
       is_Some (open_write output_file st) →
       log_file ≠ output_file →
       contains CR text = false →
       files (filter_file (severity_body (get (upper min_severity) 2))
                log_file output_file st) !! output_file
       = Some text).
Proof.
  intros ->.
  assert (∀ lines,
            foldl (severity_body (get "TRACE" 2)) start_pass lines
            = MkPass lines (length lines) (length lines)) as Hall.
  { intros lines. rewrite (foldl_pass_start _ _ _ (severity_body_spec _)).
    by rewrite filter_all by (intros line; by apply passes_severityb_trace). }
  split; [exact Hall |].
  intros st log_file output_file text Hr Hw Hne Hcr.
  rewrite (filter_file_content _ _ _ text) by done.
  rewrite Hall. cbn [outfile]. by rewrite text_of_readlines.
Qed.

Lemma trace_pass_copies_witness :
  foldl (severity_body (get (upper "trace") 2)) start_pass
        ["DEBUG a"; "no severity"; "ERROR b"]
  = MkPass ["DEBUG a"; "no severity"; "ERROR b"] 3 3.
Proof.
  apply (proj1 (trace_pass_copies "trace" eq_refl)).
Defined.

(* ===================================================================== *)
(** ** Runs over several files *)
(* ===================================================================== *)

Lemma filter_files_app (body : pass → string → pass) (out : string → string)
    (l1 l2 : list string) (st : store) :
  filter_files body out (l1 ++ l2) st
  = filter_files body out l2 (filter_files body out l1 st).
Proof. unfold filter_files. apply foldl_app. Qed.

(** The output of a file is that of the last file of the run that writes to
    it. *)
Lemma filter_files_last (body : pass → string → pass) (out : string → string)
    (before after : list string) (g text : string) (st : store) :
  files st !! g = Some text →
  writable st (out g) = true →
  (∀ f : string, f ∈ before → out f ≠ g) →
  out g ≠ g →
  (∀ f : string, f ∈ after → out f ≠ out g) →
  files (filter_files body out (before ++ g :: after) st) !! out g
  = Some (filtered body text).
Proof.
  intros Hr Hw Hin Hg Hafter.
  rewrite (filter_files_app _ _ before (g :: after)).
  change (g :: after) with ([g] ++ after)%list.
  rewrite (filter_files_app _ _ [g] after).
  rewrite filter_files_other by done.
  change (filter_files body out [g] ?s) with (filter_file body g (out g) s).
  destruct (filter_file_cases body g (out g)
              (filter_files body out before st))
    as [(_ & _ & text' & Ht & ->) | ([Hnone | Hnw] & _)].
  - cbn [files]. rewrite lookup_insert_eq.
    rewrite lookup_insert_ne in Ht by done.
    rewrite filter_files_other in Ht by done. congruence.
  - rewrite filter_files_other in Hnone by done. congruence.
  - rewrite (writable_dirs st) in Hnw by apply filter_files_dirs. congruence.
Qed.

(** A file that cannot be read is reported, and its output is left as it
    was. *)
Lemma filter_files_unreadable (body : pass → string → pass)
    (out : string → string) (log_files : list string) (f : string)
    (st : store) :
  f ∈ log_files →
  files st !! f = None →
  (∀ g : string, g ∈ log_files → out g ≠ f) →
  In (ErrorProcessing f) (log (filter_files body out log_files st))
  ∧ ((∀ g : string, g ∈ log_files → out g = out f → g = f) →
     files (filter_files body out log_files st) !! out f
     = files st !! out f).
Proof.
  induction log_files as [|g log_files IH] using rev_ind;
    intros Hf Hr Hin; [by apply elem_of_nil in Hf |].
  rewrite filter_files_snoc.
  assert (∀ g' : string, g' ∈ log_files → g' ∈ (log_files ++ [g])%list) as Hsub.
  { intros g' Hg'. apply elem_of_app. by left. }
  assert (g ∈ (log_files ++ [g])%list) as Hg
    by (apply elem_of_app; right; apply list_elem_of_here).
  destruct (decide (g = f)) as [-> | Hne].
  - destruct (filter_file_cases body f (out f)
                (filter_files body out log_files st))
      as [([x Hs] & _) | (_ & ->)].
    + rewrite filter_files_other in Hs by (intros g' Hg'; apply Hin; auto).
      congruence.
    + cbn [log files]. split; [by left |]. intros Hinj.
      destruct (decide (f ∈ log_files)) as [Hf' | Hf'].
      * apply (IH Hf' Hr (λ g' Hg', Hin g' (Hsub _ Hg'))).
        intros g' Hg'. apply Hinj; auto.
      * apply filter_files_other. intros g' Hg' Heq.
        apply Hf'. by rewrite <- (Hinj g' (Hsub _ Hg') Heq).
  - assert (f ∈ log_files) as Hf'.
    { apply elem_of_app in Hf as [Hf | Hf]; [done |].
      apply list_elem_of_singleton in Hf. congruence. }
    destruct (IH Hf' Hr (λ g' Hg', Hin g' (Hsub _ Hg'))) as [Hlog Hfile].
    split; [by apply filter_file_log_mono |]. intros Hinj.
    rewrite filter_file_other by (intros Heq; apply Hne; by apply Hinj).
    apply Hfile. intros g' Hg'. apply Hinj; auto.
Qed.

(** Two runs from stores with the same directories and the same input files
    leave every path the same, or each as it was. *)
Lemma filter_files_twin (body : pass → string → pass) (out : string → string)
    (log_files : list string) (s s' : store) :
  dirs s' = dirs s →
  (∀ f g : string, f ∈ log_files → g ∈ log_files → out g ≠ f) →
  (∀ f : string, f ∈ log_files → files s !! f = files s' !! f) →
  ∀ p : string,
    files (filter_files body out log_files s) !! p
    = files (filter_files body out log_files s') !! p
    ∨ (files (filter_files body out log_files s) !! p = files s !! p
       ∧ files (filter_files body out log_files s') !! p = files s' !! p).
Proof.
  intros Hd. induction log_files as [|g log_files IH] using rev_ind;
    intros Hin Hsame p; [by right |].
  assert (∀ g' : string, g' ∈ log_files → g' ∈ (log_files ++ [g])%list) as Hsub.
  { intros g' Hg'. apply elem_of_app. by left. }
  assert (g ∈ (log_files ++ [g])%list) as Hg
    by (apply elem_of_app; right; apply list_elem_of_here).
  specialize (IH (λ f' g' Hf' Hg', Hin f' g' (Hsub _ Hf') (Hsub _ Hg'))
                 (λ f' Hf', Hsame f' (Hsub _ Hf'))).
  rewrite !filter_files_snoc.
  set (t := filter_files body out log_files s) in *.
  set (t' := filter_files body out log_files s') in *.
  assert (files t !! g = files t' !! g) as Hrg.
  { unfold t, t'. rewrite !filter_files_other by (intros g' Hg'; apply Hin; auto).
    by apply Hsame. }
  assert (writable t' (out g) = writable t (out g)) as Hwg.
  { apply writable_dirs. unfold t, t'. by rewrite !filter_files_dirs. }
  destruct (filter_file_cases body g (out g) t)
    as [(Hs & Hw & text & Ht & ->) | (Hno & ->)];
    destruct (filter_file_cases body g (out g) t')
      as [(Hs' & Hw' & text' & Ht' & ->) | (Hno' & ->)]; cbn [files].
  - destruct (decide (p = out g)) as [-> | Hne].
    + left. rewrite !lookup_insert_eq.
      rewrite lookup_insert_ne in Ht by (by apply Hin).
      rewrite lookup_insert_ne in Ht' by (by apply Hin).
      congruence.
    + rewrite !lookup_insert_ne by done. apply IH.
  - exfalso. destruct Hno' as [Hn | Hn].
    + rewrite Hrg, Hn in Hs. by destruct Hs.
    + congruence.
  - exfalso. destruct Hno as [Hn | Hn].
    + rewrite <- Hrg, Hn in Hs'. by destruct Hs'.
    + congruence.
  - apply IH.
Qed.

(** A second run over the files of a first leaves the files it left. *)
Lemma filter_files_again (body : pass → string → pass) (out : string → string)
    (log_files : list string) (s s' : store) :
  (∀ f g : string, f ∈ log_files → g ∈ log_files → out g ≠ f) →
  files s' = files (filter_files body out log_files s) →
  dirs s' = dirs s →
  files (filter_files body out log_files s') = files s'.
Proof.
  intros Hin Hf Hd. apply map_eq. intros p.
  assert (∀ f : string, f ∈ log_files → files s !! f = files s' !! f) as Hsame.
  { intros f Hf'. rewrite Hf.
    by rewrite filter_files_other by (intros g Hg; by apply Hin). }
  destruct (filter_files_twin body out log_files s s' Hd Hin Hsame p)
    as [Heq | [_ Heq]]; [| done].
  by rewrite <- Heq, Hf.
Qed.

Lemma startswith_sep_app (a rest : string) (c : ascii) :
  contains "/" a = false → Ascii.eqb c "/" = false →
  startswith "/" (a +:+ String c rest) = false.
Proof.
  intros Ha Hc. destruct a as [|b a].
  - rewrite string_app_nil_l. cbn [startswith].
    rewrite Ascii.eqb_sym. by rewrite Hc.
  - rewrite string_app_cons. cbn [startswith contains] in *.
    apply orb_false_iff in Ha as [Hb _]. rewrite Ascii.eqb_sym. by rewrite Hb.
Qed.

Lemma join_relative (d n : string) :
  startswith "/" n = false →
  join d n = if negb (truthy d) || endswith "/" d then d +:+ n
             else d +:+ "/" +:+ n.
Proof. intros Hn. unfold join. by rewrite Hn. Qed.

Lemma join_relative_length (d n : string) :
  startswith "/" n = false → truthy n = true →
  (String.length d < String.length (join d n))%nat.
Proof.
  intros Hn Ht. rewrite join_relative by done. apply truthy_length in Ht.
  destruct (_ || _); rewrite !string_app_length; simpl; lia.
Qed.

Lemma join_relative_inj (d n1 n2 : string) :
  startswith "/" n1 = false → startswith "/" n2 = false →
  join d n1 = join d n2 → n1 = n2.
Proof.
  intros H1 H2. rewrite !join_relative by done.
  destruct (_ || _); intros H.
  - by apply string_app_inv_head in H.
  - apply string_app_inv_head in H. by apply string_app_inv_head in H.
Qed.

Lemma severity_name_relative (log_file min_severity : string) :
  startswith "/" (severity_name (base_name log_file) min_severity) = false.
Proof.
  unfold severity_name.
  apply (startswith_sep_app _ _ "_"); [apply base_name_no_sep | done].
Qed.

(** The output of the severity pass lies below the output directory, whatever
    the minimum is. *)
Lemma severity_output_length (d min_severity f : string) :
  (String.length d < String.length (severity_output d min_severity f))%nat.
Proof.
  rewrite severity_output_name.
  apply join_relative_length; [apply severity_name_relative |].
  unfold severity_name. by rewrite !truthy_app_r.
Qed.

Lemma timerange_output_length (d : string) (start_time end_time : datetime)
    (f : string) :
  (String.length d
   < String.length (timerange_output d start_time end_time f))%nat.
Proof.
  rewrite timerange_output_name. apply join_name_length.
  apply is_name_timerange_name.
Qed.

(** Files with different base names have different outputs. *)
Lemma severity_output_base (d min_severity f g : string) :
  severity_output d min_severity f = severity_output d min_severity g →
  base_name f = base_name g.
Proof.
  rewrite !severity_output_name. intros H.
  apply join_relative_inj in H; [| apply severity_name_relative..].
  unfold severity_name in H. by apply string_app_inv_tail in H.
Qed.

(** The shape both passes have: the directory is made, then the files are
    filtered one by one. *)
Lemma run_again (body : pass → string → pass) (out : string → string)
    (log_files : list string) (d : string) (st st1 : store) :
  (∀ f, (String.length d < String.length (out f))%nat) →
  (∀ f g : string, f ∈ log_files → g ∈ log_files → out g ≠ f) →
  match makedirs d st with
  | Failed e st0 => Failed e st0
  | Done st0 => Done (filter_files body out log_files st0)
  end = Done st1 →
  ∃ st2,
    match makedirs d st1 with
    | Failed e st0 => Failed e st0
    | Done st0 => Done (filter_files body out log_files st0)
    end = Done st2
    ∧ files st2 = files st1 ∧ dirs st2 = dirs st1.
Proof.
  intros Hlen Hin Hrun.
  destruct (makedirs d st) as [st0 | e st0] eqn:Hmk; [| done].
  injection Hrun as <-.
  apply makedirs_inv in Hmk as (Hd & Hfiles & _ & Hdirs & Hclear).
  set (st1 := filter_files body out log_files st0).
  assert (dirs st1 = dirs st0) as Hd1 by apply filter_files_dirs.
  rewrite (makedirs_done d st1); [| done |].
  - set (s' := MkStore (files st1)
                 (dirs st1 ∪ list_to_set (d :: ancestors d)) (log st1)).
    assert (dirs s' = dirs st0) as Hds.
    { cbn [dirs s']. rewrite Hd1, Hdirs.
      by rewrite <- (assoc_L (∪)), (idemp_L (∪)). }
    eexists. split; [reflexivity |]. split.
    + by apply (filter_files_again body out log_files st0 s').
    + rewrite filter_files_dirs. by rewrite Hds.
  - intros a Ha. unfold st1. rewrite filter_files_other.
    + rewrite Hfiles. by apply Hclear.
    + intros f _ Heq. pose proof (Hlen f) as Hl. rewrite Heq in Hl.
      destruct Ha as [<- | Ha]; [lia |]. apply ancestors_length in Ha. lia.
Qed.

(** X5. Filtering again: a second run over the same input files, with the
    same minimum or range into the same directory, ends as the first did and
    leaves every file and every directory as the first run left it, provided
    that no output of the run is one of its input files. *)
Theorem filtering_again_is_stable :
  (∀ log_files min_severity output_dir st st1,
     split_by_severity log_files min_severity output_dir st = Done st1 →
     (∀ f g : string, f ∈ log_files → g ∈ log_files →
        severity_output output_dir min_severity g ≠ f) →
     ∃ st2,
       split_by_severity log_files min_severity output_dir st1 = Done st2
       ∧ files st2 = files st1 ∧ dirs st2 = dirs st1)
  ∧ (∀ log_files start_time end_time output_dir st st1,
       split_by_timerange log_files start_time end_time output_dir st
       = Done st1 →
       (∀ f g : string, f ∈ log_files → g ∈ log_files →
          timerange_output output_dir start_time end_time g ≠ f) →
       ∃ st2,
         split_by_timerange log_files start_time end_time output_dir st1
         = Done st2
         ∧ files st2 = files st1 ∧ dirs st2 = dirs st1).
Proof.
  split.
  - intros log_files min_severity output_dir st st1 Hrun Hin.
    rewrite split_by_severity_filter_files in Hrun.
    rewrite split_by_severity_filter_files.
    apply (run_again _ _ _ _ st); [| done | done].
    intros f. apply severity_output_length.
  - intros log_files start_time end_time output_dir st st1 Hrun Hin.
    rewrite split_by_timerange_filter_files in Hrun.
    rewrite split_by_timerange_filter_files.
    apply (run_again _ _ _ _ st); [| done | done].
    intros f. apply timerange_output_length.
Qed.

Lemma filtering_again_is_stable_witness :
  ∃ st1 st2,
    split_by_severity ["app.log"] "WARN" "out" sample_store = Done st1
    ∧ split_by_severity ["app.log"] "WARN" "out" st1 = Done st2
    ∧ files st2 = files st1 ∧ dirs st2 = dirs st1.
Proof.
  destruct (split_by_severity ["app.log"] "WARN" "out" sample_store)
    as [st1 | e st1] eqn:Hrun; [| vm_compute in Hrun; discriminate Hrun].
  destruct (proj1 filtering_again_is_stable ["app.log"] "WARN" "out"
              sample_store st1 Hrun) as (st2 & H2 & Hf & Hd).
  - intros f g Hf Hg. apply list_elem_of_singleton in Hf as ->.
    apply list_elem_of_singleton in Hg as ->. vm_compute. discriminate.
  - exists st1, st2. auto.
Defined.

Lemma makedirs_files (d : string) (st st0 : store) :
  makedirs d st = Done st0 → files st0 = files st ∧ log st0 = log st.
Proof. intros H. apply makedirs_inv in H as (_ & ? & ? & _). done. Qed.

(** X6. Input files with the same base name share their output, and the
    last of them in the list gives it its content: what an earlier one wrote
    there is overwritten. *)
Theorem last_file_of_a_base_name_wins
    (before after : list string) (g text min_severity output_dir : string)
    (st st0 : store) :
  makedirs output_dir st = Done st0 →
  files st !! g = Some text →
  is_Some (open_write (severity_output output_dir min_severity g) st0) →
  (∀ f : string, f ∈ (before ++ [g])%list →
     severity_output output_dir min_severity f ≠ g) →
  (∀ f : string, f ∈ after → base_name f ≠ base_name g) →
  (∀ f : string, base_name f = base_name g →
     severity_output output_dir min_severity f
     = severity_output output_dir min_severity g)
  ∧ ∃ st',
      split_by_severity (before ++ g :: after)%list min_severity output_dir st
      = Done st'
      ∧ files st' !! severity_output output_dir min_severity g
        = Some (text_of (List.filter
                           (passes_severityb (get (upper min_severity) 2))
                           (readlines text))).
Proof.
  intros Hmk Hr Hw Hin Hafter. split.
  - intros f Hb. unfold severity_output. by rewrite Hb.
  - rewrite split_by_severity_filter_files, Hmk. eexists. split; [done |].
    destruct (makedirs_files _ _ _ Hmk) as [Hf _].
    rewrite (filter_files_last _ _ _ _ _ text).
    + unfold filtered.
      by rewrite (foldl_pass_start _ _ _ (severity_body_spec _)).
    + by rewrite Hf.
    + by apply open_write_is_Some.
    + intros f Hb. apply Hin, elem_of_app. by left.
    + apply Hin, elem_of_app. right. apply list_elem_of_here.
    + intros f Ha Heq. apply (Hafter f Ha).
      by apply severity_output_base in Heq.
Qed.

Lemma last_file_of_a_base_name_wins_witness :
  ∃ st',
    split_by_severity (["a/app.log"] ++ "b/app.log" :: [])%list "ERROR" "out"
      (MkStore {[ "a/app.log" := "ERROR first"; "b/app.log" := "ERROR second" ]}
               ∅ [])
    = Done st'
    ∧ files st' !! severity_output "out" "ERROR" "b/app.log"
      = Some (text_of (List.filter (passes_severityb (get (upper "ERROR") 2))
                                   (readlines "ERROR second"))).
Proof.
  apply (last_file_of_a_base_name_wins ["a/app.log"] [] "b/app.log"
           "ERROR second" "ERROR" "out"
           (MkStore {[ "a/app.log" := "ERROR first";
                       "b/app.log" := "ERROR second" ]} ∅ [])
           (MkStore {[ "a/app.log" := "ERROR first";
                       "b/app.log" := "ERROR second" ]}
                    (∅ ∪ list_to_set ("out" :: ancestors "out")) [])).
  - reflexivity.
  - reflexivity.
  - vm_compute. eauto.
  - intros f Hf. apply list_elem_of_In in Hf.
    destruct Hf as [<- | [<- | []]]; vm_compute; discriminate.
  - intros f Hf. by apply elem_of_nil in Hf.
Defined.

(** X7. A file that cannot be read does not stop the run: it is reported, its
    output is not created or changed, and the files that can be read are
    filtered as if it were not there. *)
Theorem unreadable_file_is_skipped
    (log_files : list string) (min_severity output_dir : string)
    (st st0 : store) :
  makedirs output_dir st = Done st0 →
  (∀ f g : string, f ∈ log_files → g ∈ log_files →
     severity_output output_dir min_severity g ≠ f) →
  (∀ f g : string, f ∈ log_files → g ∈ log_files →
     base_name f = base_name g → f = g) →
  ∃ st',
    split_by_severity log_files min_severity output_dir st = Done st'
    ∧ (∀ f : string, f ∈ log_files → files st !! f = None →
         In (ErrorProcessing f) (log st')
         ∧ files st' !! severity_output output_dir min_severity f
           = files st !! severity_output output_dir min_severity f)
    ∧ (∀ h text : string, h ∈ log_files → files st !! h = Some text →
         is_Some (open_write (severity_output output_dir min_severity h)
                             st0) →
         files st' !! severity_output output_dir min_severity h
         = Some (text_of (List.filter
                            (passes_severityb (get (upper min_severity) 2))
                            (readlines text)))).
Proof.
  intros Hmk Hin Hinj.
  rewrite split_by_severity_filter_files, Hmk. eexists. split; [done |].
  destruct (makedirs_files _ _ _ Hmk) as [Hf Hl].
  assert (∀ f g : string, f ∈ log_files → g ∈ log_files →
            severity_output output_dir min_severity g
            = severity_output output_dir min_severity f → g = f) as Hout.
  { intros f g Hf' Hg Heq. apply Hinj; auto.
    by apply severity_output_base in Heq. }
  split.
  - intros f Hf' Hr. rewrite <- Hf in Hr |- *.
    destruct (filter_files_unreadable
                (severity_body (get (upper min_severity) 2))
                (severity_output output_dir min_severity) log_files f st0
                Hf' Hr (λ g Hg, Hin f g Hf' Hg)) as [Hlog Hfile].
    split; [done |]. apply Hfile. intros g Hg. by apply Hout.
  - intros h text Hh Hr Hw. rewrite <- Hf in Hr.
    rewrite (filter_files_content _ _ _ _ text); auto.
    + unfold filtered.
      by rewrite (foldl_pass_start _ _ _ (severity_body_spec _)).
    + by apply open_write_is_Some.
Qed.

Lemma unreadable_file_is_skipped_witness :
  ∃ st',
    split_by_severity ["gone.log"; "app.log"] "WARN" "out" sample_store
    = Done st'
    ∧ In (ErrorProcessing "gone.log") (log st')
    ∧ files st' !! severity_output "out" "WARN" "gone.log" = None
    ∧ files st' !! severity_output "out" "WARN" "app.log"
      = Some (text_of (List.filter (passes_severityb (get (upper "WARN") 2))
                                   (readlines sample_log))).
Proof.
  destruct (unreadable_file_is_skipped ["gone.log"; "app.log"] "WARN" "out"
              sample_store
              (MkStore (files sample_store)
                       (∅ ∪ list_to_set ("out" :: ancestors "out")) []))
    as (st' & Hrun & Hbad & Hgood).
  - reflexivity.
  - intros f g Hf Hg. apply list_elem_of_In in Hf, Hg.
    destruct Hf as [<- | [<- | []]]; destruct Hg as [<- | [<- | []]];
      vm_compute; discriminate.
  - intros f g Hf Hg. apply list_elem_of_In in Hf, Hg.
    destruct Hf as [<- | [<- | []]]; destruct Hg as [<- | [<- | []]];
      vm_compute; congruence.
  - exists st'. split; [exact Hrun |].
    destruct (Hbad "gone.log") as [Hlog Hfile];
      [apply list_elem_of_here | reflexivity |].
    split; [exact Hlog |]. split; [exact Hfile |].
    apply Hgood; [| reflexivity | vm_compute; eauto].
    apply list_elem_of_further, list_elem_of_here.
Defined.

(* ===================================================================== *)
(** ** [main] *)
(* ===================================================================== *)

Lemma get_choice (s : string) :
  s ∈ severity_choices → get (upper s) 2 = rank s ∧ truthy s = true.
Proof.
  unfold severity_choices. rewrite !elem_of_cons, elem_of_nil.
  intros H. repeat destruct H as [-> | H]; done.
Qed.

Lemma ge_of_le (a b : datetime) : le b a = true → ge a b = true.
Proof. intros H. by rewrite ge_le. Qed.

Lemma ge_false (a b : datetime) : le b a = false → ge a b = false.
Proof. intros H. by rewrite ge_le. Qed.

(** X8. [main] returns 1 and leaves every file as it was when the
    arguments are well formed and the input path is neither a file nor a
    directory, or no log file is found, or a boundary that is given does not
    parse, or the end is not after the start (a range of one instant is
    refused too). *)
Theorem main_aborts_without_change
    (glob : store → string → list string) (args : Args) (st : store) :
  valid_choice args = true →
  truthy_opt (severity args)
  || truthy_opt (start args) && truthy_opt (end_ args) = true →
  truthy_opt (start args) = truthy_opt (end_ args) →
  (∃ e, find_log_files glob (input args) st = Raise e)
  ∨ find_log_files glob (input args) st = Ok []
  ∨ (truthy_opt (start args) = true
     ∧ ((∃ e, parse_datetime (default "" (start args)) = Raise e)
        ∨ (∃ e, parse_datetime (default "" (end_ args)) = Raise e)
        ∨ ∃ t1 t2, parse_datetime (default "" (start args)) = Ok t1
                   ∧ parse_datetime (default "" (end_ args)) = Ok t2
                   ∧ le t2 t1 = true)) →
  main glob args st = (Return 1, st).
Proof.
  intros Hv Hu Hse Hcase. unfold main. rewrite Hv. cbn [negb].
  rewrite <- Hse in *.
  destruct (truthy_opt (severity args)) eqn:Hsev;
    destruct (truthy_opt (start args)) eqn:Hst; try discriminate Hu;
    cbn [negb andb orb];
    (destruct (find_log_files glob (input args) st) as [[|f lf] | e] eqn:Hfind;
     [done | | done]);
    (destruct Hcase as [[e He] | [He | [Ht Hcase]]];
     [discriminate He | discriminate He | try discriminate Ht]);
    unfold parse_boundaries; rewrite Hst, <- Hse; cbn [andb];
    (destruct Hcase as [[e He] | [[e He] | (t1 & t2 & H1 & H2 & Hle)]];
     [ by rewrite He
     | rewrite He; by destruct (parse_datetime (default "" (start args)))
     | rewrite H1, H2; by rewrite (ge_of_le _ _ Hle) ]).
Qed.

Lemma main_aborts_without_change_witness :
  main (listing "out/temp")
       (MkArgs "app.log" "out" (Some "WARN")
               (Some "2025-06-28 10:00:00") (Some "2025-06-28 10:00:00"))
       sample_store
  = (Return 1, sample_store).
Proof.
  apply main_aborts_without_change; [reflexivity | reflexivity | reflexivity |].
  right. right. split; [reflexivity |]. right. right.
  exists (MkDatetime 2025 6 28 10 0 0 0), (MkDatetime 2025 6 28 10 0 0 0).
  split; [vm_compute; reflexivity |]. split; [vm_compute; reflexivity |].
  reflexivity.
Defined.

(** X9. A severity run of [main]: with a severity of the eight and no
    boundary, once log files are found and the output directory can be made,
    [main] returns 0, whatever happens to the single files; and a file that
    can be read, whose output can be opened, is no input file and is shared
    with no other input file, has its output hold the lines of at least the
    severity asked for, in their order. *)
Theorem main_severity_run
    (glob : store → string → list string) (args : Args) (st st0 : store)
    (min_severity : string) (log_files : list string) :
  severity args = Some min_severity →
  min_severity ∈ severity_choices →
  truthy_opt (start args) = false → truthy_opt (end_ args) = false →
  find_log_files glob (input args) st = Ok log_files →
  log_files ≠ [] →
  makedirs (output args) st = Done st0 →
  ∃ st',
    main glob args st = (Return 0, st')
    ∧ ∀ f text : string,
        f ∈ log_files → files st !! f = Some text →
        is_Some (open_write (severity_output (output args) min_severity f)
                            st0) →
        (∀ g : string, g ∈ log_files →
           severity_output (output args) min_severity g ≠ f) →
        (∀ g : string, g ∈ log_files → base_name g = base_name f → g = f) →
        files st' !! severity_output (output args) min_severity f
        = Some (text_of (List.filter (passes_severityb (rank min_severity))
                                     (readlines text))).
Proof.
  intros Hs Hc Hst He Hfind Hne Hmk.
  destruct (get_choice _ Hc) as [Hrank Ht].
  unfold main, valid_choice, perform_filtering, parse_boundaries.
  rewrite Hs, Hst, He, Hfind. cbn [truthy_opt default andb negb orb].
  unfold id.
  rewrite bool_decide_eq_true_2 by done. rewrite Ht. cbn [negb andb].
  destruct log_files as [|f0 lf]; [done |].
  rewrite split_by_severity_filter_files, Hmk. eexists. split; [done |].
  intros f text Hf Hr Hw Hin Hinj.
  destruct (makedirs_files _ _ _ Hmk) as [Hfiles _].
  rewrite (filter_files_content _ _ _ _ text); auto.
  - unfold filtered.
    rewrite (foldl_pass_start _ _ _ (severity_body_spec _)).
    by rewrite Hrank.
  - by rewrite Hfiles.
  - by apply open_write_is_Some.
  - intros g Hg Heq. apply Hinj; [done |].
    by apply severity_output_base in Heq.
Qed.

Lemma main_severity_run_witness :
  ∃ st',
    main (listing "out/temp") (MkArgs "app.log" "out" (Some "WARN") None None)
         sample_store
    = (Return 0, st')
    ∧ files st' !! severity_output "out" "WARN" "app.log"
      = Some (text_of (List.filter (passes_severityb (rank "WARN"))
                                   (readlines sample_log))).
Proof.
  destruct (main_severity_run (listing "out/temp")
              (MkArgs "app.log" "out" (Some "WARN") None None) sample_store
              (MkStore (files sample_store)
                       (∅ ∪ list_to_set ("out" :: ancestors "out")) [])
              "WARN" ["app.log"]) as (st' & Hrun & Hout).
  - reflexivity.
  - apply list_elem_of_In. simpl. auto 10.
  - reflexivity.
  - reflexivity.
  - reflexivity.
  - discriminate.
  - reflexivity.
  - exists st'. split; [exact Hrun |].
    apply Hout.
    + apply list_elem_of_here.
    + reflexivity.
    + vm_compute. eauto.
    + intros g Hg. apply list_elem_of_singleton in Hg as ->.
      vm_compute. discriminate.
    + intros g Hg _. by apply list_elem_of_singleton in Hg.
Defined.

(** X10. A time-range run of [main]: with no severity and two boundaries
    that parse, the first before the second, once log files are found and
    the output directory can be made, [main] returns 0; and a file that can
    be read, whose output can be opened, is no input file and is shared with
    no other input file, has its output hold the lines with a timestamp
    from the first boundary to the second, both included, in their order. *)
Theorem main_timerange_run
    (glob : store → string → list string) (args : Args) (st st0 : store)
    (a b : string) (start_time end_time : datetime)
    (log_files : list string) :
  severity args = None →
  start args = Some a → end_ args = Some b →
  parse_datetime a = Ok start_time → parse_datetime b = Ok end_time →
  le end_time start_time = false →
  find_log_files glob (input args) st = Ok log_files →
  log_files ≠ [] →
  makedirs (output args) st = Done st0 →
  ∃ st',
    main glob args st = (Return 0, st')
    ∧ ∀ f text : string,
        f ∈ log_files → files st !! f = Some text →
        is_Some (open_write
                   (timerange_output (output args) start_time end_time f)
                   st0) →
        (∀ g : string, g ∈ log_files →
           timerange_output (output args) start_time end_time g ≠ f) →
        (∀ g : string, g ∈ log_files → base_name g = base_name f → g = f) →
        files st' !! timerange_output (output args) start_time end_time f
        = Some (text_of (List.filter (in_timerangeb start_time end_time)
                                     (readlines text))).
Proof.
  intros Hs Ha Hb Hpa Hpb Hlt Hfind Hne Hmk.
  assert (truthy a = true ∧ truthy b = true) as [Hta Htb].
  { split; [destruct a | destruct b]; try done;
      vm_compute in Hpa, Hpb; discriminate. }
  unfold main, valid_choice, perform_filtering, parse_boundaries.
  rewrite Hs, Ha, Hb, Hfind. cbn [truthy_opt default andb negb orb].
  unfold id.
  rewrite Hta, Htb. cbn [negb andb]. rewrite Hpa, Hpb.
  rewrite (ge_false _ _ Hlt).
  destruct log_files as [|f0 lf]; [done |].
  rewrite split_by_timerange_filter_files, Hmk. eexists. split; [done |].
  intros f text Hf Hr Hw Hin Hinj.
  destruct (makedirs_files _ _ _ Hmk) as [Hfiles _].
  rewrite (filter_files_content _ _ _ _ text); auto.
  - unfold filtered.
    by rewrite (foldl_pass_start _ _ _ (timerange_body_spec _ _)).
  - by rewrite Hfiles.
  - by apply open_write_is_Some.
  - intros g Hg Heq. apply Hinj; [done |].
    by apply timerange_output_inj in Heq.
Qed.

Lemma main_timerange_run_witness :
  ∃ st',
    main (listing "out/temp")
         (MkArgs "app.log" "out" None (Some "2025-06-28 09:00")
                 (Some "2025-06-28 10:00:00"))
         sample_store
    = (Return 0, st')
    ∧ files st' !! timerange_output "out" (MkDatetime 2025 6 28 9 0 0 0)
                      (MkDatetime 2025 6 28 10 0 0 0) "app.log"
      = Some (text_of (List.filter
                         (in_timerangeb (MkDatetime 2025 6 28 9 0 0 0)
                                        (MkDatetime 2025 6 28 10 0 0 0))
                         (readlines sample_log))).
Proof.
  destruct (main_timerange_run (listing "out/temp")
              (MkArgs "app.log" "out" None (Some "2025-06-28 09:00")
                      (Some "2025-06-28 10:00:00"))
              sample_store
              (MkStore (files sample_store)
                       (∅ ∪ list_to_set ("out" :: ancestors "out")) [])
              "2025-06-28 09:00" "2025-06-28 10:00:00"
              (MkDatetime 2025 6 28 9 0 0 0) (MkDatetime 2025 6 28 10 0 0 0)
              ["app.log"]) as (st' & Hrun & Hout).
  - reflexivity.
  - reflexivity.
  - reflexivity.
  - vm_compute. reflexivity.
  - vm_compute. reflexivity.
  - reflexivity.
  - reflexivity.
  - discriminate.
  - reflexivity.
  - exists st'. split; [exact Hrun |].
    apply Hout.
    + apply list_elem_of_here.
    + reflexivity.
    + vm_compute. eauto.
    + intros g Hg. apply list_elem_of_singleton in Hg as ->.
      vm_compute. discriminate.
    + intros g Hg _. by apply list_elem_of_singleton in Hg.
Defined.

(* ===================================================================== *)
(** ** More on the combined run *)
(* ===================================================================== *)

(** X11. A combined run that ends normally leaves nothing in the scratch
    directory [temp] of the output directory, and not the directory either:
    what was there before the run is removed with what the run put
    there. *)
Theorem combined_run_clears_scratch
    (glob : store → string → list string) (log_files : list string)
    (min_severity : string) (start_time end_time : datetime)
    (output_dir : string) (st st' : store) :
  combined_filtering glob log_files min_severity start_time end_time
                     output_dir st = Done st' →
  (join output_dir "temp" ∉ dirs st')
  ∧ ∀ p : string, under (join output_dir "temp") p = true →
      files st' !! p = None ∧ p ∉ dirs st'.
Proof.
  unfold combined_filtering.
  destruct (split_by_timerange _ _ _ _ _) as [st1 | e st1]; [| done].
  destruct (find_log_files _ _ _) as [temp_files | e]; [| done].
  destruct (split_by_severity _ _ _ _) as [st2 | e st2]; [| done].
  unfold rmtree. destruct (isdir st2 _); [| done]. intros [= <-].
  cbn [files dirs]. split.
  - rewrite elem_of_filter. by intros [[_ ?] _].
  - intros p Hp. split.
    + apply map_lookup_filter_None. right. intros x _ Hf.
      change (under (join output_dir "temp") p = false) in Hf. congruence.
    + rewrite elem_of_filter. intros [[Hu _] _]. congruence.
Qed.

Lemma combined_run_clears_scratch_witness :
  ∃ st',
    combined_filtering (listing "out/temp") ["app.log"] "WARN"
      (MkDatetime 2025 6 28 9 0 0 0) (MkDatetime 2025 6 28 10 0 0 0) "out"
      (MkStore {[ "app.log" := sample_log; "out/temp/old.txt" := "kept" ]}
               ∅ [])
    = Done st'
    ∧ files st' !! "out/temp/old.txt" = None.
Proof.
  destruct (combined_filtering (listing "out/temp") ["app.log"] "WARN"
              (MkDatetime 2025 6 28 9 0 0 0) (MkDatetime 2025 6 28 10 0 0 0)
              "out"
              (MkStore {[ "app.log" := sample_log;
                          "out/temp/old.txt" := "kept" ]} ∅ []))
    as [st' | e st'] eqn:Hrun; [| vm_compute in Hrun; discriminate Hrun].
  exists st'. split; [reflexivity |].
  apply (combined_run_clears_scratch _ _ _ _ _ _ _ _ Hrun). reflexivity.
Defined.

(** X12. The final output of a combined run is named after the scratch file
    it is made from: in the output directory,
    [{base}_timerange_{start}_to_{end}_severity_{severity}_and_above.log],
    where [{base}] is the base name of the input file and [{start}] and
    [{end}] are the boundaries as [strftime('%Y%m%d_%H%M%S')] writes them;
    for years from 1000 to 9999 these are [YYYYMMDD_HHMMSS]. *)
Theorem combined_output_name (output_dir min_severity : string)
    (start_time end_time : datetime) (log_file : string) :
  severity_output output_dir min_severity
    (timerange_output (join output_dir "temp") start_time end_time log_file)
  = join output_dir
         (base_name log_file +:+ "_timerange_"
          +:+ strftime start_time "%Y%m%d_%H%M%S" +:+ "_to_"
          +:+ strftime end_time "%Y%m%d_%H%M%S" +:+ "_severity_"
          +:+ lower min_severity +:+ "_and_above.log")
  ∧ ((1000 <= year start_time <= 9999)%Z →
     (1000 <= year end_time <= 9999)%Z →
     severity_output output_dir min_severity
       (timerange_output (join output_dir "temp") start_time end_time
                         log_file)
     = join output_dir
            (base_name log_file +:+ "_timerange_" +:+ padded_stamp start_time
             +:+ "_to_" +:+ padded_stamp end_time +:+ "_severity_"
             +:+ lower min_severity +:+ "_and_above.log")).
Proof.
  assert (severity_output output_dir min_severity
            (timerange_output (join output_dir "temp") start_time end_time
                              log_file)
          = join output_dir
                 (base_name log_file +:+ "_timerange_" +:+ stamp start_time
                  +:+ "_to_" +:+ stamp end_time +:+ "_severity_"
                  +:+ lower min_severity +:+ "_and_above.log")) as H.
  { unfold severity_output. rewrite base_name_timerange_output.
    by rewrite !string_app_assoc. }
  split.
  - by rewrite !strftime_stamp.
  - intros Hs He. by rewrite H, !stamp_padded.
Qed.

Lemma combined_output_name_witness :
  severity_output "out" "WARN"
    (timerange_output (join "out" "temp") (MkDatetime 2025 6 28 9 0 0 0)
                      (MkDatetime 2025 6 28 10 0 0 0) "app.log")
  = join "out"
         (base_name "app.log" +:+ "_timerange_"
          +:+ padded_stamp (MkDatetime 2025 6 28 9 0 0 0) +:+ "_to_"
          +:+ padded_stamp (MkDatetime 2025 6 28 10 0 0 0) +:+ "_severity_"
          +:+ lower "WARN" +:+ "_and_above.log").
Proof.
  apply (proj2 (combined_output_name "out" "WARN"
                  (MkDatetime 2025 6 28 9 0 0 0)
                  (MkDatetime 2025 6 28 10 0 0 0) "app.log"));
    simpl; lia.
Defined.

(* ===================================================================== *)
(** ** The case of the minimum severity *)
(* ===================================================================== *)

Lemma tolower_toupper_b :
  ∀ c d, implb (Ascii.eqb (tolower c) (tolower d))
               (String.eqb (toupper c) (toupper d)) = true.
Proof. by_ascii_cases. Qed.

Lemma lower_eq_upper (a : string) :
  ∀ b, lower a = lower b → upper a = upper b.
Proof.
  induction a as [|c a IH]; intros [|d b]; simpl; try done.
  intros [= Hc Hs]. pose proof (tolower_toupper_b c d) as H.
  rewrite Hc, Ascii.eqb_refl in H. simpl in H.
  apply String.eqb_eq in H. by rewrite H, (IH b Hs).
Qed.

(** X13. [split_by_severity] takes its minimum in any case of its letters:
    two minimums that differ only in case give the same run, with the same
    lines kept and the same output names. *)
Theorem min_severity_any_case (a b : string) (log_files : list string)
    (output_dir : string) (st : store) :
  lower a = lower b →
  split_by_severity log_files a output_dir st
  = split_by_severity log_files b output_dir st.
Proof.
  intros H. unfold split_by_severity, severity_output.
  by rewrite (lower_eq_upper a b H), H.
Qed.

Lemma min_severity_any_case_witness :
  split_by_severity ["app.log"] "Warn" "out" sample_store
  = split_by_severity ["app.log"] "WARN" "out" sample_store.
Proof. apply min_severity_any_case. reflexivity. Defined.

(* ===================================================================== *)
(** ** The boundary formats on a date and on a date with a clock *)
(* ===================================================================== *)

Lemma pattern_date_only : pattern "%Y-%m-%d" = Some (date_re 0 Eps).
Proof. reflexivity. Qed.

Lemma pattern_date_hm : pattern "%Y-%m-%d %H:%M" = Some (date_re 0 hm_re).
Proof. reflexivity. Qed.

Lemma space_on_empty (r : regex) (pv : option ascii)
    (g : list (string * string)) :
  rmatch true (Seq (Plus is_space) r) (MState pv "" g) = [].
Proof. by rewrite rmatch_Seq. Qed.

(** A two-digit directive at the end of the pattern. *)
Lemma field_step_last (d : ascii) (pv : option ascii) (a b : ascii)
    (s : string) (g : list (string * string)) :
  In d two_digit_directives → is_digit a = true → is_digit b = true →
  head_state (rmatch true (Seq (re_of d) Eps)
                (MState pv (String a (String b s)) g))
  = if valid2 d a b
    then Some (MState (Some b) s ((String d "", two a b) :: g))
    else if valid1 d a
         then Some (MState (Some a) (String b s)
                           ((String d "", String a "") :: g))
         else None.
Proof.
  intros Hd Ha Hb. rewrite field_step by done. cbn [rmatch map].
  by destruct (valid2 d a b), (valid1 d a).
Qed.

Section Boundary.
Variables y1 y2 y3 y4 m1 m2 d1 d2 : ascii.
Hypothesis Hy1 : is_digit y1 = true.
Hypothesis Hy2 : is_digit y2 = true.
Hypothesis Hy3 : is_digit y3 = true.
Hypothesis Hy4 : is_digit y4 = true.
Hypothesis Hm1 : is_digit m1 = true.
Hypothesis Hm2 : is_digit m2 = true.
Hypothesis Hd1 : is_digit d1 = true.
Hypothesis Hd2 : is_digit d2 = true.

(** The format of a date alone reads a date, and nothing that has a
    tail. *)
Lemma strptime_date_only (tail : string) :
  strptime (stamp_text 0 y1 y2 y3 y4 m1 m2 d1 d2 tail) "%Y-%m-%d"
  = if truthy tail then None
    else make (val4 y1 y2 y3 y4) (val2 m1 m2) (val2 d1 d2) 0 0 0 0.
Proof.
  rewrite (strptime_head _ _ _ pattern_date_only).
  unfold date_re, stamp_text, sep_of.
  rewrite year_step, head_state_prepend by done.
  rewrite lit_step. cbn [char_eq]. rewrite Ascii.eqb_refl, head_state_prepend.
  rewrite field_step_strict;
    [| apply rejects_digit_Lit; simpl; auto | simpl; auto 10 | done | done].
  destruct (valid2 "m" m1 m2) eqn:Vm; cycle 1.
  { destruct (truthy tail); [done |]. symmetry.
    apply (stamp_value_refused y1 y2 y3 y4 m1 m2 d1 d2 "0" "0" "0" "0" "0" "0"
             None). by rewrite Vm. }
  rewrite head_state_prepend.
  rewrite lit_step. cbn [char_eq]. rewrite Ascii.eqb_refl, head_state_prepend.
  rewrite field_step_last by (simpl; auto 10).
  destruct (valid2 "d" d1 d2) eqn:Vd.
  - cbn [rest groups]. destruct (truthy tail); [done |].
    unfold fields_of, field, fraction. simpl.
    by rewrite !int_two, int_four by done.
  - assert (make (val4 y1 y2 y3 y4) (val2 m1 m2) (val2 d1 d2) 0 0 0 0 = None)
      as ->.
    { apply (stamp_value_refused y1 y2 y3 y4 m1 m2 d1 d2 "0" "0" "0" "0" "0"
               "0" None). by rewrite Vm, Vd. }
    destruct (valid1 "d" d1); [| by destruct (truthy tail)].
    cbn [rest truthy]. by destruct (truthy tail).
Qed.

(** The formats with a clock read no date alone. *)
Lemma strptime_clock_on_date (r : regex) (fmt : string) :
  pattern fmt = Some (date_re 0 (Seq (Plus is_space) r)) →
  strptime (stamp_text 0 y1 y2 y3 y4 m1 m2 d1 d2 "") fmt = None.
Proof.
  intros Hp. rewrite (strptime_head _ _ _ Hp).
  rewrite date_head_same by (done || lia || apply rejects_digit_space).
  rewrite space_on_empty. by destruct (_ && _).
Qed.

Variable ws : string.
Variables h1 h2 mi1 mi2 : ascii.
Hypothesis Hws : all_spaces ws = true.
Hypothesis Hws' : truthy ws = true.
Hypothesis Hh1 : is_digit h1 = true.
Hypothesis Hh2 : is_digit h2 = true.
Hypothesis Hmi1 : is_digit mi1 = true.
Hypothesis Hmi2 : is_digit mi2 = true.

Lemma hm_head (pv : option ascii) (tail : string)
    (g : list (string * string)) :
  head_state (rmatch true hm_re (MState pv (hm_text ws h1 h2 mi1 mi2 tail) g))
  = if valid2 "H" h1 h2
    then Some (if valid2 "M" mi1 mi2
               then MState (Some mi2) tail
                           (("M", two mi1 mi2) :: ("H", two h1 h2) :: g)
               else MState (Some mi1) (String mi2 tail)
                           (("M", String mi1 "") :: ("H", two h1 h2) :: g))
    else None.
Proof.
  unfold hm_re, hm_text.
  rewrite (space_step _ ws h1) by
    (try apply hour_rejects_space; try apply digit_not_space; done).
  rewrite head_state_prepend.
  rewrite field_step_strict;
    [| apply rejects_digit_Lit; simpl; auto 10 | simpl; auto 10 | done | done].
  destruct (valid2 "H" h1 h2); [| done]. rewrite head_state_prepend.
  rewrite lit_step. cbn [char_eq]. rewrite Ascii.eqb_refl, head_state_prepend.
  rewrite field_step_last by (simpl; auto 10).
  by destruct (valid2 "M" mi1 mi2).
Qed.

(** The format to the minute on a date with a clock: it reads the clock
    when nothing follows the minute. *)
Lemma strptime_date_hm (tail : string) :
  strptime (stamp_text 0 y1 y2 y3 y4 m1 m2 d1 d2
              (hm_text ws h1 h2 mi1 mi2 tail)) "%Y-%m-%d %H:%M"
  = if truthy tail then None
    else make (val4 y1 y2 y3 y4) (val2 m1 m2) (val2 d1 d2)
              (val2 h1 h2) (val2 mi1 mi2) 0 0.
Proof.
  rewrite (strptime_head _ _ _ pattern_date_hm).
  rewrite date_head_same by (done || lia || apply rejects_digit_space).
  assert (∀ b : bool,
            b = false →
            valid2 "m" m1 m2 && valid2 "d" d1 d2 && valid2 "H" h1 h2
            && valid2 "M" mi1 mi2 = false →
            None = (if truthy tail then None
                    else make (val4 y1 y2 y3 y4) (val2 m1 m2) (val2 d1 d2)
                              (val2 h1 h2) (val2 mi1 mi2) 0 0)) as Hno.
  { intros b _ Hv. destruct (truthy tail); [done |]. symmetry.
    apply (stamp_value_refused y1 y2 y3 y4 m1 m2 d1 d2 h1 h2 mi1 mi2 "0" "0"
             None). by rewrite Hv. }
  destruct (valid2 "m" m1 m2) eqn:Vm; [| by apply (Hno false)].
  destruct (valid2 "d" d1 d2) eqn:Vd; [| by apply (Hno false)].
  cbn [andb]. rewrite hm_head.
  destruct (valid2 "H" h1 h2) eqn:VH; [| by apply (Hno false)].
  destruct (valid2 "M" mi1 mi2) eqn:VM; cycle 1.
  { cbn [rest truthy]. by apply (Hno false). }
  cbn [rest groups]. destruct (truthy tail); [done |].
  unfold fields_of, field, fraction. simpl.
  by rewrite !int_two, int_four by done.
Qed.

(** The formats to the second read no clock that ends at the minute. *)
Lemma strptime_clock_on_hm (frac : bool) :
  strptime (stamp_text 0 y1 y2 y3 y4 m1 m2 d1 d2
              (hm_text ws h1 h2 mi1 mi2 "")) (format_of 0 frac) = None.
Proof.
  rewrite (strptime_head _ _ _ (pattern_format_of 0 frac ltac:(lia))).
  rewrite date_head_same by (done || lia || apply clock_rejects_digit).
  destruct (_ && _); [| done].
  unfold clock_re, hm_text.
  rewrite (space_step _ ws h1) by
    (try apply hour_rejects_space; try apply digit_not_space; done).
  rewrite head_state_prepend.
  rewrite field_step_strict;
    [| apply rejects_digit_Lit; simpl; auto 10 | simpl; auto 10 | done | done].
  destruct (valid2 "H" h1 h2); [| done]. rewrite head_state_prepend.
  rewrite lit_step. cbn [char_eq]. rewrite Ascii.eqb_refl, head_state_prepend.
  rewrite field_step_strict;
    [| apply rejects_digit_Lit; simpl; auto 10 | simpl; auto 10 | done | done].
  destruct (valid2 "M" mi1 mi2); [| done]. rewrite head_state_prepend.
  by rewrite lit_step_end.
Qed.

End Boundary.

(** X15. What [parse_datetime] makes of a boundary: a date [YYYY-MM-DD]
    alone is the midnight that starts the day; a date with [HH:MM] is that
    minute at second 0; a date with [HH:MM:SS], with or without three digits
    of fraction, is the date-time it writes.  White space of any kind and
    length may stand between the date and the clock.  The text is refused,
    with [ValueError], exactly when the digits write no day of the calendar
    or no time of the day. *)
Theorem parse_datetime_boundary_values
    (y1 y2 y3 y4 m1 m2 d1 d2 : ascii) (ws : string)
    (h1 h2 mi1 mi2 s1 s2 : ascii) (f : option (ascii * ascii * ascii)) :
  is_digit y1 = true → is_digit y2 = true → is_digit y3 = true →
  is_digit y4 = true → is_digit m1 = true → is_digit m2 = true →
  is_digit d1 = true → is_digit d2 = true →
  all_spaces ws = true → truthy ws = true →
  is_digit h1 = true → is_digit h2 = true → is_digit mi1 = true →
  is_digit mi2 = true → is_digit s1 = true → is_digit s2 = true →
  frac_digits f = true →
  parse_datetime (stamp_text 0 y1 y2 y3 y4 m1 m2 d1 d2 "")
  = parsed (make (val4 y1 y2 y3 y4) (val2 m1 m2) (val2 d1 d2) 0 0 0 0)
  ∧ parse_datetime (stamp_text 0 y1 y2 y3 y4 m1 m2 d1 d2
                      (hm_text ws h1 h2 mi1 mi2 ""))
    = parsed (make (val4 y1 y2 y3 y4) (val2 m1 m2) (val2 d1 d2)
                   (val2 h1 h2) (val2 mi1 mi2) 0 0)
  ∧ parse_datetime (stamp_text 0 y1 y2 y3 y4 m1 m2 d1 d2
                      (clock_text ws h1 h2 mi1 mi2 s1 s2 (frac_text f)))
    = parsed (make (val4 y1 y2 y3 y4) (val2 m1 m2) (val2 d1 d2)
                   (val2 h1 h2) (val2 mi1 mi2) (val2 s1 s2) (frac_value f)).
Proof.
  intros Hy1 Hy2 Hy3 Hy4 Hm1 Hm2 Hd1 Hd2 Hws Hws' Hh1 Hh2 Hmi1 Hmi2 Hs1 Hs2 Hf.
  assert (∀ tail, truthy (hm_text ws h1 h2 mi1 mi2 tail) = true) as Hhm.
  { intros tail. unfold hm_text. by apply truthy_app_r. }
  unfold parse_datetime, boundary_formats. cbn [parse_datetime_from].
  change "%Y-%m-%d %H:%M:%S.%f" with (format_of 0 true).
  change "%Y-%m-%d %H:%M:%S" with (format_of 0 false).
  splits.
  - rewrite !(strptime_clock_on_date _ _ _ _ _ _ _ _ Hy1 Hy2 Hy3 Hy4 Hm1 Hm2
                Hd1 Hd2 _ _ (pattern_format_of 0 _ ltac:(lia))).
    rewrite (strptime_clock_on_date _ _ _ _ _ _ _ _ Hy1 Hy2 Hy3 Hy4 Hm1 Hm2
               Hd1 Hd2 _ _ pattern_date_hm).
    rewrite strptime_date_only by done. cbn [truthy].
    by destruct (make _ _ _ _ _ _ _).
  - rewrite !strptime_clock_on_hm by done.
    rewrite strptime_date_hm by done. cbn [truthy].
    rewrite strptime_date_only, Hhm by done.
    by destruct (make _ _ _ _ _ _ _).
  - rewrite !(strptime_stamp 0 0) by (done || lia).
    change (clock_text ws h1 h2 mi1 mi2 s1 s2 (frac_text f))
      with (hm_text ws h1 h2 mi1 mi2
              (String ":" (String s1 (String s2 (frac_text f))))).
    rewrite strptime_date_hm by done. cbn [truthy].
    rewrite strptime_date_only, Hhm by done.
    fold (stamp_value y1 y2 y3 y4 m1 m2 d1 d2 h1 h2 mi1 mi2 s1 s2 f).
    destruct f as [[[a b] c]|]; cbn [andb Nat.eqb Bool.eqb];
      [rewrite bool_decide_eq_true_2 by eauto
      | rewrite bool_decide_eq_false_2 by (by intros [? ?])];
      cbn [andb Bool.eqb]; by destruct (stamp_value _ _ _ _ _ _ _ _ _ _ _ _ _ _ _).
Qed.

Lemma parse_datetime_boundary_values_witness :
  parse_datetime "2025-06-28" = Ok (MkDatetime 2025 6 28 0 0 0 0)
  ∧ parse_datetime "2025-06-28 09:30" = Ok (MkDatetime 2025 6 28 9 30 0 0)
  ∧ parse_datetime "2025-06-28 09:30:05.250"
    = Ok (MkDatetime 2025 6 28 9 30 5 250000).
Proof.
  apply (parse_datetime_boundary_values "2" "0" "2" "5" "0" "6" "2" "8" " "
           "0" "9" "3" "0" "0" "5" (Some ("2", "5", "0")%char));
    reflexivity.
Defined.

(* ===================================================================== *)
(** ** What a run leaves alone *)
(* ===================================================================== *)

Lemma makedirs_failed (d : string) (st st1 : store) (e : exn) :
  makedirs d st = Failed e st1 → st1 = st.
Proof.
  unfold makedirs. destruct (negb (truthy d)); [by intros [= _ <-] |].
  destruct (existsb _ _); [by intros [= _ <-] | done].
Qed.

Lemma makedirs_blocked (d : string) (st : store) :
  truthy d = true → is_Some (files st !! d) →
  makedirs d st = Failed OSError st.
Proof.
  intros Hd Hf. unfold makedirs. rewrite Hd. cbn [negb existsb].
  unfold isfile at 1. by rewrite bool_decide_eq_true_2.
Qed.

(** X16. A severity run of [main] on an input path that is a regular file
    takes that file alone, whatever its extension, and returns 0 or 1; it
    leaves every file as it was but the one output of that file. *)
Theorem main_file_input_frame
    (glob : store → string → list string) (args : Args) (st : store)
    (min_severity : string) :
  severity args = Some min_severity →
  min_severity ∈ severity_choices →
  truthy_opt (start args) = false → truthy_opt (end_ args) = false →
  is_Some (files st !! input args) →
  find_log_files glob (input args) st = Ok [input args]
  ∧ ∃ code st',
      main glob args st = (Return code, st')
      ∧ (code = 0%Z ∨ code = 1%Z)
      ∧ ∀ p : string,
          p ≠ severity_output (output args) min_severity (input args) →
          files st' !! p = files st !! p.
Proof.
  intros Hs Hc Hst He Hf.
  destruct (get_choice _ Hc) as [_ Ht].
  assert (find_log_files glob (input args) st = Ok [input args]) as Hfind.
  { unfold find_log_files, isfile. by rewrite bool_decide_eq_true_2. }
  split; [done |].
  unfold main, valid_choice, perform_filtering, parse_boundaries.
  rewrite Hs, Hst, He, Hfind. cbn [truthy_opt default andb negb orb].
  unfold id. rewrite bool_decide_eq_true_2 by done. rewrite Ht.
  cbn [negb andb]. rewrite split_by_severity_filter_files.
  destruct (makedirs (output args) st) as [st0 | e st0] eqn:Hmk.
  - eexists _, _. split; [done |]. split; [by left |]. intros p Hp.
    destruct (makedirs_files _ _ _ Hmk) as [Hfiles _].
    rewrite filter_files_other, Hfiles; [done |].
    intros f Hf'. apply list_elem_of_singleton in Hf' as ->. congruence.
  - apply makedirs_failed in Hmk as ->.
    eexists _, _. split; [done |]. split; [by right | done].
Qed.

Lemma main_file_input_frame_witness :
  find_log_files (listing "out/temp") "app.log" sample_store = Ok ["app.log"].
Proof.
  apply (main_file_input_frame (listing "out/temp")
           (MkArgs "app.log" "out" (Some "WARN") None None) sample_store
           "WARN").
  - reflexivity.
  - apply list_elem_of_In. simpl. auto 10.
  - reflexivity.
  - reflexivity.
  - vm_compute. eauto.
Defined.

(** X17. When the output path is a regular file, the directory cannot be
    made: both passes raise [OSError] before any file is opened, and a run
    of [main] that has found log files returns 1 with every file as it
    was. *)
Theorem output_path_is_a_file
    (glob : store → string → list string) (args : Args) (st : store)
    (min_severity : string) (log_files : list string) :
  severity args = Some min_severity →
  min_severity ∈ severity_choices →
  truthy_opt (start args) = false → truthy_opt (end_ args) = false →
  find_log_files glob (input args) st = Ok log_files →
  log_files ≠ [] →
  truthy (output args) = true →
  is_Some (files st !! output args) →
  main glob args st = (Return 1, st)
  ∧ (∀ files' min_severity',
       split_by_severity files' min_severity' (output args) st
       = Failed OSError st)
  ∧ (∀ files' start_time end_time,
       split_by_timerange files' start_time end_time (output args) st
       = Failed OSError st).
Proof.
  intros Hs Hc Hst He Hfind Hne Hd Hf.
  destruct (get_choice _ Hc) as [_ Ht].
  assert (makedirs (output args) st = Failed OSError st) as Hmk
    by (by apply makedirs_blocked).
  splits.
  - unfold main, valid_choice, perform_filtering, parse_boundaries.
    rewrite Hs, Hst, He, Hfind. cbn [truthy_opt default andb negb orb].
    unfold id. rewrite bool_decide_eq_true_2 by done. rewrite Ht.
    cbn [negb andb]. destruct log_files as [|f lf]; [done |].
    by rewrite split_by_severity_filter_files, Hmk.
  - intros files' ms'. by rewrite split_by_severity_filter_files, Hmk.
  - intros files' s e. by rewrite split_by_timerange_filter_files, Hmk.
Qed.

Lemma output_path_is_a_file_witness :
  main (listing "out/temp") (MkArgs "app.log" "app.log" (Some "WARN") None None)
       sample_store
  = (Return 1, sample_store).
Proof.
  apply (output_path_is_a_file (listing "out/temp")
           (MkArgs "app.log" "app.log" (Some "WARN") None None) sample_store
           "WARN" ["app.log"]).
  - reflexivity.
  - apply list_elem_of_In. simpl. auto 10.
  - reflexivity.
  - reflexivity.
  - reflexivity.
  - discriminate.
  - reflexivity.
  - vm_compute. eauto.
Defined.

(* ===================================================================== *)
(** ** Line ends and severities *)
(* ===================================================================== *)

Lemma plain_no_cr (b : string) : plain b = true → contains CR b = false.
Proof.
  unfold plain. intros H. apply andb_prop in H as [_ H].
  by apply negb_true_iff in H.
Qed.

Lemma lines_no_cr (ls : list string) :
  lines_ok ls → contains CR (text_of ls) = false.
Proof.
  induction 1 as [| b Hb Ht | b ls Hb Hls IH]; simpl.
  - done.
  - rewrite string_app_nil_r. by apply plain_no_cr.
  - rewrite !contains_app, IH, (plain_no_cr b Hb). reflexivity.
Qed.

(** X18. The files a pass writes have no carriage return: the line ends
    [CR LF] and [CR] of the input are written as [LF]. *)
Theorem outputs_have_no_carriage_return
    (st : store) (log_file output_file text : string) :
  open_read log_file st = Some text →
  is_Some (open_write output_file st) →
  log_file ≠ output_file →
  (∀ min_level, ∃ out,
     files (filter_file (severity_body min_level) log_file output_file st)
       !! output_file = Some out
     ∧ contains CR out = false)
  ∧ (∀ start_time end_time, ∃ out,
       files (filter_file (timerange_body start_time end_time) log_file
                output_file st) !! output_file = Some out
       ∧ contains CR out = false).
Proof.
  intros Hr Hw Hne. split.
  - intros min_level. eexists. split; [by apply filter_file_content |].
    rewrite (foldl_pass_start _ _ _ (severity_body_spec _)). cbn [outfile].
    apply lines_no_cr, filter_lines_ok, readlines_ok.
  - intros start_time end_time. eexists.
    split; [by apply filter_file_content |].
    rewrite (foldl_pass_start _ _ _ (timerange_body_spec _ _)). cbn [outfile].
    apply lines_no_cr, filter_lines_ok, readlines_ok.
Qed.

Lemma outputs_have_no_carriage_return_witness :
  ∃ out,
    files (filter_file (severity_body 0) "app.log" "out.log"
             (MkStore {[ "app.log" := "ERROR a" +:+ String CR (String LF "b") ]}
                      ∅ [])) !! "out.log" = Some out
    ∧ contains CR out = false.
Proof.
  destruct (outputs_have_no_carriage_return
              (MkStore {[ "app.log"
                          := "ERROR a" +:+ String CR (String LF "b") ]} ∅ [])
              "app.log" "out.log"
              ("ERROR a" +:+ String CR (String LF "b"))) as [H _].
  - vm_compute. reflexivity.
  - vm_compute. eauto.
  - discriminate.
  - exact (H 0%Z).
Defined.

(** X19. A severity that [extract_severity] returns is one of the eight
    tokens and is not empty: its rank is found in [SEVERITY_LEVELS], so the
    default of the lookup in [split_by_severity] is never used, and the test
    of the severity as a truth value tells present from absent. *)
Theorem extracted_severity_is_ranked (line sev : string) :
  extract_severity line = Some sev →
  sev ∈ severity_choices
  ∧ truthy sev = true
  ∧ SEVERITY_LEVELS !! sev = Some (rank sev)
  ∧ ∀ dflt, get sev dflt = rank sev.
Proof.
  intros H. apply extract_severity_token in H. unfold tokens in H.
  split; [done |]. unfold severity_choices in H.
  rewrite !elem_of_cons, elem_of_nil in H.
  repeat destruct H as [-> | H]; done.
Qed.

Lemma extracted_severity_is_ranked_witness :
  SEVERITY_LEVELS !! "WARN" = Some (rank "WARN").
Proof.
  apply (extracted_severity_is_ranked "disk warn: full" "WARN").
  vm_compute. reflexivity.
Defined.

(** X20. On the lines of a file the two passes commute: the severity pass
    over what the time-range pass keeps writes the lines that the time-range
    pass writes of what the severity pass keeps, and these are the lines
    that pass both tests, in their order. *)
Theorem passes_commute (min_level : Z) (start_time end_time : datetime)
    (lines : list string) :
  outfile (foldl (severity_body min_level) start_pass
             (outfile (foldl (timerange_body start_time end_time) start_pass
                             lines)))
  = outfile (foldl (timerange_body start_time end_time) start_pass
               (outfile (foldl (severity_body min_level) start_pass lines)))
  ∧ outfile (foldl (severity_body min_level) start_pass
               (outfile (foldl (timerange_body start_time end_time)
                               start_pass lines)))
    = List.filter (λ line, in_timerangeb start_time end_time line
                           && passes_severityb min_level line) lines.
Proof.
  rewrite !(foldl_pass_start _ _ _ (severity_body_spec _)).
  rewrite !(foldl_pass_start _ _ _ (timerange_body_spec _ _)).
  cbn [outfile].
  destruct (time_then_severity_joint start_time end_time min_level lines)
    as [H1 H2].
  unfold time_then_severity, severity_then_time, joint_filter in *.
  by rewrite H1, H2.
Qed.
